(** * DeepDenoiser: the feature and loss orchestration core

    A shallow embedding of [TensorFlow/DeepDenoiser.py].  Each Python class
    becomes a module with a record [t] and its methods as functions over
    it; an object that a method mutates is passed in and handed back, and a
    call that can raise returns an [outcome].  A function of a module that
    is only imported ([RenderPasses], [LossDifference], [FeatureEngineering],
    the backbone) is a [Variable] of the section that calls it.

    Numbers.  Standardization needs a square root, a logarithm and an
    exponential, so its tensors hold exact reals extended with one value for
    the non finite results of IEEE arithmetic.  The loss side only adds,
    multiplies, divides and compares, so it uses the rationals, which
    compute. *)

From Stdlib Require Import String Reals Lra QArith Qabs Qfield Arith Lia Bool List.
From Stdlib Require Import Sorting.Sorted Sorting.Permutation.
Import ListNotations.

Set Implicit Arguments.

Open Scope string_scope.
Open Scope list_scope.
Open Scope nat_scope.

(** ** Outcomes of calls that may raise *)

Inductive exn : Type :=
| Exception (message : string)
| AssertionError
| IndexError
| KeyError (key : string)
| AttributeError (attribute : string)
| ValueError
| UnboundLocalError (variable : string).

Inductive outcome (A : Type) : Type :=
| Returned (a : A)
| Raised (e : exn).

Arguments Returned {A} a.
Arguments Raised {A} e.

Definition bind {A B : Type} (c : outcome A) (k : A -> outcome B) : outcome B :=
  match c with
  | Returned a => k a
  | Raised e => Raised e
  end.

Declare Scope outcome_scope.
Delimit Scope outcome_scope with outcome.
Notation "x <- c ;; k" := (bind c (fun x => k))
  (at level 61, c at next level, right associativity) : outcome_scope.

Definition returns {A : Type} (c : outcome A) : Prop := exists a, c = Returned a.
Definition raises {A : Type} (c : outcome A) : Prop := exists e, c = Raised e.

(** ** Python lists and dictionaries *)

(** [l[index]] *)
Definition list_get {A : Type} (l : list A) (index : nat) : outcome A :=
  match nth_error l index with
  | Some a => Returned a
  | None => Raised IndexError
  end.

(** [l[index] = a], for an index that [list_get] accepts. *)
Fixpoint list_set {A : Type} (l : list A) (index : nat) (a : A) : list A :=
  match l, index with
  | [], _ => []
  | _ :: rest, O => a :: rest
  | b :: rest, S index' => b :: list_set rest index' a
  end.

(** A dictionary keyed by strings, latest binding first. *)
Definition dict (A : Type) : Type := list (string * A).

Fixpoint dict_find {A : Type} (d : dict A) (key : string) : option A :=
  match d with
  | [] => None
  | (k, a) :: rest => if String.eqb k key then Some a else dict_find rest key
  end.

(** [d[key]] *)
Definition dict_get {A : Type} (d : dict A) (key : string) : outcome A :=
  match dict_find d key with
  | Some a => Returned a
  | None => Raised (KeyError key)
  end.

(** An attribute that exists only once a method has set it. *)
Definition attribute {A : Type} (name : string) (a : option A) : outcome A :=
  match a with
  | Some v => Returned v
  | None => Raised (AttributeError name)
  end.

Lemma list_set_middle {A : Type} (before : list A) x after y :
  list_set (before ++ x :: after) (length before) y = before ++ y :: after.
Proof. induction before as [|b before IH]; simpl; [reflexivity|now rewrite IH]. Qed.

(** ** Tensors of extended reals *)

Module Tensor.

Local Open Scope R_scope.

(** One tensor entry: a finite real, or the non finite result ([inf],
    [-inf] or [nan]) of a division by zero or of the root of a negative
    number.  The operands below that are not entries are the finite
    numbers of a configuration, for which a non finite entry stays non
    finite under every operation used here. *)
Inductive tfloat : Type :=
| Finite (r : R)
| NonFinite.

Definition is_finite (x : tfloat) : Prop :=
  match x with Finite _ => True | NonFinite => False end.

Definition lift (f : R -> R) (x : tfloat) : tfloat :=
  match x with Finite r => Finite (f r) | NonFinite => NonFinite end.

(** A tensor, channel axis outermost: the list of its channels, each the
    list of the entries of that channel. *)
Definition tensor : Type := list (list tfloat).

Definition tmap (f : tfloat -> tfloat) (t : tensor) : tensor := map (map f) t.

Definition all_finite (t : tensor) : Prop := Forall (Forall is_finite) t.

(** [tf.sqrt] of a configured number. *)
Definition tf_sqrt (v : R) : tfloat :=
  if Rlt_dec v 0 then NonFinite else Finite (sqrt v).

(** [tf.subtract], [tf.add], [tf.multiply] and [tf.divide] of a tensor and
    a scalar, entry by entry. *)
Definition tf_subtract (t : tensor) (c : R) : tensor := tmap (lift (fun r => r - c)) t.
Definition tf_add (t : tensor) (c : R) : tensor := tmap (lift (fun r => r + c)) t.

Definition mul (c : tfloat) (x : tfloat) : tfloat :=
  match x, c with
  | Finite r, Finite s => Finite (r * s)
  | _, _ => NonFinite
  end.

Definition div (c : tfloat) (x : tfloat) : tfloat :=
  match x, c with
  | Finite r, Finite s => if Req_dec_T s 0 then NonFinite else Finite (r / s)
  | _, _ => NonFinite
  end.

Definition tf_multiply (t : tensor) (c : tfloat) : tensor := tmap (mul c) t.
Definition tf_divide (t : tensor) (c : tfloat) : tensor := tmap (div c) t.

Lemma tmap_tmap f g t : tmap f (tmap g t) = tmap (fun x => f (g x)) t.
Proof.
  unfold tmap. rewrite map_map. apply map_ext. intros c. now rewrite map_map.
Qed.

Lemma tmap_id_on (P : tfloat -> Prop) f t :
  (forall x, P x -> f x = x) -> Forall (Forall P) t -> tmap f t = t.
Proof.
  intros Hf Ht. unfold tmap. induction Ht as [|c t Hc _ IH]; simpl; [reflexivity|].
  f_equal; [|exact IH]. clear IH. induction Hc as [|x c Hx _ IH]; simpl; [reflexivity|].
  now rewrite Hf, IH.
Qed.

End Tensor.

(** ** Utilities *)

Module Utilities.

Import Tensor.
Local Open Scope R_scope.

Definition sign (r : R) : R :=
  if Rlt_dec 0 r then 1 else if Rlt_dec r 0 then -1 else 0.

(** Modelled from the spec: [Utilities.signed_log1p], which is not part of
    the sources at hand; the signed log1p transform is
    [sign x * log1p |x|]. *)
Definition signed_log1p_value (r : R) : R := sign r * ln (1 + Rabs r).

(** Modelled from the spec: [Utilities.signed_expm1], which is not part of
    the sources at hand; the signed expm1 transform is
    [sign x * expm1 |x|]. *)
Definition signed_expm1_value (r : R) : R := sign r * (exp (Rabs r) - 1).

Definition signed_log1p (t : tensor) : tensor := tmap (lift signed_log1p_value) t.
Definition signed_expm1 (t : tensor) : tensor := tmap (lift signed_expm1_value) t.

Lemma ln_1_plus_pos r : 0 < r -> 0 < ln (1 + r).
Proof. intros H. rewrite <- ln_1. apply ln_increasing; lra. Qed.

Lemma signed_expm1_log1p r : signed_expm1_value (signed_log1p_value r) = r.
Proof.
  unfold signed_expm1_value, signed_log1p_value, sign.
  destruct (Rlt_dec 0 r) as [Hpos|Hnpos].
  - rewrite (Rabs_pos_eq r) by lra.
    pose proof (ln_1_plus_pos Hpos) as Hln.
    rewrite Rmult_1_l. destruct (Rlt_dec 0 (ln (1 + r))) as [_|C]; [|lra].
    rewrite (Rabs_pos_eq (ln (1 + r))) by lra.
    rewrite exp_ln by lra. lra.
  - destruct (Rlt_dec r 0) as [Hneg|Hnneg].
    + rewrite (Rabs_left r) by lra.
      assert (Hln : 0 < ln (1 + - r)) by (apply ln_1_plus_pos; lra).
      destruct (Rlt_dec 0 (-1 * ln (1 + - r))) as [C|_]; [lra|].
      destruct (Rlt_dec (-1 * ln (1 + - r)) 0) as [_|C]; [|lra].
      rewrite (Rabs_left (-1 * ln (1 + - r))) by lra.
      replace (- (-1 * ln (1 + - r))) with (ln (1 + - r)) by lra.
      rewrite exp_ln by lra. lra.
    + assert (r = 0) by lra. subst r.
      rewrite Rabs_R0, Rplus_0_r, ln_1, Rmult_0_l.
      destruct (Rlt_dec 0 0) as [C|_]; [lra|]. lra.
Qed.

Lemma exp_minus_1_pos r : 0 < r -> 0 < exp r - 1.
Proof. intros H. pose proof (exp_increasing 0 r H) as He. rewrite exp_0 in He. lra. Qed.

Lemma signed_log1p_expm1 r : signed_log1p_value (signed_expm1_value r) = r.
Proof.
  unfold signed_expm1_value, signed_log1p_value, sign.
  destruct (Rlt_dec 0 r) as [Hpos|Hnpos].
  - rewrite (Rabs_pos_eq r) by lra.
    pose proof (exp_minus_1_pos Hpos) as He.
    rewrite Rmult_1_l. destruct (Rlt_dec 0 (exp r - 1)) as [_|C]; [|lra].
    rewrite (Rabs_pos_eq (exp r - 1)) by lra.
    replace (1 + (exp r - 1)) with (exp r) by lra. rewrite ln_exp. lra.
  - destruct (Rlt_dec r 0) as [Hneg|Hnneg].
    + rewrite (Rabs_left r) by lra.
      assert (He : 0 < exp (- r) - 1) by (apply exp_minus_1_pos; lra).
      destruct (Rlt_dec 0 (-1 * (exp (- r) - 1))) as [C|_]; [lra|].
      destruct (Rlt_dec (-1 * (exp (- r) - 1)) 0) as [_|C]; [|lra].
      rewrite (Rabs_left (-1 * (exp (- r) - 1))) by lra.
      replace (1 + - (-1 * (exp (- r) - 1))) with (exp (- r)) by lra.
      rewrite ln_exp. lra.
    + assert (r = 0) by lra. subst r.
      rewrite Rabs_R0, exp_0, Rmult_0_l.
      destruct (Rlt_dec 0 0) as [C|_]; [lra|]. lra.
Qed.

End Utilities.

(** ** FeatureStandardization *)

Module FeatureStandardization.

Import Tensor.
Local Open Scope R_scope.

Record t : Type := {
  use_log1p : bool;
  mean : R;
  variance : R;
  name : string
}.

Definition use_mean (self : t) : bool :=
  if Req_dec_T (mean self) 0 then false else true.

Definition use_variance (self : t) : bool :=
  if Req_dec_T (variance self) 1 then false else true.

Definition standardize (self : t) (feature : tensor) (index : nat) : tensor :=
  let feature := if use_log1p self then Utilities.signed_log1p feature else feature in
  let feature := if use_mean self then tf_subtract feature (mean self) else feature in
  let feature :=
    if use_variance self then tf_divide feature (tf_sqrt (variance self)) else feature in
  feature.

Definition invert_standardize (self : t) (feature : tensor) : tensor :=
  let feature :=
    if use_variance self then tf_multiply feature (tf_sqrt (variance self)) else feature in
  let feature := if use_mean self then tf_add feature (mean self) else feature in
  let feature := if use_log1p self then Utilities.signed_expm1 feature else feature in
  feature.

(** What the two methods do to one entry. *)
Definition standardize_entry (self : t) (x : tfloat) : tfloat :=
  let x := if use_log1p self then lift Utilities.signed_log1p_value x else x in
  let x := if use_mean self then lift (fun r => r - mean self) x else x in
  if use_variance self then div (tf_sqrt (variance self)) x else x.

Definition invert_standardize_entry (self : t) (x : tfloat) : tfloat :=
  let x := if use_variance self then mul (tf_sqrt (variance self)) x else x in
  let x := if use_mean self then lift (fun r => r + mean self) x else x in
  if use_log1p self then lift Utilities.signed_expm1_value x else x.

(** A configuration the parser accepts whose variance is zero. *)
Definition zero_variance : t :=
  {| use_log1p := false; mean := 0; variance := 0; name := "Depth" |}.

(** A configuration with every step switched on. *)
Definition all_steps : t :=
  {| use_log1p := true; mean := 1; variance := 4; name := "Depth" |}.

Lemma tmap_same t0 : tmap (fun x => x) t0 = t0.
Proof.
  unfold tmap. rewrite <- (map_id t0) at 2. apply map_ext. intros c. apply map_id.
Qed.

Lemma standardize_entrywise self x index :
  standardize self x index = tmap (standardize_entry self) x.
Proof.
  unfold standardize, standardize_entry, Utilities.signed_log1p, tf_subtract, tf_divide.
  destruct (use_log1p self), (use_mean self), (use_variance self);
    rewrite ?tmap_tmap; try reflexivity.
  now rewrite tmap_same.
Qed.

Lemma invert_standardize_entrywise self x :
  invert_standardize self x = tmap (invert_standardize_entry self) x.
Proof.
  unfold invert_standardize, invert_standardize_entry, Utilities.signed_expm1,
    tf_add, tf_multiply.
  destruct (use_log1p self), (use_mean self), (use_variance self);
    rewrite ?tmap_tmap; try reflexivity.
  now rewrite tmap_same.
Qed.

Lemma div_mul_sqrt v r : 0 < v ->
  mul (tf_sqrt v) (div (tf_sqrt v) (Finite r)) = Finite r.
Proof.
  intros Hv. unfold tf_sqrt. destruct (Rlt_dec v 0) as [C|_]; [lra|].
  pose proof (sqrt_lt_R0 v Hv) as Hs. unfold div.
  destruct (Req_dec_T (sqrt v) 0) as [C|_]; [lra|].
  unfold mul. f_equal. field. lra.
Qed.

Lemma invert_standardize_entry_standardize_entry self r :
  0 < variance self ->
  invert_standardize_entry self (standardize_entry self (Finite r)) = Finite r.
Proof.
  intros Hv. unfold invert_standardize_entry, standardize_entry.
  assert (Hround : forall s,
    Utilities.signed_expm1_value (Utilities.signed_log1p_value s - mean self + mean self)
    = s).
  { intros s. rewrite <- (Utilities.signed_expm1_log1p s) at 2. f_equal. lra. }
  destruct (use_variance self), (use_log1p self), (use_mean self);
    cbv beta zeta iota delta [lift];
    rewrite ?div_mul_sqrt by exact Hv;
    cbv beta zeta iota delta [lift]; f_equal;
    rewrite ?Hround, ?Utilities.signed_expm1_log1p; lra.
Qed.

(** With a variance that is not strictly positive (and not one, which it
    then cannot be) the division step leaves no finite entry. *)
Lemma standardize_entry_not_finite self x :
  variance self <= 0 -> standardize_entry self x = NonFinite \/ x = NonFinite.
Proof.
  intros Hv. destruct x as [r|]; [left|now right].
  unfold standardize_entry, use_variance.
  destruct (Req_dec_T (variance self) 1) as [C|_]; [lra|].
  unfold tf_sqrt. destruct (Rlt_dec (variance self) 0) as [Hneg|Hnneg].
  - destruct (use_log1p self), (use_mean self); reflexivity.
  - assert (Hz : variance self = 0) by lra. rewrite Hz, sqrt_0.
    destruct (use_log1p self), (use_mean self); simpl;
      destruct (Req_dec_T 0 0) as [_|C]; try reflexivity; now elim C.
Qed.

(** C1, as amended: for every configuration whose variance is strictly
    positive, whatever its use_log1p flag and its mean, and for every tensor
    of finite entries, invert_standardize undoes standardize exactly in real
    arithmetic: the signed expm1 undoes the signed log1p, adding the mean
    undoes subtracting it, and multiplying by the root of the variance
    undoes dividing by it. *)
Theorem invert_standardize_standardize (self : t) (x : tensor) (index : nat) :
  0 < variance self -> all_finite x ->
  invert_standardize self (standardize self x index) = x.
Proof.
  intros Hv Hx.
  rewrite standardize_entrywise, invert_standardize_entrywise, tmap_tmap.
  apply tmap_id_on with (P := is_finite); [|exact Hx].
  intros [r|] Hr; [|now elim Hr].
  now apply invert_standardize_entry_standardize_entry.
Qed.

(** C1, as amended, on a configuration with every step on and variance 4. *)
Lemma invert_standardize_standardize_witness :
  invert_standardize all_steps
    (standardize all_steps [[Finite 2; Finite (-3)]; [Finite 0]] 0)
  = [[Finite 2; Finite (-3)]; [Finite 0]].
Proof.
  apply (invert_standardize_standardize all_steps).
  - simpl. lra.
  - repeat constructor.
Defined.

(** C1 as stated fails: with variance 0 (a variance that is not one) the
    finite entry 1 is divided by the root of 0, and what comes back is not
    finite. *)
Lemma invert_standardize_zero_variance :
  invert_standardize zero_variance (standardize zero_variance [[Finite 1]] 0)
  = [[NonFinite]].
Proof.
  unfold invert_standardize, standardize, use_mean, use_variance. simpl.
  destruct (Req_dec_T 0 0) as [_|C]; [|now elim C].
  destruct (Req_dec_T 0 1) as [C|_]; [lra|].
  unfold tf_divide, tf_multiply, tf_sqrt, tmap. simpl.
  destruct (Rlt_dec 0 0) as [C|_]; [lra|]. simpl.
  rewrite sqrt_0. destruct (Req_dec_T 0 0) as [_|C]; [reflexivity|now elim C].
Qed.

Lemma mul_div_root v r : 0 < v ->
  div (Finite (sqrt v)) (mul (Finite (sqrt v)) (Finite r)) = Finite r.
Proof.
  intros Hv. pose proof (sqrt_lt_R0 v Hv) as Hs. unfold mul, div.
  destruct (Req_dec_T (sqrt v) 0) as [C|_]; [lra|].
  f_equal. field. lra.
Qed.

Lemma standardize_entry_invert_standardize_entry self r :
  0 < variance self ->
  standardize_entry self (invert_standardize_entry self (Finite r)) = Finite r.
Proof.
  intros Hv. unfold invert_standardize_entry, standardize_entry.
  assert (Hround : forall s,
    Utilities.signed_log1p_value (Utilities.signed_expm1_value (s + mean self))
    - mean self = s).
  { intros s. rewrite Utilities.signed_log1p_expm1. lra. }
  destruct (use_variance self), (use_log1p self), (use_mean self);
    cbv beta zeta iota delta [lift mul tf_sqrt];
    try (destruct (Rlt_dec (variance self) 0) as [C|_]; [lra|]);
    cbv beta zeta iota delta [lift];
    rewrite ?Hround, ?Utilities.signed_log1p_expm1;
    try (replace (r * sqrt (variance self) + mean self - mean self)
           with (r * sqrt (variance self)) by lra);
    try (change (Finite (r * sqrt (variance self)))
           with (mul (Finite (sqrt (variance self))) (Finite r)));
    try reflexivity; try (now apply mul_div_root); f_equal; lra.
Qed.

(** X17: the round trip in the other direction.  For every configuration
    whose variance is strictly positive and every tensor of finite
    entries, standardize undoes invert_standardize exactly in real
    arithmetic, whatever the source index. *)
Theorem standardize_invert_standardize (self : t) (y : tensor) (index : nat) :
  0 < variance self -> all_finite y ->
  standardize self (invert_standardize self y) index = y.
Proof.
  intros Hv Hy.
  rewrite invert_standardize_entrywise, standardize_entrywise, tmap_tmap.
  apply tmap_id_on with (P := is_finite); [|exact Hy].
  intros [r|] Hr; [|now elim Hr].
  now apply standardize_entry_invert_standardize_entry.
Qed.

Lemma standardize_entry_non_finite self : standardize_entry self NonFinite = NonFinite.
Proof.
  unfold standardize_entry.
  destruct (use_log1p self), (use_mean self), (use_variance self); reflexivity.
Qed.

Lemma invert_standardize_entry_non_finite self :
  invert_standardize_entry self NonFinite = NonFinite.
Proof.
  unfold invert_standardize_entry.
  destruct (use_log1p self), (use_mean self), (use_variance self); reflexivity.
Qed.

Lemma tmap_constant (f : tfloat -> tfloat) (x : tensor) :
  (forall e, f e = NonFinite) ->
  Forall (Forall (fun e => e = NonFinite)) (tmap f x).
Proof.
  intros Hf. unfold tmap. apply Forall_forall. intros c Hc.
  apply in_map_iff in Hc. destruct Hc as (c' & <- & _).
  apply Forall_forall. intros e He. apply in_map_iff in He.
  destruct He as (e' & <- & _). apply Hf.
Qed.

(** X18: a variance that is not strictly positive spoils every entry.
    The division by its root leaves no finite entry in what standardize
    returns, whatever the tensor, the flag and the mean, and
    invert_standardize gives none of the entries back. *)
Theorem standardize_variance_not_positive (self : t) (x : tensor) (index : nat) :
  variance self <= 0 ->
  Forall (Forall (fun e => e = NonFinite)) (standardize self x index) /\
  Forall (Forall (fun e => e = NonFinite))
    (invert_standardize self (standardize self x index)).
Proof.
  intros Hv.
  assert (Hentry : forall e, standardize_entry self e = NonFinite).
  { intros e. destruct (standardize_entry_not_finite self e Hv) as [H| ->];
      [exact H|apply standardize_entry_non_finite]. }
  rewrite invert_standardize_entrywise, standardize_entrywise, tmap_tmap. split.
  - now apply tmap_constant.
  - apply tmap_constant. intros e. rewrite Hentry.
    apply invert_standardize_entry_non_finite.
Qed.

(** X17 on a configuration with every step on and variance 4. *)
Lemma standardize_invert_standardize_witness :
  standardize all_steps
    (invert_standardize all_steps [[Finite 2; Finite (-3)]; [Finite 0]]) 0
  = [[Finite 2; Finite (-3)]; [Finite 0]].
Proof.
  apply (standardize_invert_standardize all_steps).
  - simpl. lra.
  - repeat constructor.
Defined.

(** X18 on the configuration with variance 0. *)
Lemma standardize_variance_not_positive_witness :
  Forall (Forall (fun e => e = NonFinite))
    (standardize zero_variance [[Finite 1; Finite 2]] 0) /\
  Forall (Forall (fun e => e = NonFinite))
    (invert_standardize zero_variance (standardize zero_variance [[Finite 1; Finite 2]] 0)).
Proof.
  apply (standardize_variance_not_positive zero_variance).
  simpl. lra.
Defined.

End FeatureStandardization.

(** ** FeatureVariance *)

Module FeatureVariance.

Import Tensor.

Record t : Type := {
  use_variance : bool;
  relative_variance : bool;
  compute_before_standardization : bool;
  compress_to_one_channel : bool;
  name : string
}.

Section Variance.

(** [FeatureEngineering.variance inputs relative_variance
    compress_to_one_channel], the variance engine, which the driver only
    calls. *)
Variable FeatureEngineering_variance : tensor -> bool -> bool -> tensor.

Definition variance (self : t) (inputs : tensor) : outcome tensor :=
  if use_variance self
  then Returned (FeatureEngineering_variance inputs
                   (relative_variance self) (compress_to_one_channel self))
  else Raised AssertionError.

End Variance.

End FeatureVariance.

(** ** PredictionFeature *)

Module PredictionFeature.

Import Tensor.
Local Open Scope outcome_scope.

(** The constructor's arguments (but [feature_flags], which only the
    single-feature architecture reads), then the attributes that the
    methods set: [source] and [variance] by
    [initialize_sources_from_dictionary], [preserved_source] by
    [standardize], [prediction] by [add_prediction]. *)
Record t : Type := {
  number_of_sources : nat;
  preserve_source : bool;
  is_target : bool;
  feature_standardization : option FeatureStandardization.t;
  feature_variance : FeatureVariance.t;
  number_of_channels : nat;
  name : string;
  source : option (list tensor);
  variance : option (list tensor);
  preserved_source : option tensor;
  prediction : option tensor
}.

Definition set_source (self : t) (v : list tensor) : t :=
  {| number_of_sources := number_of_sources self;
     preserve_source := preserve_source self;
     is_target := is_target self;
     feature_standardization := feature_standardization self;
     feature_variance := feature_variance self;
     number_of_channels := number_of_channels self;
     name := name self;
     source := Some v;
     variance := variance self;
     preserved_source := preserved_source self;
     prediction := prediction self |}.

Definition set_variance (self : t) (v : list tensor) : t :=
  {| number_of_sources := number_of_sources self;
     preserve_source := preserve_source self;
     is_target := is_target self;
     feature_standardization := feature_standardization self;
     feature_variance := feature_variance self;
     number_of_channels := number_of_channels self;
     name := name self;
     source := source self;
     variance := Some v;
     preserved_source := preserved_source self;
     prediction := prediction self |}.

Definition set_preserved_source (self : t) (v : tensor) : t :=
  {| number_of_sources := number_of_sources self;
     preserve_source := preserve_source self;
     is_target := is_target self;
     feature_standardization := feature_standardization self;
     feature_variance := feature_variance self;
     number_of_channels := number_of_channels self;
     name := name self;
     source := source self;
     variance := variance self;
     preserved_source := Some v;
     prediction := prediction self |}.

Definition set_prediction (self : t) (v : tensor) : t :=
  {| number_of_sources := number_of_sources self;
     preserve_source := preserve_source self;
     is_target := is_target self;
     feature_standardization := feature_standardization self;
     feature_variance := feature_variance self;
     number_of_channels := number_of_channels self;
     name := name self;
     source := source self;
     variance := variance self;
     preserved_source := preserved_source self;
     prediction := Some v |}.

(** *** Sample objects *)

(** A stand-in for the variance engine: it keeps the first channel when
    asked to compress and every channel otherwise. *)
Definition sample_variance (inputs : tensor) (relative compress : bool) : tensor :=
  if compress then firstn 1 inputs else inputs.

(** A stand-in for the naming of indexed sources. *)
Definition sample_name_indexed (name : string) (index : nat) : string :=
  name ++ String (Ascii.ascii_of_nat (48 + index)) "".

Definition sample_feature_variance : FeatureVariance.t :=
  {| FeatureVariance.use_variance := true;
     FeatureVariance.relative_variance := false;
     FeatureVariance.compute_before_standardization := false;
     FeatureVariance.compress_to_one_channel := true;
     FeatureVariance.name := "Normal" |}.

(** A target feature with two sources. *)
Definition two_sources : t :=
  {| number_of_sources := 2;
     preserve_source := true;
     is_target := true;
     feature_standardization := Some FeatureStandardization.all_steps;
     feature_variance := sample_feature_variance;
     number_of_channels := 1;
     name := "Normal";
     source := None;
     variance := None;
     preserved_source := None;
     prediction := None |}.

Definition two_sources_dictionary : dict tensor :=
  [("Normal0", [[Finite 1%R]]); ("Normal1", [[Finite 2%R]])].

(** A feature that asks for no source at all. *)
Definition no_sources : t :=
  {| number_of_sources := 0;
     preserve_source := false;
     is_target := true;
     feature_standardization := Some FeatureStandardization.all_steps;
     feature_variance := sample_feature_variance;
     number_of_channels := 1;
     name := "Normal";
     source := None;
     variance := None;
     preserved_source := None;
     prediction := None |}.

Definition no_sources_loaded : t := set_variance (set_source no_sources []) [].

Section Methods.

Variable FeatureEngineering_variance : tensor -> bool -> bool -> tensor.

(** [RenderPasses.source_feature_name_indexed name index] *)
Variable source_feature_name_indexed : string -> nat -> string.

(** The loop of [initialize_sources_from_dictionary] over [range]. *)
Fixpoint load_sources (indices : list nat) (dictionary : dict tensor) (self : t)
  : outcome t :=
  match indices with
  | [] => Returned self
  | index :: rest =>
      source_at_index <-
        dict_get dictionary (source_feature_name_indexed (name self) index) ;;
      sources <- attribute "source" (source self) ;;
      load_sources rest dictionary (set_source self (sources ++ [source_at_index]))
  end.

Definition initialize_sources_from_dictionary (self : t) (dictionary : dict tensor)
  : outcome t :=
  let self := set_source self [] in
  let self := set_variance self [] in
  load_sources (seq 0 (number_of_sources self)) dictionary self.

(** One variance pass of [standardize]: for each index, the assertion on
    the length of the variance list, then the variance of that source,
    appended. *)
Fixpoint variance_pass (indices : list nat) (self : t) : outcome t :=
  match indices with
  | [] => Returned self
  | index :: rest =>
      variances <- attribute "variance" (variance self) ;;
      if negb (length variances =? index) then Raised AssertionError else
      sources <- attribute "source" (source self) ;;
      source_at_index <- list_get sources index ;;
      v <- FeatureVariance.variance FeatureEngineering_variance
             (feature_variance self) source_at_index ;;
      variance_pass rest (set_variance self (variances ++ [v]))
  end.

(** The standardization loop of [standardize]. *)
Fixpoint standardize_pass (standardization : FeatureStandardization.t)
    (indices : list nat) (self : t) : outcome t :=
  match indices with
  | [] => Returned self
  | index :: rest =>
      sources <- attribute "source" (source self) ;;
      source_at_index <- list_get sources index ;;
      standardize_pass standardization rest
        (set_source self
           (list_set sources index
              (FeatureStandardization.standardize standardization source_at_index index)))
  end.

Definition standardize (self : t) : outcome t :=
  let fv := feature_variance self in
  let indices := seq 0 (number_of_sources self) in
  self <-
    (if FeatureVariance.use_variance fv
        && FeatureVariance.compute_before_standardization fv
     then variance_pass indices self
     else Returned self) ;;
  self <-
    (if preserve_source self
     then sources <- attribute "source" (source self) ;;
          first <- list_get sources 0 ;;
          Returned (set_preserved_source self first)
     else Returned self) ;;
  self <-
    match feature_standardization self with
    | Some standardization => standardize_pass standardization indices self
    | None => Returned self
    end ;;
  if FeatureVariance.use_variance fv
     && negb (FeatureVariance.compute_before_standardization fv)
  then variance_pass indices self
  else Returned self.

Definition prediction_invert_standardize (self : t) : outcome t :=
  match feature_standardization self with
  | Some standardization =>
      p <- attribute "prediction" (prediction self) ;;
      Returned (set_prediction self
                  (FeatureStandardization.invert_standardize standardization p))
  | None => Returned self
  end.

Definition add_prediction (self : t) (p : tensor) : outcome t :=
  if negb (is_target self)
  then Raised (Exception
    "Adding a prediction for a feature that is not a target is not allowed.")
  else Returned (set_prediction self p).

(** The variance of one source under the flags of [fv]. *)
Definition variance_of (fv : FeatureVariance.t) (s : tensor) : tensor :=
  FeatureEngineering_variance s
    (FeatureVariance.relative_variance fv) (FeatureVariance.compress_to_one_channel fv).

(** The sources once the standardization loop has run over all of them. *)
Definition standardized_sources (standardization : option FeatureStandardization.t)
    (raw : list tensor) : list tensor :=
  match standardization with
  | Some st => map (fun s => FeatureStandardization.standardize st s 0) raw
  | None => raw
  end.

(** The object that [standardize] leaves behind when it is called in the
    sources-loaded state with sources [raw]. *)
Definition standardized_from (self : t) (raw : list tensor) : t :=
  let fv := feature_variance self in
  let final := standardized_sources (feature_standardization self) raw in
  let self :=
    if preserve_source self
    then match raw with first :: _ => set_preserved_source self first | [] => self end
    else self in
  let self := set_source self final in
  if FeatureVariance.use_variance fv
  then set_variance self
         (map (variance_of fv)
            (if FeatureVariance.compute_before_standardization fv then raw else final))
  else self.

Lemma set_source_same self srcs : source self = Some srcs -> set_source self srcs = self.
Proof. destruct self; simpl; intros ->; reflexivity. Qed.

Lemma set_variance_same self vs : variance self = Some vs -> set_variance self vs = self.
Proof. destruct self; simpl; intros ->; reflexivity. Qed.

Lemma skipn_nth_error {A : Type} (l : list A) k x :
  nth_error l k = Some x -> skipn k l = x :: skipn (S k) l.
Proof.
  revert k. induction l as [|a l IH]; intros [|k] H; simpl in *; try discriminate.
  - now injection H as ->.
  - now apply IH.
Qed.

Lemma firstn_nth_error {A : Type} (l : list A) k x :
  nth_error l k = Some x -> firstn (S k) l = firstn k l ++ [x].
Proof.
  revert k. induction l as [|a l IH]; intros [|k] H; simpl in *; try discriminate.
  - now injection H as ->.
  - f_equal. now apply IH.
Qed.

Lemma list_get_nth_error {A : Type} (l : list A) k :
  k < length l -> exists x, nth_error l k = Some x /\ list_get l k = Returned x.
Proof.
  intros H. unfold list_get. destruct (nth_error l k) as [x|] eqn:E.
  - now exists x.
  - apply nth_error_None in E. lia.
Qed.

Lemma load_sources_spec indices dictionary : forall self acc loaded,
  source self = Some acc ->
  load_sources indices dictionary self = Returned loaded ->
  exists new, length new = length indices /\ loaded = set_source self (acc ++ new).
Proof.
  induction indices as [|index rest IH]; intros self acc loaded Hsrc Hload; simpl in Hload.
  - injection Hload as <-. exists []. split; [reflexivity|].
    rewrite app_nil_r. symmetry. now apply set_source_same.
  - destruct (dict_get dictionary (source_feature_name_indexed (name self) index))
      as [x|e]; simpl in Hload; [|discriminate].
    rewrite Hsrc in Hload. simpl in Hload.
    apply IH with (acc := acc ++ [x]) in Hload; [|reflexivity].
    destruct Hload as (new & Hlen & ->). exists (x :: new). split.
    + simpl. now rewrite Hlen.
    + rewrite <- app_assoc. reflexivity.
Qed.

Lemma variance_pass_spec m : forall k self vs srcs,
  variance self = Some vs -> length vs = k -> source self = Some srcs ->
  k + m <= length srcs ->
  FeatureVariance.use_variance (feature_variance self) = true ->
  variance_pass (seq k m) self
  = Returned (set_variance self
      (vs ++ map (variance_of (feature_variance self)) (firstn m (skipn k srcs)))).
Proof.
  induction m as [|m IH]; intros k self vs srcs Hvar Hlen Hsrc Hbound Huse; simpl.
  - rewrite app_nil_r. f_equal. symmetry. now apply set_variance_same.
  - rewrite Hvar. simpl. rewrite (proj2 (Nat.eqb_eq _ _) Hlen). simpl.
    rewrite Hsrc. simpl.
    destruct (@list_get_nth_error _ srcs k) as (x & Hnth & Hget); [lia|].
    rewrite Hget. simpl. unfold FeatureVariance.variance at 1. rewrite Huse. simpl.
    rewrite (IH (S k) _ (vs ++ [variance_of (feature_variance self) x]) srcs);
      try reflexivity; try assumption; try lia.
    + simpl. rewrite (skipn_nth_error _ _ Hnth). simpl. rewrite <- app_assoc. reflexivity.
    + rewrite length_app. simpl. lia.
Qed.

Lemma variance_pass_assert self vs index rest :
  variance self = Some vs -> length vs <> index ->
  variance_pass (index :: rest) self = Raised AssertionError.
Proof.
  intros Hvar Hlen. simpl. rewrite Hvar. simpl.
  now rewrite (proj2 (Nat.eqb_neq _ _) Hlen).
Qed.

Lemma standardize_pass_spec standardization m : forall k self srcs,
  k + m <= length srcs ->
  source self
  = Some (map (fun s => FeatureStandardization.standardize standardization s 0)
            (firstn k srcs) ++ skipn k srcs) ->
  standardize_pass standardization (seq k m) self
  = Returned (set_source self
      (map (fun s => FeatureStandardization.standardize standardization s 0)
         (firstn (k + m) srcs) ++ skipn (k + m) srcs)).
Proof.
  induction m as [|m IH]; intros k self srcs Hbound Hsrc; simpl.
  - rewrite Nat.add_0_r. f_equal. symmetry. now apply set_source_same.
  - rewrite Hsrc. simpl.
    destruct (@list_get_nth_error _ srcs k) as (x & Hnth & _); [lia|].
    set (f := fun s => FeatureStandardization.standardize standardization s 0) in *.
    assert (Hk : length (map f (firstn k srcs)) = k).
    { rewrite length_map, length_firstn. lia. }
    assert (Hget : list_get (map f (firstn k srcs) ++ skipn k srcs) k = Returned x).
    { unfold list_get. rewrite nth_error_app2 by lia. rewrite Hk, Nat.sub_diag.
      rewrite (skipn_nth_error _ _ Hnth). reflexivity. }
    rewrite Hget. simpl.
    rewrite (IH (S k) _ srcs); try lia.
    + simpl. now rewrite Nat.add_succ_r.
    + cbn [source set_source]. f_equal. rewrite (skipn_nth_error _ _ Hnth).
      pose proof (list_set_middle (map f (firstn k srcs)) x (skipn (S k) srcs) (f x))
        as Hset.
      rewrite Hk in Hset.
      change (FeatureStandardization.standardize standardization x k) with (f x).
      rewrite Hset, (firstn_nth_error _ _ Hnth), map_app, <- app_assoc. reflexivity.
Qed.

Lemma standardized_sources_length standardization raw :
  length (standardized_sources standardization raw) = length raw.
Proof. destruct standardization; simpl; [apply length_map|reflexivity]. Qed.

Lemma standardize_pass_all standardization self raw n :
  source self = Some raw -> length raw = n ->
  standardize_pass standardization (seq 0 n) self
  = Returned (set_source self (standardized_sources (Some standardization) raw)).
Proof.
  intros Hsrc Hlen.
  rewrite (@standardize_pass_spec standardization n 0 self raw); [|lia|exact Hsrc].
  simpl. rewrite <- Hlen, firstn_all, skipn_all, app_nil_r. reflexivity.
Qed.

Lemma variance_pass_all self srcs n :
  variance self = Some [] -> source self = Some srcs -> length srcs = n ->
  FeatureVariance.use_variance (feature_variance self) = true ->
  variance_pass (seq 0 n) self
  = Returned (set_variance self (map (variance_of (feature_variance self)) srcs)).
Proof.
  intros Hvar Hsrc Hlen Huse.
  rewrite (@variance_pass_spec n 0 self [] srcs);
    try assumption; try reflexivity; [|lia].
  simpl. rewrite <- Hlen, firstn_all. reflexivity.
Qed.

(** The first call, from the sources-loaded state. *)
Lemma standardize_loaded self raw :
  source self = Some raw -> variance self = Some [] ->
  length raw = number_of_sources self ->
  (preserve_source self = true -> 0 < number_of_sources self) ->
  standardize self = Returned (standardized_from self raw).
Proof.
  intros Hsrc Hvar Hlen Hfirst.
  destruct self as [n preserve target fs fv channels nm src var pres pred].
  cbn in Hsrc, Hvar, Hlen, Hfirst. subst src var.
  unfold standardize, standardized_from.
  cbn [feature_variance number_of_sources preserve_source feature_standardization].
  destruct (FeatureVariance.use_variance fv) eqn:Huse;
    destruct (FeatureVariance.compute_before_standardization fv) eqn:Hbefore;
    destruct preserve; destruct fs as [st|];
    try (destruct raw as [|first rest];
         [specialize (Hfirst eq_refl); simpl in Hlen; lia|]);
    cbn [andb negb bind attribute list_get nth_error source set_preserved_source
         standardized_sources];
    repeat first
      [ erewrite variance_pass_all;
        [|reflexivity|reflexivity|rewrite ?length_map; exact Hlen|exact Huse]
      | erewrite standardize_pass_all; [|reflexivity|exact Hlen]
      | progress cbn [bind attribute list_get nth_error
                      set_source set_variance set_preserved_source
                      feature_variance number_of_sources preserve_source is_target
                      feature_standardization number_of_channels name source variance
                      preserved_source prediction standardized_sources] ];
    reflexivity.
Qed.

Lemma variance_pass_assert_all self vs n :
  variance self = Some vs -> 0 < length vs -> 0 < n ->
  variance_pass (seq 0 n) self = Raised AssertionError.
Proof.
  intros Hvar Hvs Hn. destruct n as [|n]; [lia|]. cbn [seq].
  apply variance_pass_assert with (vs := vs); [exact Hvar|lia].
Qed.

(** A further call, on an object whose variance list is already full. *)
Lemma standardize_again self vs srcs :
  variance self = Some vs -> source self = Some srcs ->
  length vs = number_of_sources self -> length srcs = number_of_sources self ->
  0 < number_of_sources self ->
  FeatureVariance.use_variance (feature_variance self) = true ->
  standardize self = Raised AssertionError.
Proof.
  intros Hvar Hsrc Hvs Hlen Hpos Huse.
  destruct self as [n preserve target fs fv channels nm src var pres pred].
  cbn in Hvar, Hsrc, Hvs, Hlen, Hpos, Huse. subst src var.
  unfold standardize.
  cbn [feature_variance number_of_sources preserve_source feature_standardization].
  rewrite Huse.
  destruct (FeatureVariance.compute_before_standardization fv);
    destruct preserve; destruct fs as [st|];
    try (destruct srcs as [|first rest]; [simpl in Hlen; lia|]);
    cbn [andb negb bind attribute list_get nth_error source set_preserved_source];
    repeat first
      [ erewrite variance_pass_assert_all; [|reflexivity|lia|exact Hpos]
      | erewrite standardize_pass_all; [|reflexivity|exact Hlen]
      | progress cbn [bind attribute list_get nth_error
                      set_source set_variance set_preserved_source
                      feature_variance number_of_sources preserve_source is_target
                      feature_standardization number_of_channels name source variance
                      preserved_source prediction] ];
    reflexivity.
Qed.

(** C8, as amended: for a feature with variance enabled and at least one
    source, one call of standardize from the sources-loaded state returns;
    the variance list then has exactly number_of_sources entries, which are
    the variances of the raw sources when compute_before_standardization is
    set and of the standardized sources otherwise (one pass only); and a
    second call on the object so obtained stops on the assertion instead of
    returning. *)
Theorem standardize_variance_length (self loaded : t) (dictionary : dict tensor) :
  FeatureVariance.use_variance (feature_variance self) = true ->
  0 < number_of_sources self ->
  initialize_sources_from_dictionary self dictionary = Returned loaded ->
  exists standardized raw vs,
    source loaded = Some raw /\ variance loaded = Some [] /\
    standardize loaded = Returned standardized /\
    source standardized
    = Some (standardized_sources (feature_standardization self) raw) /\
    variance standardized = Some vs /\
    length vs = number_of_sources self /\
    vs = map (variance_of (feature_variance self))
           (if FeatureVariance.compute_before_standardization (feature_variance self)
            then raw
            else standardized_sources (feature_standardization self) raw) /\
    standardize standardized = Raised AssertionError.
Proof.
  intros Huse Hpos Hload. unfold initialize_sources_from_dictionary in Hload.
  apply load_sources_spec with (acc := []) in Hload; [|reflexivity].
  destruct Hload as (raw & Hlen & ->). rewrite length_seq in Hlen.
  cbn [number_of_sources set_source set_variance] in Hlen.
  set (loaded := set_source _ _).
  assert (Hfirst : standardize loaded = Returned (standardized_from loaded raw)).
  { apply standardize_loaded; try reflexivity; [exact Hlen|intros _; exact Hpos]. }
  exists (standardized_from loaded raw), raw,
    (map (variance_of (feature_variance self))
       (if FeatureVariance.compute_before_standardization (feature_variance self)
        then raw
        else standardized_sources (feature_standardization self) raw)).
  assert (Hfields :
    source (standardized_from loaded raw)
    = Some (standardized_sources (feature_standardization self) raw) /\
    variance (standardized_from loaded raw)
    = Some (map (variance_of (feature_variance self))
         (if FeatureVariance.compute_before_standardization (feature_variance self)
          then raw
          else standardized_sources (feature_standardization self) raw))).
  { unfold standardized_from, loaded.
    cbn [feature_variance feature_standardization preserve_source set_source set_variance].
    rewrite Huse. destruct (preserve_source self), raw; split; reflexivity. }
  destruct Hfields as [Hs Hv].
  assert (Hvs : length (map (variance_of (feature_variance self))
         (if FeatureVariance.compute_before_standardization (feature_variance self)
          then raw
          else standardized_sources (feature_standardization self) raw))
       = number_of_sources self).
  { rewrite length_map.
    destruct (FeatureVariance.compute_before_standardization (feature_variance self));
      rewrite ?standardized_sources_length; exact Hlen. }
  repeat split; try assumption; try reflexivity.
  eapply standardize_again; [exact Hv|exact Hs| | | |].
  - rewrite Hvs. unfold standardized_from, loaded.
    cbn [feature_variance preserve_source set_source set_variance].
    rewrite Huse. destruct (preserve_source self), raw; reflexivity.
  - rewrite standardized_sources_length, Hlen. unfold standardized_from, loaded.
    cbn [feature_variance preserve_source set_source set_variance].
    rewrite Huse. destruct (preserve_source self), raw; reflexivity.
  - unfold standardized_from, loaded.
    cbn [feature_variance preserve_source set_source set_variance].
    rewrite Huse. destruct (preserve_source self), raw; exact Hpos.
  - unfold standardized_from, loaded.
    cbn [feature_variance preserve_source set_source set_variance].
    rewrite Huse. destruct (preserve_source self), raw; exact Huse.
Qed.

(** *** Further properties of the methods *)

(** The lookups of [initialize_sources_from_dictionary], key by key. *)
Fixpoint lookup_all (dictionary : dict tensor) (keys : list string)
  : outcome (list tensor) :=
  match keys with
  | [] => Returned []
  | key :: rest =>
      found <- dict_get dictionary key ;;
      others <- lookup_all dictionary rest ;;
      Returned (found :: others)
  end.

Lemma load_sources_lookup_all indices dictionary : forall self acc,
  source self = Some acc ->
  load_sources indices dictionary self
  = (found <- lookup_all dictionary
                (map (source_feature_name_indexed (name self)) indices) ;;
     Returned (set_source self (acc ++ found))).
Proof.
  induction indices as [|index rest IH]; intros self acc Hsrc;
    cbn [load_sources map lookup_all bind].
  - rewrite app_nil_r. f_equal. symmetry. now apply set_source_same.
  - destruct (dict_get dictionary (source_feature_name_indexed (name self) index))
      as [x|e]; cbn [bind]; [|reflexivity].
    rewrite Hsrc. cbn [attribute bind].
    rewrite (IH _ (acc ++ [x])) by reflexivity. cbn [name set_source].
    destruct (lookup_all dictionary _) as [found|e]; cbn [bind]; [|reflexivity].
    now rewrite <- app_assoc.
Qed.

Lemma lookup_all_found dictionary (key_of : nat -> string) indices raw :
  Forall2 (fun index s => dict_find dictionary (key_of index) = Some s) indices raw ->
  lookup_all dictionary (map key_of indices) = Returned raw.
Proof.
  induction 1 as [|index s indices raw Hfound _ IH]; cbn [map lookup_all]; [reflexivity|].
  unfold dict_get. rewrite Hfound. cbn [bind]. now rewrite IH.
Qed.

Lemma lookup_all_missing dictionary before : forall key after,
  Forall (fun k => dict_find dictionary k <> None) before ->
  dict_find dictionary key = None ->
  lookup_all dictionary (before ++ key :: after) = Raised (KeyError key).
Proof.
  induction before as [|k before IH]; intros key after Hbefore Hmissing;
    cbn [app lookup_all].
  - unfold dict_get. now rewrite Hmissing.
  - inversion Hbefore as [|? ? Hk Hrest]; subst.
    unfold dict_get at 1. destruct (dict_find dictionary k) as [x|]; [|now elim Hk].
    cbn [bind]. now rewrite IH.
Qed.

(** X1: initialize_sources_from_dictionary returns exactly when the
    dictionary has an entry under the indexed name of every source index 0
    .. number_of_sources - 1: the sources are then those entries in index
    order and the variance list is empty; otherwise it raises the KeyError
    of the first index whose name is missing. *)
Theorem initialize_sources_lookup (self : t) (dictionary : dict tensor) :
  (forall raw,
     Forall2 (fun index s =>
                dict_find dictionary (source_feature_name_indexed (name self) index)
                = Some s)
       (seq 0 (number_of_sources self)) raw ->
     initialize_sources_from_dictionary self dictionary
     = Returned (set_source (set_variance (set_source self []) []) raw)) /\
  (forall index,
     index < number_of_sources self ->
     (forall earlier, earlier < index ->
        dict_find dictionary (source_feature_name_indexed (name self) earlier) <> None) ->
     dict_find dictionary (source_feature_name_indexed (name self) index) = None ->
     initialize_sources_from_dictionary self dictionary
     = Raised (KeyError (source_feature_name_indexed (name self) index))).
Proof.
  unfold initialize_sources_from_dictionary.
  cbn [number_of_sources set_source set_variance].
  split.
  - intros raw Hraw.
    rewrite (@load_sources_lookup_all _ dictionary _ []) by reflexivity.
    cbn [name set_source set_variance].
    rewrite (lookup_all_found _ _ Hraw). reflexivity.
  - intros index Hindex Hearlier Hmissing.
    rewrite (@load_sources_lookup_all _ dictionary _ []) by reflexivity.
    cbn [name set_source set_variance].
    replace (number_of_sources self)
      with (index + S (number_of_sources self - S index)) by lia.
    rewrite seq_app, map_app. cbn [seq map Nat.add].
    rewrite lookup_all_missing; [reflexivity| |exact Hmissing].
    apply Forall_forall. intros k Hk. apply in_map_iff in Hk.
    destruct Hk as (earlier & <- & Hin). apply in_seq in Hin. apply Hearlier. lia.
Qed.

(** X2: from the sources-loaded state of a feature that preserves its
    source, standardize keeps the first source as it was before
    standardization in preserved_source, while the sources themselves are
    standardized; without any source the snapshot of source 0 raises
    IndexError. *)
Theorem standardize_preserves_raw_source (self : t) (raw : list tensor) :
  source self = Some raw -> variance self = Some [] ->
  length raw = number_of_sources self ->
  preserve_source self = true ->
  match raw with
  | [] => standardize self = Raised IndexError
  | first :: _ =>
      exists standardized,
        standardize self = Returned standardized /\
        preserved_source standardized = Some first /\
        source standardized
        = Some (standardized_sources (feature_standardization self) raw)
  end.
Proof.
  intros Hsrc Hvar Hlen Hpreserve. destruct raw as [|first rest].
  - destruct self as [n preserve target fs fv channels nm src var pres pred].
    cbn in Hsrc, Hvar, Hlen, Hpreserve. subst. unfold standardize.
    cbn [feature_variance number_of_sources preserve_source feature_standardization seq].
    destruct (FeatureVariance.use_variance fv
              && FeatureVariance.compute_before_standardization fv); reflexivity.
  - exists (standardized_from self (first :: rest)). split.
    + apply standardize_loaded; try assumption. intros _. rewrite <- Hlen. simpl. lia.
    + unfold standardized_from. rewrite Hpreserve.
      destruct (FeatureVariance.use_variance (feature_variance self)); split; reflexivity.
Qed.

Lemma standardized_from_without_variance self raw :
  FeatureVariance.use_variance (feature_variance self) = false ->
  source (standardized_from self raw)
  = Some (standardized_sources (feature_standardization self) raw) /\
  variance (standardized_from self raw) = variance self /\
  number_of_sources (standardized_from self raw) = number_of_sources self /\
  preserve_source (standardized_from self raw) = preserve_source self /\
  feature_standardization (standardized_from self raw) = feature_standardization self /\
  feature_variance (standardized_from self raw) = feature_variance self.
Proof.
  intros Huse. unfold standardized_from. rewrite Huse.
  destruct (preserve_source self) eqn:Hpreserve, raw; cbn; repeat split;
    try reflexivity; try assumption; now symmetry.
Qed.

(** X3: with variance disabled nothing guards a second call: from the
    sources-loaded state standardize returns with the variance list still
    empty and the sources standardized, and a second call returns as well,
    with the sources standardized a second time. *)
Theorem standardize_without_variance_repeats (self : t) (raw : list tensor) :
  source self = Some raw -> variance self = Some [] ->
  length raw = number_of_sources self ->
  FeatureVariance.use_variance (feature_variance self) = false ->
  (preserve_source self = true -> 0 < number_of_sources self) ->
  exists once twice,
    standardize self = Returned once /\
    variance once = Some [] /\
    source once = Some (standardized_sources (feature_standardization self) raw) /\
    standardize once = Returned twice /\
    variance twice = Some [] /\
    source twice
    = Some (standardized_sources (feature_standardization self)
              (standardized_sources (feature_standardization self) raw)).
Proof.
  intros Hsrc Hvar Hlen Huse Hfirst.
  destruct (standardized_from_without_variance self raw Huse)
    as (Hs & Hv & Hn & Hp & Hfs & Hfv).
  assert (Huse' : FeatureVariance.use_variance
                    (feature_variance (standardized_from self raw)) = false)
    by now rewrite Hfv.
  destruct (standardized_from_without_variance (standardized_from self raw)
              (standardized_sources (feature_standardization self) raw) Huse')
    as (Hs' & Hv' & _).
  exists (standardized_from self raw),
    (standardized_from (standardized_from self raw)
       (standardized_sources (feature_standardization self) raw)).
  split; [now apply standardize_loaded|].
  split; [now rewrite Hv|]. split; [exact Hs|]. split.
  - apply standardize_loaded.
    + exact Hs.
    + now rewrite Hv.
    + now rewrite standardized_sources_length, Hn.
    + rewrite Hp, Hn. exact Hfirst.
  - split; [now rewrite Hv', Hv|]. now rewrite Hs', Hfs.
Qed.

End Methods.

(** C8, as amended, on a feature with two sources, loaded from a
    dictionary. *)
Lemma standardize_variance_length_witness :
  exists standardized raw vs,
    source (set_source (set_variance (set_source two_sources []) [])
              [[[Finite 1%R]]; [[Finite 2%R]]]) = Some raw /\
    variance (set_source (set_variance (set_source two_sources []) [])
              [[[Finite 1%R]]; [[Finite 2%R]]]) = Some [] /\
    standardize sample_variance
      (set_source (set_variance (set_source two_sources []) [])
         [[[Finite 1%R]]; [[Finite 2%R]]]) = Returned standardized /\
    source standardized
    = Some (standardized_sources (feature_standardization two_sources) raw) /\
    variance standardized = Some vs /\
    length vs = number_of_sources two_sources /\
    vs = map (variance_of sample_variance (feature_variance two_sources))
           (if FeatureVariance.compute_before_standardization
                 (feature_variance two_sources)
            then raw
            else standardized_sources (feature_standardization two_sources) raw) /\
    standardize sample_variance standardized = Raised AssertionError.
Proof.
  apply (@standardize_variance_length sample_variance sample_name_indexed
           two_sources _ two_sources_dictionary).
  - reflexivity.
  - simpl. lia.
  - reflexivity.
Defined.

(** C8 as stated fails for a feature without sources: both passes are empty
    loops, no assertion is ever reached, and the second call returns as the
    first one did. *)
Lemma standardize_twice_no_sources :
  FeatureVariance.use_variance (feature_variance no_sources) = true /\
  initialize_sources_from_dictionary sample_name_indexed no_sources []
  = Returned no_sources_loaded /\
  (once <- standardize sample_variance no_sources_loaded ;;
   standardize sample_variance once)
  = Returned no_sources_loaded.
Proof. repeat split. Qed.

(** *** Sample objects in their loaded state *)

Definition two_sources_loaded : t :=
  set_source (set_variance (set_source two_sources []) [])
    [[[Finite 1%R]]; [[Finite 2%R]]].

(** A feature without variance, loaded with one source. *)
Definition no_variance_loaded : t :=
  {| number_of_sources := 1;
     preserve_source := false;
     is_target := false;
     feature_standardization := Some FeatureStandardization.all_steps;
     feature_variance :=
       {| FeatureVariance.use_variance := false;
          FeatureVariance.relative_variance := false;
          FeatureVariance.compute_before_standardization := false;
          FeatureVariance.compress_to_one_channel := false;
          FeatureVariance.name := "Depth" |};
     number_of_channels := 1;
     name := "Depth";
     source := Some [[[Finite 3%R]]];
     variance := Some [];
     preserved_source := None;
     prediction := None |}.

(** X1 on the feature with two sources: both names found, and Normal1
    missing. *)
Lemma initialize_sources_lookup_witness :
  initialize_sources_from_dictionary sample_name_indexed two_sources
    two_sources_dictionary
  = Returned two_sources_loaded /\
  initialize_sources_from_dictionary sample_name_indexed two_sources
    [("Normal0", [[Finite 1%R]])]
  = Raised (KeyError "Normal1").
Proof.
  split.
  - apply (proj1 (@initialize_sources_lookup sample_name_indexed two_sources
                    two_sources_dictionary)).
    repeat constructor.
  - apply (proj2 (@initialize_sources_lookup sample_name_indexed two_sources
                    [("Normal0", [[Finite 1%R]])]) 1).
    + simpl. lia.
    + intros earlier Hearlier. assert (earlier = 0) by lia. subst. discriminate.
    + reflexivity.
Defined.

(** X2 on the feature with two sources. *)
Lemma standardize_preserves_raw_source_witness :
  exists standardized,
    standardize sample_variance two_sources_loaded = Returned standardized /\
    preserved_source standardized = Some [[Finite 1%R]] /\
    source standardized
    = Some (standardized_sources (feature_standardization two_sources_loaded)
              [[[Finite 1%R]]; [[Finite 2%R]]]).
Proof.
  exact (@standardize_preserves_raw_source sample_variance two_sources_loaded
           [[[Finite 1%R]]; [[Finite 2%R]]] eq_refl eq_refl eq_refl eq_refl).
Defined.

(** X3 on the feature without variance. *)
Lemma standardize_without_variance_repeats_witness :
  exists once twice,
    standardize sample_variance no_variance_loaded = Returned once /\
    variance once = Some [] /\
    source once
    = Some (standardized_sources (feature_standardization no_variance_loaded)
              [[[Finite 3%R]]]) /\
    standardize sample_variance once = Returned twice /\
    variance twice = Some [] /\
    source twice
    = Some (standardized_sources (feature_standardization no_variance_loaded)
              (standardized_sources (feature_standardization no_variance_loaded)
                 [[[Finite 3%R]]])).
Proof.
  apply (@standardize_without_variance_repeats sample_variance no_variance_loaded
           [[[Finite 3%R]]]); try reflexivity.
  discriminate.
Defined.

End PredictionFeature.

(** ** Model assembly: the combined-features architecture *)

Module Model.

Import Tensor.
Import PredictionFeature.
Local Open Scope outcome_scope.

(** [tf.split value size_splits] along the channel axis: the sizes have to
    add up to the number of channels. *)
Fixpoint split_channels (value : tensor) (size_splits : list nat) : list tensor :=
  match size_splits with
  | [] => []
  | size :: rest => firstn size value :: split_channels (skipn size value) rest
  end.

Definition tf_split (value : tensor) (size_splits : list nat) : outcome (list tensor) :=
  if length value =? list_sum size_splits
  then Returned (split_channels value size_splits)
  else Raised ValueError.

(** [output_prediction_features] as [model] collects it. *)
Definition output_prediction_features (prediction_features : list t) : list t :=
  filter is_target prediction_features.

(** The loop that adds up [output_size]. *)
Definition output_size (output_prediction_features : list t)
    (use_kernel_predicion : bool) (kernel_size : nat) : nat :=
  fold_left
    (fun output_size prediction_feature =>
       if use_kernel_predicion
       then output_size + kernel_size ^ 2
       else output_size + number_of_channels prediction_feature)
    output_prediction_features 0.

(** The loop that appends to [size_splits]. *)
Definition size_splits (output_prediction_features : list t)
    (use_kernel_predicion : bool) (kernel_size : nat) : list nat :=
  fold_left
    (fun size_splits prediction_feature =>
       if use_kernel_predicion
       then size_splits ++ [kernel_size ^ 2]
       else size_splits ++ [number_of_channels prediction_feature])
    output_prediction_features [].

(** [for index, prediction in enumerate(prediction_tuple)], from [index]. *)
Fixpoint add_predictions (index : nat) (prediction_tuple : list tensor)
    (output_prediction_features : list t) : outcome (list t) :=
  match prediction_tuple with
  | [] => Returned output_prediction_features
  | prediction :: rest =>
      prediction_feature <- list_get output_prediction_features index ;;
      prediction_feature <- add_prediction prediction_feature prediction ;;
      add_predictions (S index) rest
        (list_set output_prediction_features index prediction_feature)
  end.

(** A loop that calls one method on every feature of a list. *)
Fixpoint for_each (method : t -> outcome t) (features : list t) : outcome (list t) :=
  match features with
  | [] => Returned []
  | feature :: rest =>
      feature <- method feature ;;
      rest <- for_each method rest ;;
      Returned (feature :: rest)
  end.

(** *** Sample objects *)

(** A stand-in for the backbone: as many channels as it is asked for. *)
Definition sample_network (inputs : tensor) (output_size : nat) (is_training : bool)
  : tensor :=
  repeat [Finite 0%R] output_size.

Definition sample_feature (name : string) (channels : nat) (target : bool) : t :=
  {| number_of_sources := 1;
     preserve_source := false;
     is_target := target;
     feature_standardization := None;
     feature_variance := sample_feature_variance;
     number_of_channels := channels;
     name := name;
     source := None;
     variance := None;
     preserved_source := None;
     prediction := None |}.

(** Two target features of three and of one channel around a feature that
    is no target. *)
Definition sample_features : list t :=
  [sample_feature "Color" 3 true; sample_feature "Normal" 2 false;
   sample_feature "Depth" 1 true].

Section CombinedFeatures.

(** [neural_network_model inputs output_size is_training]: the backbone,
    built with [number_of_output_filters = output_size]. *)
Variable neural_network_model : tensor -> nat -> bool -> tensor.

Hypothesis neural_network_model_filters : forall inputs output_size is_training,
  length (neural_network_model inputs output_size is_training) = output_size.

(** [KernelPrediction.kernel_prediction preserved_source prediction
    kernel_size] *)
Variable kernel_prediction : tensor -> tensor -> nat -> tensor.

Definition apply_kernel_prediction (kernel_size : nat) (prediction_feature : t)
  : outcome t :=
  if negb (preserve_source prediction_feature) then Raised AssertionError else
  preserved <- attribute "preserved_source" (preserved_source prediction_feature) ;;
  predicted <- attribute "prediction" (prediction prediction_feature) ;;
  add_prediction prediction_feature (kernel_prediction preserved predicted kernel_size).

(** [combined_features_model] from the concatenated network input
    [outputs] on: the backbone, the split of its output, and what is done
    to each prediction.  The channel axis is the outer list of a tensor in
    either data format, so the two transpositions leave no trace here. *)
Definition combined_features_model (outputs : tensor)
    (output_prediction_features : list t) (is_training : bool)
    (use_kernel_predicion : bool) (kernel_size : nat) : outcome (list t) :=
  let output_size :=
    output_size output_prediction_features use_kernel_predicion kernel_size in
  let outputs := neural_network_model outputs output_size is_training in
  let size_splits :=
    size_splits output_prediction_features use_kernel_predicion kernel_size in
  prediction_tuple <- tf_split outputs size_splits ;;
  output_prediction_features <-
    add_predictions 0 prediction_tuple output_prediction_features ;;
  let invert_standardize := negb use_kernel_predicion in
  output_prediction_features <-
    (if invert_standardize
     then for_each prediction_invert_standardize output_prediction_features
     else Returned output_prediction_features) ;;
  if use_kernel_predicion
  then for_each (apply_kernel_prediction kernel_size) output_prediction_features
  else Returned output_prediction_features.

(** The width of the slice of one target feature. *)
Definition slice_width (use_kernel_predicion : bool) (kernel_size : nat)
    (prediction_feature : t) : nat :=
  if use_kernel_predicion then kernel_size ^ 2
  else number_of_channels prediction_feature.

Lemma output_size_sum features use_kernel_predicion kernel_size :
  output_size features use_kernel_predicion kernel_size
  = list_sum (map (slice_width use_kernel_predicion kernel_size) features).
Proof.
  unfold output_size.
  assert (H : forall acc,
    fold_left
      (fun output_size prediction_feature =>
         if use_kernel_predicion
         then output_size + kernel_size ^ 2
         else output_size + number_of_channels prediction_feature) features acc
    = acc + list_sum (map (slice_width use_kernel_predicion kernel_size) features)).
  { induction features as [|f features IH]; intros acc;
      cbn [fold_left map list_sum fold_right]; [lia|].
    rewrite IH. unfold slice_width, list_sum. destruct use_kernel_predicion; lia. }
  apply H.
Qed.

Lemma size_splits_map features use_kernel_predicion kernel_size :
  size_splits features use_kernel_predicion kernel_size
  = map (slice_width use_kernel_predicion kernel_size) features.
Proof.
  unfold size_splits.
  assert (H : forall acc,
    fold_left
      (fun size_splits prediction_feature =>
         if use_kernel_predicion
         then size_splits ++ [kernel_size ^ 2]
         else size_splits ++ [number_of_channels prediction_feature]) features acc
    = acc ++ map (slice_width use_kernel_predicion kernel_size) features).
  { induction features as [|f features IH]; intros acc; cbn [fold_left map].
    - now rewrite app_nil_r.
    - rewrite IH. unfold slice_width.
      destruct use_kernel_predicion; now rewrite <- app_assoc. }
  apply H.
Qed.

Lemma split_channels_spec sizes : forall value,
  length value = list_sum sizes ->
  map (@length _) (split_channels value sizes) = sizes /\
  concat (split_channels value sizes) = value.
Proof.
  induction sizes as [|size sizes IH]; intros value Hlen; simpl in *.
  - destruct value; [split; reflexivity|discriminate].
  - destruct (IH (skipn size value)) as [Hw Hc].
    { rewrite length_skipn. lia. }
    rewrite Hw, Hc, length_firstn, firstn_skipn. split; [f_equal; lia|reflexivity].
Qed.

Lemma add_predictions_spec prediction_tuple : forall done todo,
  length todo = length prediction_tuple ->
  Forall (fun f => is_target f = true) todo ->
  add_predictions (length done) prediction_tuple (done ++ todo)
  = Returned (done ++ map (fun fp => set_prediction (fst fp) (snd fp))
                        (combine todo prediction_tuple)).
Proof.
  induction prediction_tuple as [|p rest IH]; intros done todo Hlen Htarget; simpl.
  - destruct todo; [reflexivity|discriminate].
  - destruct todo as [|f todo]; [discriminate|].
    unfold list_get. rewrite nth_error_app2, Nat.sub_diag by lia. simpl.
    unfold add_prediction. inversion Htarget as [|? ? Hf Htodo]; subst.
    rewrite Hf. simpl. rewrite list_set_middle.
    replace (S (length done)) with (length (done ++ [set_prediction f p]))
      by (rewrite length_app; simpl; lia).
    replace (done ++ set_prediction f p :: todo)
      with ((done ++ [set_prediction f p]) ++ todo) by now rewrite <- app_assoc.
    rewrite IH; [|simpl in Hlen; lia|exact Htodo].
    now rewrite <- app_assoc.
Qed.

(** C2: the backbone is asked for, and so returns, as many channels as the
    slice widths of the target features add up to, a slice being
    kernel_size squared channels wide under kernel prediction and as wide
    as the feature has channels otherwise; the split of that output returns
    one slice per target feature, of exactly that width, the slices put
    back together are the output, and the slice at each position is added
    as the prediction of the target feature at that position of the
    declared order. *)
Theorem combined_split_round_trip (prediction_features : list t) (inputs : tensor)
    (is_training use_kernel_predicion : bool) (kernel_size : nat) :
  exists prediction_tuple,
    length (neural_network_model inputs
              (output_size (output_prediction_features prediction_features)
                 use_kernel_predicion kernel_size) is_training)
    = list_sum (map (slice_width use_kernel_predicion kernel_size)
                  (output_prediction_features prediction_features)) /\
    tf_split
      (neural_network_model inputs
         (output_size (output_prediction_features prediction_features)
            use_kernel_predicion kernel_size) is_training)
      (size_splits (output_prediction_features prediction_features)
         use_kernel_predicion kernel_size)
    = Returned prediction_tuple /\
    length prediction_tuple
    = length (output_prediction_features prediction_features) /\
    map (@length _) prediction_tuple
    = map (slice_width use_kernel_predicion kernel_size)
        (output_prediction_features prediction_features) /\
    concat prediction_tuple
    = neural_network_model inputs
        (output_size (output_prediction_features prediction_features)
           use_kernel_predicion kernel_size) is_training /\
    add_predictions 0 prediction_tuple (output_prediction_features prediction_features)
    = Returned (map (fun fp => set_prediction (fst fp) (snd fp))
                  (combine (output_prediction_features prediction_features)
                     prediction_tuple)).
Proof.
  set (features := output_prediction_features prediction_features).
  set (outputs := neural_network_model inputs _ is_training).
  assert (Hwidth : length outputs
                   = list_sum (map (slice_width use_kernel_predicion kernel_size) features)).
  { unfold outputs. now rewrite neural_network_model_filters, output_size_sum. }
  destruct (@split_channels_spec
              (map (slice_width use_kernel_predicion kernel_size) features) outputs Hwidth)
    as [Hw Hc].
  exists (split_channels outputs
            (map (slice_width use_kernel_predicion kernel_size) features)).
  assert (Hcount : length (split_channels outputs
            (map (slice_width use_kernel_predicion kernel_size) features))
          = length features).
  { apply (f_equal (@length _)) in Hw. now rewrite !length_map in Hw. }
  repeat split; try assumption.
  - unfold tf_split. rewrite size_splits_map, Hwidth, Nat.eqb_refl. reflexivity.
  - apply (@add_predictions_spec _ [] features).
    + now rewrite Hcount.
    + unfold features, output_prediction_features. apply Forall_forall.
      intros f Hf. now apply filter_In in Hf.
Qed.

(** *** The predictions that combined_features_model leaves *)

(** The prediction of a target feature whose slice of the output of the
    backbone is [slice]: the kernel applied to the preserved source under
    kernel prediction, and the slice with its standardization inverted
    otherwise. *)
Definition final_prediction (use_kernel_predicion : bool) (kernel_size : nat)
    (prediction_feature : t) (slice : tensor) : tensor :=
  if use_kernel_predicion
  then match preserved_source prediction_feature with
       | Some preserved => kernel_prediction preserved slice kernel_size
       | None => slice
       end
  else match feature_standardization prediction_feature with
       | Some standardization =>
           FeatureStandardization.invert_standardize standardization slice
       | None => slice
       end.

(** The slices of the output of the backbone, one per target feature. *)
Definition slices (outputs : tensor) (output_prediction_features : list t)
    (is_training use_kernel_predicion : bool) (kernel_size : nat) : list tensor :=
  split_channels
    (neural_network_model outputs
       (output_size output_prediction_features use_kernel_predicion kernel_size)
       is_training)
    (map (slice_width use_kernel_predicion kernel_size) output_prediction_features).

(** A feature that [standardize] has left ready for kernel prediction. *)
Definition preserved (prediction_feature : t) : Prop :=
  preserve_source prediction_feature = true /\
  preserved_source prediction_feature <> None.

Lemma for_each_map (method : t -> outcome t) (result : t -> t) features :
  Forall (fun f => method f = Returned (result f)) features ->
  for_each method features = Returned (map result features).
Proof.
  induction 1 as [|f features Hf _ IH]; cbn [for_each map]; [reflexivity|].
  now rewrite Hf, IH.
Qed.

Lemma for_each_raises (method : t -> outcome t) e before f after :
  Forall (fun f => returns (method f)) before ->
  method f = Raised e ->
  for_each method (before ++ f :: after) = Raised e.
Proof.
  intros Hbefore Hf. induction Hbefore as [|b before [b' Hb] _ IH]; cbn [app for_each].
  - now rewrite Hf.
  - now rewrite Hb, IH.
Qed.

Lemma combine_middle {A B : Type} (before : list A) (a : A) (after : list A) :
  forall l : list B,
  length l = length (before ++ a :: after) ->
  exists l1 b l2,
    length l1 = length before /\
    combine (before ++ a :: after) l = combine before l1 ++ (a, b) :: combine after l2.
Proof.
  induction before as [|x before IH]; intros l Hlen; cbn [app] in *.
  - destruct l as [|b l]; [discriminate|]. now exists [], b, l.
  - destruct l as [|y l]; [discriminate|]. cbn [length] in Hlen.
    destruct (IH l) as (l1 & b & l2 & Hl1 & Hc); [lia|].
    exists (y :: l1), b, l2. cbn [length combine app]. now rewrite Hl1, Hc.
Qed.

Lemma slices_split outputs features is_training use_kernel_predicion kernel_size :
  tf_split
    (neural_network_model outputs
       (output_size features use_kernel_predicion kernel_size) is_training)
    (size_splits features use_kernel_predicion kernel_size)
  = Returned (slices outputs features is_training use_kernel_predicion kernel_size) /\
  length (slices outputs features is_training use_kernel_predicion kernel_size)
  = length features.
Proof.
  assert (Hwidth : length (neural_network_model outputs
                     (output_size features use_kernel_predicion kernel_size)
                     is_training)
                   = list_sum (map (slice_width use_kernel_predicion kernel_size)
                                 features))
    by now rewrite neural_network_model_filters, output_size_sum.
  destruct (@split_channels_spec _ _ Hwidth) as [Hw _]. split.
  - unfold tf_split, slices. now rewrite size_splits_map, Hwidth, Nat.eqb_refl.
  - unfold slices. apply (f_equal (@length _)) in Hw. now rewrite !length_map in Hw.
Qed.

(** [combined_features_model] once the slices are added as predictions. *)
Lemma combined_features_model_added (features : list t) (outputs : tensor)
    (is_training use_kernel_predicion : bool) (kernel_size : nat) :
  Forall (fun f => is_target f = true) features ->
  combined_features_model outputs features is_training use_kernel_predicion kernel_size
  = (output_prediction_features <-
       (if negb use_kernel_predicion
        then for_each prediction_invert_standardize
               (map (fun fs => set_prediction (fst fs) (snd fs))
                  (combine features
                     (slices outputs features is_training use_kernel_predicion
                        kernel_size)))
        else Returned
               (map (fun fs => set_prediction (fst fs) (snd fs))
                  (combine features
                     (slices outputs features is_training use_kernel_predicion
                        kernel_size)))) ;;
     if use_kernel_predicion
     then for_each (apply_kernel_prediction kernel_size) output_prediction_features
     else Returned output_prediction_features).
Proof.
  intros Htarget.
  destruct (slices_split outputs features is_training use_kernel_predicion kernel_size)
    as [Hsplit Hcount].
  unfold combined_features_model. rewrite Hsplit. cbn [bind].
  rewrite (@add_predictions_spec _ [] features); [reflexivity|now rewrite Hcount|].
  exact Htarget.
Qed.

(** What it returns on features that are ready for it. *)
Lemma combined_features_model_returned (features : list t) (outputs : tensor)
    (is_training use_kernel_predicion : bool) (kernel_size : nat) :
  Forall (fun f => is_target f = true) features ->
  (use_kernel_predicion = true -> Forall preserved features) ->
  combined_features_model outputs features is_training use_kernel_predicion kernel_size
  = Returned
      (map (fun fs => set_prediction (fst fs)
                        (final_prediction use_kernel_predicion kernel_size
                           (fst fs) (snd fs)))
         (combine features
            (slices outputs features is_training use_kernel_predicion kernel_size))).
Proof.
  intros Htarget Hpreserved. rewrite combined_features_model_added by exact Htarget.
  destruct use_kernel_predicion; cbn [negb bind].
  - rewrite for_each_map
      with (result := fun f =>
              match preserved_source f, prediction f with
              | Some p, Some s => set_prediction f (kernel_prediction p s kernel_size)
              | _, _ => f
              end).
    + rewrite map_map. f_equal. apply map_ext_in. intros [f s] Hin.
      apply in_combine_l in Hin. cbn [fst snd set_prediction preserved_source prediction].
      unfold final_prediction. destruct (preserved_source f); reflexivity.
    + apply Forall_forall. intros g Hg. apply in_map_iff in Hg.
      destruct Hg as ([f s] & <- & Hin). apply in_combine_l in Hin.
      pose proof (proj1 (Forall_forall _ _) (Hpreserved eq_refl) f Hin) as [Hp Hs].
      pose proof (proj1 (Forall_forall _ _) Htarget f Hin) as Ht.
      unfold apply_kernel_prediction, add_prediction.
      cbn [fst snd set_prediction preserve_source preserved_source prediction is_target].
      rewrite Hp, Ht. destruct (preserved_source f); [reflexivity|now elim Hs].
  - rewrite for_each_map
      with (result := fun f =>
              match feature_standardization f, prediction f with
              | Some standardization, Some s =>
                  set_prediction f
                    (FeatureStandardization.invert_standardize standardization s)
              | _, _ => f
              end).
    + cbn [bind]. rewrite map_map. f_equal. apply map_ext_in. intros [f s] _.
      cbn [fst snd set_prediction feature_standardization prediction].
      unfold final_prediction. destruct (feature_standardization f); reflexivity.
    + apply Forall_forall. intros g Hg. apply in_map_iff in Hg.
      destruct Hg as ([f s] & <- & _). unfold prediction_invert_standardize.
      cbn [fst snd set_prediction feature_standardization prediction].
      destruct (feature_standardization f); reflexivity.
Qed.

(** X14: on target features, combined_features_model returns whenever,
    under kernel prediction, every one of them preserves its source and
    has it preserved; each target feature then holds as prediction, in the
    declared order, its slice of the output of the backbone with the
    standardization of the feature inverted, or under kernel prediction
    the kernel of that slice applied to the preserved source, with no
    standardization inverted.  Under kernel prediction the first target
    feature that does not preserve its source fails the assertion. *)
Theorem combined_features_model_predictions (features : list t) (outputs : tensor)
    (is_training use_kernel_predicion : bool) (kernel_size : nat) :
  Forall (fun f => is_target f = true) features ->
  ((use_kernel_predicion = true -> Forall preserved features) ->
   combined_features_model outputs features is_training use_kernel_predicion kernel_size
   = Returned
       (map (fun fs => set_prediction (fst fs)
                         (final_prediction use_kernel_predicion kernel_size
                            (fst fs) (snd fs)))
          (combine features
             (slices outputs features is_training use_kernel_predicion kernel_size)))) /\
  (forall before f after,
     use_kernel_predicion = true ->
     features = before ++ f :: after ->
     Forall preserved before -> preserve_source f = false ->
     combined_features_model outputs features is_training use_kernel_predicion kernel_size
     = Raised AssertionError).
Proof.
  intros Htarget. split; [now apply combined_features_model_returned|].
  intros before f after -> -> Hbefore Hf.
  rewrite combined_features_model_added by exact Htarget. cbn [negb bind].
  destruct (slices_split outputs (before ++ f :: after) is_training true kernel_size)
    as [_ Hcount].
  destruct (@combine_middle _ _ before f after
              (slices outputs (before ++ f :: after) is_training true kernel_size)
              Hcount) as (l1 & s & l2 & Hl1 & ->).
  rewrite map_app. cbn [map]. apply for_each_raises.
  - apply Forall_forall. intros g Hg. apply in_map_iff in Hg.
    destruct Hg as ([b sb] & <- & Hin). apply in_combine_l in Hin.
    pose proof (proj1 (Forall_forall _ _) Hbefore b Hin) as [Hp Hs].
    assert (Ht : is_target b = true).
    { apply (proj1 (Forall_forall _ _) Htarget). apply in_or_app. now left. }
    unfold apply_kernel_prediction, add_prediction.
    cbn [fst snd set_prediction preserve_source preserved_source prediction is_target].
    rewrite Hp, Ht. destruct (preserved_source b); [|now elim Hs].
    cbn. now eexists.
  - unfold apply_kernel_prediction.
    cbn [fst snd set_prediction preserve_source]. now rewrite Hf.
Qed.

(** *** model: from the features dictionary to the prediction dictionary *)

(** [FeatureEngineering.variance], [RenderPasses.source_feature_name_indexed]
    and [RenderPasses.prediction_feature_name] *)
Variable FeatureEngineering_variance : tensor -> bool -> bool -> tensor.
Variable source_feature_name_indexed : string -> nat -> string.
Variable prediction_feature_name : string -> string.

(** [tf.concat values concat_axis], along the channel axis. *)
Variable tf_concat : list tensor -> outcome tensor.

(** The three lists that [combined_features_model] fills before it
    concatenates them. *)
Record NetworkInputs : Type := {
  prediction_inputs : list tensor;
  auxiliary_prediction_inputs : list tensor;
  auxiliary_inputs : list tensor
}.

(** What one pass of the loop over the sources appends: the source at
    [index], and its variance when the feature uses variance. *)
Definition inputs_at (prediction_feature : t) (index : nat) : outcome (list tensor) :=
  sources <- attribute "source" (source prediction_feature) ;;
  source <- list_get sources index ;;
  if FeatureVariance.use_variance (feature_variance prediction_feature)
  then
    variances <- attribute "variance" (variance prediction_feature) ;;
    source_variance <- list_get variances index ;;
    Returned [source; source_variance]
  else Returned [source].

(** The list that the pass appends to. *)
Definition append_inputs (prediction_feature : t) (index : nat) (added : list tensor)
    (inputs : NetworkInputs) : NetworkInputs :=
  if is_target prediction_feature
  then
    if index =? 0
    then {| prediction_inputs := prediction_inputs inputs ++ added;
            auxiliary_prediction_inputs := auxiliary_prediction_inputs inputs;
            auxiliary_inputs := auxiliary_inputs inputs |}
    else {| prediction_inputs := prediction_inputs inputs;
            auxiliary_prediction_inputs := auxiliary_prediction_inputs inputs ++ added;
            auxiliary_inputs := auxiliary_inputs inputs |}
  else {| prediction_inputs := prediction_inputs inputs;
          auxiliary_prediction_inputs := auxiliary_prediction_inputs inputs;
          auxiliary_inputs := auxiliary_inputs inputs ++ added |}.

Fixpoint collect_sources (prediction_feature : t) (indices : list nat)
    (inputs : NetworkInputs) : outcome NetworkInputs :=
  match indices with
  | [] => Returned inputs
  | index :: rest =>
      added <- inputs_at prediction_feature index ;;
      collect_sources prediction_feature rest
        (append_inputs prediction_feature index added inputs)
  end.

Fixpoint prepare_network_input (prediction_features : list t) (inputs : NetworkInputs)
  : outcome NetworkInputs :=
  match prediction_features with
  | [] => Returned inputs
  | prediction_feature :: rest =>
      inputs <-
        collect_sources prediction_feature
          (seq 0 (number_of_sources prediction_feature)) inputs ;;
      prepare_network_input rest inputs
  end.

(** A list of auxiliary inputs is concatenated when it is not empty, and
    replaced by [None] when it is. *)
Definition concat_or_none (values : list tensor) : outcome (option tensor) :=
  match values with
  | [] => Returned None
  | _ => concatenated <- tf_concat values ;; Returned (Some concatenated)
  end.

(** The input of the backbone: the prediction inputs, then the auxiliary
    prediction inputs and the auxiliary inputs that there are.  As above,
    the transposition to channels first leaves no trace here. *)
Definition network_input (prediction_features : list t) : outcome tensor :=
  inputs <-
    prepare_network_input prediction_features
      {| prediction_inputs := [];
         auxiliary_prediction_inputs := [];
         auxiliary_inputs := [] |} ;;
  prediction_inputs <- tf_concat (prediction_inputs inputs) ;;
  auxiliary_prediction_inputs <-
    concat_or_none (auxiliary_prediction_inputs inputs) ;;
  auxiliary_inputs <- concat_or_none (auxiliary_inputs inputs) ;;
  match auxiliary_prediction_inputs, auxiliary_inputs with
  | None, None => Returned prediction_inputs
  | None, Some auxiliary_inputs => tf_concat [prediction_inputs; auxiliary_inputs]
  | Some auxiliary_prediction_inputs, None =>
      tf_concat [prediction_inputs; auxiliary_prediction_inputs]
  | Some auxiliary_prediction_inputs, Some auxiliary_inputs =>
      tf_concat [prediction_inputs; auxiliary_prediction_inputs; auxiliary_inputs]
  end.

(** [PredictionFeature.add_prediction_to_dictionary] *)
Definition add_prediction_to_dictionary (self : t) (dictionary : dict tensor)
  : outcome (dict tensor) :=
  if is_target self
  then
    predicted <- attribute "prediction" (prediction self) ;;
    Returned ((prediction_feature_name (name self), predicted) :: dictionary)
  else Returned dictionary.

Fixpoint prediction_dictionary (output_prediction_features : list t)
    (dictionary : dict tensor) : outcome (dict tensor) :=
  match output_prediction_features with
  | [] => Returned dictionary
  | prediction_feature :: rest =>
      dictionary <- add_prediction_to_dictionary prediction_feature dictionary ;;
      prediction_dictionary rest dictionary
  end.

(** [model] without single feature prediction.  The target features that
    it collects first are the objects that it standardizes next, so they
    are taken from the standardized list. *)
Definition model (prediction_features : list t)
    (is_training use_kernel_predicion : bool) (kernel_size : nat)
  : outcome (dict tensor) :=
  prediction_features <-
    for_each (standardize FeatureEngineering_variance) prediction_features ;;
  let output_prediction_features := output_prediction_features prediction_features in
  outputs <- network_input prediction_features ;;
  output_prediction_features <-
    combined_features_model outputs output_prediction_features is_training
      use_kernel_predicion kernel_size ;;
  prediction_dictionary output_prediction_features [].

(** The predictions of [model_fn]: the sources of every prediction
    feature are read from [features], then [model] runs. *)
Definition model_fn_predictions (features : dict tensor) (prediction_features : list t)
    (is_training use_kernel_predicion : bool) (kernel_size : nat)
  : outcome (dict tensor) :=
  prediction_features <-
    for_each
      (fun prediction_feature =>
         initialize_sources_from_dictionary source_feature_name_indexed
           prediction_feature features)
      prediction_features ;;
  model prediction_features is_training use_kernel_predicion kernel_size.

(** The sources of a feature as [features] holds them. *)
Definition raw_sources (features : dict tensor) (prediction_feature : t) : list tensor :=
  map (fun index =>
         match dict_find features
                 (source_feature_name_indexed (name prediction_feature) index) with
         | Some s => s
         | None => []
         end)
    (seq 0 (number_of_sources prediction_feature)).

(** [features] holds every source of the feature. *)
Definition available (features : dict tensor) (prediction_feature : t) : Prop :=
  forall index, index < number_of_sources prediction_feature ->
    dict_find features (source_feature_name_indexed (name prediction_feature) index)
    <> None.

(** The feature once its sources are read, and once it is standardized. *)
Definition loaded (features : dict tensor) (prediction_feature : t) : t :=
  set_source (set_variance (set_source prediction_feature []) [])
    (raw_sources features prediction_feature).

Definition ready (features : dict tensor) (prediction_feature : t) : t :=
  standardized_from FeatureEngineering_variance (loaded features prediction_feature)
    (raw_sources features prediction_feature).

(** The prediction that [model] leaves for a target feature whose slice
    is [slice], in terms of the feature as [main] constructs it. *)
Definition predicted_value (features : dict tensor) (use_kernel_predicion : bool)
    (kernel_size : nat) (prediction_feature : t) (slice : tensor) : tensor :=
  if use_kernel_predicion
  then kernel_prediction (hd [] (raw_sources features prediction_feature)) slice
         kernel_size
  else match feature_standardization prediction_feature with
       | Some standardization =>
           FeatureStandardization.invert_standardize standardization slice
       | None => slice
       end.

Lemma raw_sources_length features f :
  length (raw_sources features f) = number_of_sources f.
Proof. unfold raw_sources. now rewrite length_map, length_seq. Qed.

Lemma initialize_available features f :
  available features f ->
  initialize_sources_from_dictionary source_feature_name_indexed f features
  = Returned (loaded features f).
Proof.
  intros Havailable. unfold initialize_sources_from_dictionary.
  cbn [number_of_sources set_source set_variance].
  rewrite (@load_sources_lookup_all source_feature_name_indexed _ features _ [])
    by reflexivity.
  cbn [name set_source set_variance].
  rewrite (@lookup_all_found features (source_feature_name_indexed (name f))
             (seq 0 (number_of_sources f)) (raw_sources features f)); [reflexivity|].
  unfold raw_sources, available in *.
  assert (Hall : forall index, In index (seq 0 (number_of_sources f)) ->
                   index < number_of_sources f) by (intros index H; apply in_seq in H; lia).
  induction (seq 0 (number_of_sources f)) as [|index indices IH]; cbn [map];
    constructor.
  - destruct (dict_find features (source_feature_name_indexed (name f) index)) eqn:Hfind;
      [reflexivity|].
    elim (Havailable index); [apply Hall; now left|exact Hfind].
  - apply IH. intros i Hi. apply Hall. now right.
Qed.

Lemma standardize_available features f :
  (preserve_source f = true -> 0 < number_of_sources f) ->
  standardize FeatureEngineering_variance (loaded features f)
  = Returned (ready features f).
Proof.
  intros Hfirst. apply standardize_loaded; try reflexivity.
  - exact (raw_sources_length features f).
  - exact Hfirst.
Qed.

(** What [standardize] keeps and what it sets. *)
Lemma ready_fields features f :
  is_target (ready features f) = is_target f /\
  name (ready features f) = name f /\
  number_of_channels (ready features f) = number_of_channels f /\
  number_of_sources (ready features f) = number_of_sources f /\
  feature_standardization (ready features f) = feature_standardization f /\
  feature_variance (ready features f) = feature_variance f /\
  preserve_source (ready features f) = preserve_source f /\
  source (ready features f)
  = Some (standardized_sources (feature_standardization f) (raw_sources features f)) /\
  (FeatureVariance.use_variance (feature_variance f) = true ->
   exists variances,
     variance (ready features f) = Some variances /\
     length variances = number_of_sources f) /\
  (preserve_source f = true -> 0 < number_of_sources f ->
   preserved_source (ready features f) = Some (hd [] (raw_sources features f))).
Proof.
  pose proof (raw_sources_length features f) as Hlength.
  unfold ready, standardized_from, loaded.
  cbn [feature_variance feature_standardization preserve_source set_source set_variance].
  destruct (FeatureVariance.use_variance (feature_variance f)) eqn:Huse,
    (preserve_source f) eqn:Hpreserve, (raw_sources features f) as [|first rest] eqn:Hraw;
    cbn; repeat split; try discriminate;
    try (intros _; eexists; split; [reflexivity|]);
    try (rewrite length_map;
         destruct (FeatureVariance.compute_before_standardization (feature_variance f));
         rewrite ?standardized_sources_length; exact Hlength);
    try (intros _ Hpos; cbn in Hlength; lia); try reflexivity; assumption.
Qed.

Lemma for_each_mapped (method : t -> outcome t) (before after : t -> t) features :
  Forall (fun f => method (before f) = Returned (after f)) features ->
  for_each method (map before features) = Returned (map after features).
Proof.
  induction 1 as [|f features Hf _ IH]; cbn [for_each map]; [reflexivity|].
  now rewrite Hf, IH.
Qed.

Lemma inputs_at_ready features f index :
  index < number_of_sources f ->
  exists added, inputs_at (ready features f) index = Returned added /\ added <> [].
Proof.
  intros Hindex.
  destruct (ready_fields features f)
    as (_ & _ & _ & _ & _ & Hfv & _ & Hsource & Hvariance & _).
  unfold inputs_at. rewrite Hsource, Hfv. cbn [attribute bind]. unfold list_get.
  destruct (nth_error (standardized_sources (feature_standardization f)
                         (raw_sources features f)) index) as [s|] eqn:Hs.
  - cbn [bind]. destruct (FeatureVariance.use_variance (feature_variance f)).
    + destruct (Hvariance eq_refl) as (variances & -> & Hlength). cbn [attribute bind].
      destruct (nth_error variances index) as [v|] eqn:Hv.
      * cbn [bind]. eexists. split; [reflexivity|discriminate].
      * apply nth_error_None in Hv. lia.
    + eexists. split; [reflexivity|discriminate].
  - apply nth_error_None in Hs.
    rewrite standardized_sources_length, raw_sources_length in Hs. lia.
Qed.

Lemma collect_sources_ready features f indices :
  Forall (fun index => index < number_of_sources f) indices ->
  forall inputs,
  exists inputs',
    collect_sources (ready features f) indices inputs = Returned inputs' /\
    length (prediction_inputs inputs) <= length (prediction_inputs inputs') /\
    (is_target f = true -> In 0 indices ->
     length (prediction_inputs inputs) < length (prediction_inputs inputs')).
Proof.
  destruct (ready_fields features f) as (Htarget & _).
  induction 1 as [|index indices Hindex _ IH]; intros inputs; cbn [collect_sources].
  - exists inputs. split; [reflexivity|]. split; [lia|intros _ []].
  - destruct (@inputs_at_ready features f index Hindex) as (added & -> & Hadded). cbn [bind].
    destruct (IH (append_inputs (ready features f) index added inputs))
      as (inputs' & Hcollect & Hle & Hlt).
    exists inputs'. split; [exact Hcollect|].
    assert (Happend : length (prediction_inputs inputs)
                      <= length (prediction_inputs
                                   (append_inputs (ready features f) index added inputs)) /\
                      (is_target f = true -> index = 0 ->
                       length (prediction_inputs inputs)
                       < length (prediction_inputs
                                   (append_inputs (ready features f) index added
                                      inputs)))).
    { unfold append_inputs. rewrite Htarget. destruct (is_target f).
      - destruct (index =? 0) eqn:Hzero; cbn [prediction_inputs].
        + rewrite length_app. destruct added; [now elim Hadded|]. cbn [length].
          split; [lia|intros; lia].
        + apply Nat.eqb_neq in Hzero. split; [lia|intros; lia].
      - cbn [prediction_inputs]. split; [lia|discriminate]. }
    destruct Happend as [Hle' Hlt']. split; [lia|].
    intros Ht [Hzero|Hin]; [specialize (Hlt' Ht Hzero); lia|].
    specialize (Hlt Ht Hin). lia.
Qed.

Lemma prepare_network_input_ready features prediction_features :
  forall inputs,
  exists inputs',
    prepare_network_input (map (ready features) prediction_features) inputs
    = Returned inputs' /\
    length (prediction_inputs inputs) <= length (prediction_inputs inputs') /\
    (Exists (fun f => is_target f = true /\ 0 < number_of_sources f) prediction_features ->
     length (prediction_inputs inputs) < length (prediction_inputs inputs')).
Proof.
  induction prediction_features as [|f rest IH]; intros inputs;
    cbn [map prepare_network_input].
  - exists inputs. split; [reflexivity|]. split; [lia|]. intros H. inversion H.
  - destruct (ready_fields features f) as (_ & _ & _ & -> & _).
    destruct (@collect_sources_ready features f (seq 0 (number_of_sources f)))
      with (inputs := inputs) as (collected & -> & Hle & Hlt).
    { apply Forall_forall. intros index Hindex. apply in_seq in Hindex. lia. }
    cbn [bind]. destruct (IH collected) as (inputs' & Hprepare & Hle' & Hlt').
    exists inputs'. split; [exact Hprepare|]. split; [lia|].
    intros Hexists. inversion Hexists as [? ? [Ht Hn]|? ? Hrest]; subst.
    + assert (length (prediction_inputs inputs) < length (prediction_inputs collected));
        [|lia].
      apply Hlt; [exact Ht|]. apply in_seq. lia.
    + specialize (Hlt' Hrest). lia.
Qed.

Lemma network_input_ready features prediction_features :
  (forall values, values <> [] -> returns (tf_concat values)) ->
  Exists (fun f => is_target f = true /\ 0 < number_of_sources f) prediction_features ->
  returns (network_input (map (ready features) prediction_features)).
Proof.
  intros Hconcat Hexists. unfold network_input.
  destruct (prepare_network_input_ready features prediction_features
              {| prediction_inputs := [];
                 auxiliary_prediction_inputs := [];
                 auxiliary_inputs := [] |}) as (inputs & -> & _ & Hlt).
  specialize (Hlt Hexists). cbn [prediction_inputs length] in Hlt. cbn [bind].
  destruct (Hconcat (prediction_inputs inputs)) as [p ->].
  { intros Hempty. rewrite Hempty in Hlt. cbn in Hlt. lia. }
  cbn [bind].
  assert (Hnone : forall values, returns (concat_or_none values)).
  { intros [|v values]; cbn [concat_or_none]; [now eexists|].
    destruct (Hconcat (v :: values)) as [c ->]; [discriminate|]. now eexists. }
  destruct (Hnone (auxiliary_prediction_inputs inputs)) as [ap ->].
  destruct (Hnone (auxiliary_inputs inputs)) as [a ->]. cbn [bind].
  destruct ap, a; try (apply Hconcat; discriminate). now eexists.
Qed.

Lemma prediction_dictionary_predicted (predicted : list (t * tensor)) :
  Forall (fun fv => is_target (fst fv) = true) predicted ->
  forall dictionary,
  prediction_dictionary (map (fun fv => set_prediction (fst fv) (snd fv)) predicted)
    dictionary
  = Returned (rev (map (fun fv => (prediction_feature_name (name (fst fv)), snd fv))
                     predicted)
              ++ dictionary).
Proof.
  induction 1 as [|[f v] predicted Hf _ IH]; intros dictionary;
    cbn [map prediction_dictionary]; [reflexivity|].
  unfold add_prediction_to_dictionary.
  cbn [fst snd] in *. cbn [set_prediction is_target prediction name attribute].
  rewrite Hf. cbn [bind]. rewrite IH. cbn [rev]. now rewrite <- app_assoc.
Qed.

Lemma filter_ready features prediction_features :
  output_prediction_features (map (ready features) prediction_features)
  = map (ready features) (output_prediction_features prediction_features).
Proof.
  unfold output_prediction_features.
  induction prediction_features as [|f rest IH]; cbn [map filter]; [reflexivity|].
  destruct (ready_fields features f) as (-> & _).
  destruct (is_target f); cbn [map]; now rewrite IH.
Qed.

Lemma slices_ready features targets outputs is_training use_kernel_predicion kernel_size :
  slices outputs (map (ready features) targets) is_training use_kernel_predicion
    kernel_size
  = slices outputs targets is_training use_kernel_predicion kernel_size.
Proof.
  assert (Hwidths : map (slice_width use_kernel_predicion kernel_size)
                      (map (ready features) targets)
                    = map (slice_width use_kernel_predicion kernel_size) targets).
  { rewrite map_map. apply map_ext. intros f. unfold slice_width.
    destruct (ready_fields features f) as (_ & _ & -> & _). reflexivity. }
  unfold slices. now rewrite !output_size_sum, Hwidths.
Qed.

Lemma combine_map_left {A B C : Type} (g : A -> B) (l : list A) (values : list C) :
  combine (map g l) values = map (fun av => (g (fst av), snd av)) (combine l values).
Proof.
  revert values. induction l as [|a l IH]; intros [|v values]; cbn [map combine];
    try reflexivity.
  now rewrite IH.
Qed.

(** X19: model_fn on prediction features as main constructs them, every
    one with preserve_source equal to use_kernel_predicion.  When features
    holds every indexed source of every prediction feature, some target
    feature has a source, and under kernel prediction every feature has
    one, reading the sources, the standardization, the preparation of the
    network input, the backbone, the split and the kernel prediction or
    the inverted standardization all return, given that the concatenation
    of a list of tensors that is not empty returns.  The prediction
    dictionary holds one entry per target feature, under its prediction
    name: the slice of the feature with its standardization inverted, or
    under kernel prediction the kernel of the slice applied to the first
    source as features holds it, before any standardization. *)
Theorem model_fn_predictions_returned (features : dict tensor)
    (prediction_features : list t) (is_training use_kernel_predicion : bool)
    (kernel_size : nat) :
  (forall values, values <> [] -> returns (tf_concat values)) ->
  Forall (available features) prediction_features ->
  Forall (fun f => preserve_source f = use_kernel_predicion) prediction_features ->
  (use_kernel_predicion = true ->
   Forall (fun f => 0 < number_of_sources f) prediction_features) ->
  Exists (fun f => is_target f = true /\ 0 < number_of_sources f) prediction_features ->
  exists outputs,
    network_input (map (ready features) prediction_features) = Returned outputs /\
    model_fn_predictions features prediction_features is_training use_kernel_predicion
      kernel_size
    = Returned
        (rev (map (fun fs =>
                     (prediction_feature_name (name (fst fs)),
                      predicted_value features use_kernel_predicion kernel_size
                        (fst fs) (snd fs)))
                (combine (output_prediction_features prediction_features)
                   (slices outputs (output_prediction_features prediction_features)
                      is_training use_kernel_predicion kernel_size)))).
Proof.
  intros Hconcat Havailable Hpreserve Hsources Hexists.
  destruct (@network_input_ready features prediction_features Hconcat Hexists)
    as [outputs Houtputs].
  exists outputs. split; [exact Houtputs|].
  assert (Hfirst : Forall (fun f => preserve_source f = true -> 0 < number_of_sources f)
                     prediction_features).
  { apply Forall_forall. intros f Hf Hp.
    rewrite (proj1 (Forall_forall _ _) Hpreserve f Hf) in Hp.
    exact (proj1 (Forall_forall _ _) (Hsources Hp) f Hf). }
  unfold model_fn_predictions.
  rewrite for_each_map with (result := loaded features).
  2:{ eapply Forall_impl; [|exact Havailable]. intros f. apply initialize_available. }
  cbn [bind]. unfold model.
  rewrite (@for_each_mapped (standardize FeatureEngineering_variance)
             (loaded features) (ready features)).
  2:{ eapply Forall_impl; [|exact Hfirst]. intros f. apply standardize_available. }
  cbn [bind]. rewrite Houtputs. cbn [bind]. rewrite filter_ready.
  assert (Hin : forall f, In f (output_prediction_features prediction_features) ->
                  In f prediction_features /\ is_target f = true)
    by (intros f Hf; now apply filter_In in Hf).
  rewrite combined_features_model_returned.
  - cbn [bind]. rewrite slices_ready, combine_map_left, map_map.
    rewrite <- (map_map
                  (fun av => (ready features (fst av),
                              final_prediction use_kernel_predicion kernel_size
                                (ready features (fst av)) (snd av)))
                  (fun fv => set_prediction (fst fv) (snd fv))).
    rewrite prediction_dictionary_predicted.
    + rewrite app_nil_r, map_map. f_equal. f_equal. apply map_ext_in.
      intros [f s] Hf. apply in_combine_l in Hf. destruct (Hin f Hf) as [Hf' _].
      cbn [fst snd].
      destruct (ready_fields features f)
        as (_ & -> & _ & _ & Hfs & _ & _ & _ & _ & Hpreserved).
      f_equal. unfold final_prediction, predicted_value.
      destruct use_kernel_predicion.
      * rewrite Hpreserved; [reflexivity| |].
        -- exact (proj1 (Forall_forall _ _) Hpreserve f Hf').
        -- exact (proj1 (Forall_forall _ _) (Hsources eq_refl) f Hf').
      * now rewrite Hfs.
    + apply Forall_forall. intros fv Hfv. apply in_map_iff in Hfv.
      destruct Hfv as ([f s] & <- & Hf). apply in_combine_l in Hf. cbn [fst].
      destruct (ready_fields features f) as (-> & _). now apply Hin.
  - apply Forall_forall. intros g Hg. apply in_map_iff in Hg.
    destruct Hg as (f & <- & Hf). destruct (ready_fields features f) as (-> & _).
    now apply Hin.
  - intros Hkernel. apply Forall_forall. intros g Hg. apply in_map_iff in Hg.
    destruct Hg as (f & <- & Hf). destruct (Hin f Hf) as [Hf' _].
    destruct (ready_fields features f)
      as (_ & _ & _ & _ & _ & _ & Hp & _ & _ & Hpreserved).
    assert (Hpf : preserve_source f = true)
      by (rewrite (proj1 (Forall_forall _ _) Hpreserve f Hf'); exact Hkernel).
    split; [now rewrite Hp|].
    rewrite Hpreserved; [discriminate|exact Hpf|].
    exact (proj1 (Forall_forall _ _) (Hsources Hkernel) f Hf').
Qed.

End CombinedFeatures.

(** C2 on the sample features, without kernel prediction: the widths 3
    and 1 of the two targets. *)
Lemma combined_split_round_trip_witness :
  exists prediction_tuple,
    length (sample_network []
              (output_size (output_prediction_features sample_features) false 5) true)
    = list_sum (map (slice_width false 5) (output_prediction_features sample_features)) /\
    tf_split
      (sample_network []
         (output_size (output_prediction_features sample_features) false 5) true)
      (size_splits (output_prediction_features sample_features) false 5)
    = Returned prediction_tuple /\
    length prediction_tuple = length (output_prediction_features sample_features) /\
    map (@length _) prediction_tuple
    = map (slice_width false 5) (output_prediction_features sample_features) /\
    concat prediction_tuple
    = sample_network []
        (output_size (output_prediction_features sample_features) false 5) true /\
    add_predictions 0 prediction_tuple (output_prediction_features sample_features)
    = Returned (map (fun fp => set_prediction (fst fp) (snd fp))
                  (combine (output_prediction_features sample_features)
                     prediction_tuple)).
Proof.
  apply (@combined_split_round_trip sample_network).
  intros inputs output_size is_training. apply repeat_length.
Defined.

(** X14 on the two targets of the sample features, without kernel
    prediction and without standardization: each holds its slice. *)
Lemma combined_features_model_predictions_witness :
  combined_features_model sample_network (fun _ prediction _ => prediction) []
    (output_prediction_features sample_features) true false 5
  = Returned
      [set_prediction (sample_feature "Color" 3 true)
         [[Finite 0%R]; [Finite 0%R]; [Finite 0%R]];
       set_prediction (sample_feature "Depth" 1 true) [[Finite 0%R]]].
Proof.
  assert (Htargets : Forall (fun f => is_target f = true)
                       (output_prediction_features sample_features))
    by (repeat constructor).
  apply (proj1 (@combined_features_model_predictions sample_network
                  (fun inputs output_size is_training => repeat_length _ output_size)
                  (fun _ prediction _ => prediction)
                  (output_prediction_features sample_features) [] true false 5
                  Htargets)).
  discriminate.
Defined.

(** Stand-ins for the concatenation along the channel axis and for the
    prediction names. *)
Definition sample_concat (values : list tensor) : outcome tensor :=
  Returned (concat values).

Definition sample_prediction_name (name : string) : string :=
  ("prediction/" ++ name)%string.

(** One source for each of the sample features. *)
Definition sample_sources : dict tensor :=
  [("Color0", [[Finite 1%R]; [Finite 2%R]; [Finite 3%R]]);
   ("Normal0", [[Finite 4%R]; [Finite 5%R]]);
   ("Depth0", [[Finite 6%R]])].

(** X19 on the sample features, without kernel prediction: the two
    targets Color and Depth get an entry, Normal gets none. *)
Lemma model_fn_predictions_returned_witness :
  exists outputs,
    network_input sample_concat
      (map (ready sample_variance sample_name_indexed sample_sources) sample_features)
    = Returned outputs /\
    model_fn_predictions sample_network (fun _ prediction _ => prediction)
      sample_variance sample_name_indexed sample_prediction_name sample_concat
      sample_sources sample_features true false 5
    = Returned
        (rev (map (fun fs =>
                     (sample_prediction_name (name (fst fs)),
                      predicted_value (fun _ prediction _ => prediction)
                        sample_name_indexed sample_sources false 5 (fst fs) (snd fs)))
                (combine (output_prediction_features sample_features)
                   (slices sample_network outputs
                      (output_prediction_features sample_features) true false 5)))).
Proof.
  apply (@model_fn_predictions_returned sample_network
           (fun inputs output_size is_training => repeat_length _ output_size)
           (fun _ prediction _ => prediction) sample_variance sample_name_indexed
           sample_prediction_name sample_concat sample_sources sample_features
           true false 5).
  - intros values _. now eexists.
  - repeat constructor; intros [|index] Hindex; cbn in *; try lia; discriminate.
  - repeat constructor.
  - discriminate.
  - apply Exists_cons_hd. split; [reflexivity|]. cbn. lia.
Defined.

End Model.

(** ** BaseTrainingFeature: the loss terms *)

Module BaseTrainingFeature.

Local Open Scope outcome_scope.
Local Open Scope Q_scope.

(** A tensor of the loss side: its entries, flattened.  The operations on
    two tensors below are those of TensorFlow for two tensors of one
    shape. *)
Definition tensor : Type := list Q.

(** [tf.greater x y], and Python's [x > y]. *)
Definition greater (x y : Q) : bool := negb (Qle_bool x y).

Definition tf_multiply (a b : tensor) : tensor :=
  map (fun xy => fst xy * snd xy) (combine a b).

Definition tf_divide (a : tensor) (c : Q) : tensor := map (fun x => x / c) a.

Definition tf_reduce_sum (a : tensor) : Q := fold_right Qplus 0 a.

(** The six terms of the loss. *)
Inductive term : Type :=
| Mean
| Variation
| MsSsim
| MaskedMean
| MaskedVariation
| MaskedMsSsim.

(** The name and the six weights of the constructor, then the attributes
    that [initialize] sets; [mask] and [mask_sum] exist only for a direct
    or indirect render pass.  The flags that select summaries are left
    out. *)
Record t : Type := {
  name : string;
  mean_weight : Q;
  variation_weight : Q;
  ms_ssim_weight : Q;
  masked_mean_weight : Q;
  masked_variation_weight : Q;
  masked_ms_ssim_weight : Q;
  predicted : option tensor;
  target : option tensor;
  mask : option tensor;
  mask_sum : option Q
}.

Definition weight (self : t) (m : term) : Q :=
  match m with
  | Mean => mean_weight self
  | Variation => variation_weight self
  | MsSsim => ms_ssim_weight self
  | MaskedMean => masked_mean_weight self
  | MaskedVariation => masked_variation_weight self
  | MaskedMsSsim => masked_ms_ssim_weight self
  end.

(** A computation that records which term methods it calls, in order. *)
Definition traced (A : Type) : Type := list term -> outcome A * list term.

Definition tret {A : Type} (a : A) : traced A := fun log => (Returned a, log).

Definition tbind {A B : Type} (c : traced A) (k : A -> traced B) : traced B :=
  fun log =>
    match c log with
    | (Returned a, log') => k a log'
    | (Raised e, log') => (Raised e, log')
    end.

Declare Scope traced_scope.
Delimit Scope traced_scope with traced.
Notation "x <- c ;; k" := (tbind c (fun x => k))
  (at level 61, c at next level, right associativity) : traced_scope.

(** *** Sample objects *)

(** A stand-in for the difference: the absolute error, entry by entry. *)
Definition sample_difference (p g : tensor) : tensor :=
  map (fun xy => Qabs (fst xy - snd xy)) (combine p g).

Definition sample_mean (a : tensor) : Q :=
  tf_reduce_sum a / inject_Z (Z.of_nat (length a)).

Definition sample_feature (m : tensor) : t :=
  {| name := "DiffuseDirect";
     mean_weight := 1;
     variation_weight := 0;
     ms_ssim_weight := 0;
     masked_mean_weight := 1 # 2;
     masked_variation_weight := 0;
     masked_ms_ssim_weight := 0;
     predicted := Some [1; 2; 4];
     target := Some [1; 1; 1];
     mask := Some m;
     mask_sum := Some (tf_reduce_sum m) |}.

(** A feature with all six weights zero that was never initialized. *)
Definition zero_weights : t :=
  {| name := "Emission";
     mean_weight := 0;
     variation_weight := 0;
     ms_ssim_weight := 0;
     masked_mean_weight := 0;
     masked_variation_weight := 0;
     masked_ms_ssim_weight := 0;
     predicted := None;
     target := None;
     mask := None;
     mask_sum := None |}.

(** A feature that asks for the masked ms_ssim term. *)
Definition masked_ms_ssim_weighted : t :=
  {| name := "DiffuseDirect";
     mean_weight := 0;
     variation_weight := 0;
     ms_ssim_weight := 0;
     masked_mean_weight := 0;
     masked_variation_weight := 0;
     masked_ms_ssim_weight := 1;
     predicted := Some [1; 2; 4];
     target := Some [1; 1; 1];
     mask := Some [1; 0; 1];
     mask_sum := Some 2 |}.

Section Methods.

(** [LossDifference.difference predicted target self.loss_difference] *)
Variable LossDifference_difference : tensor -> tensor -> tensor.

(** [tf.reduce_mean] *)
Variable tf_reduce_mean : tensor -> Q.

(** The flattened horizontal and vertical variation differences of
    [predicted] and [target], concatenated, which only TensorFlow slices
    and [LossDifference] build. *)
Variable variation_differences : tensor -> tensor -> tensor.

(** [tf.reduce_mean (tf.image.ssim_multiscale predicted target 1.
    power_factors)] after the reshape and the transposition of [ms_ssim]. *)
Variable ssim_multiscale_mean : tensor -> tensor -> Q.

Definition difference (self : t) : outcome tensor :=
  p <- attribute "predicted" (predicted self) ;;
  g <- attribute "target" (target self) ;;
  Returned (LossDifference_difference p g).

Definition variation_difference (self : t) : outcome tensor :=
  p <- attribute "predicted" (predicted self) ;;
  g <- attribute "target" (target self) ;;
  Returned (variation_differences p g).

Definition mean (self : t) : outcome Q :=
  d <- difference self ;;
  Returned (tf_reduce_mean d).

Definition variation (self : t) : outcome Q :=
  d <- variation_difference self ;;
  Returned (tf_reduce_mean d).

Definition ms_ssim (self : t) : outcome Q :=
  p <- attribute "predicted" (predicted self) ;;
  g <- attribute "target" (target self) ;;
  Returned (1 - ssim_multiscale_mean p g).

(** [tf.cond] builds both branches, so both read their attributes, and
    yields the value of the branch that the predicate selects. *)
Definition masked_mean (self : t) : outcome Q :=
  s <- attribute "mask_sum" (mask_sum self) ;;
  d <- difference self ;;
  m <- attribute "mask" (mask self) ;;
  Returned (if greater s 0
            then tf_reduce_sum (tf_divide (tf_multiply d m) s)
            else 0).

Definition masked_variation (self : t) : outcome Q :=
  s <- attribute "mask_sum" (mask_sum self) ;;
  d <- variation_difference self ;;
  m <- attribute "mask" (mask self) ;;
  Returned (if greater s 0
            then tf_reduce_sum (tf_divide (tf_multiply d m) s)
            else 0).

Definition masked_ms_ssim (self : t) : outcome Q :=
  Raised (Exception "Not implemented").

(** The method behind each term. *)
Definition method (m : term) (self : t) : outcome Q :=
  match m with
  | Mean => mean self
  | Variation => variation self
  | MsSsim => ms_ssim self
  | MaskedMean => masked_mean self
  | MaskedVariation => masked_variation self
  | MaskedMsSsim => masked_ms_ssim self
  end.

(** A call of a term method from [loss]. *)
Definition call (m : term) (self : t) : traced Q :=
  fun log => (method m self, log ++ [m]).

Local Open Scope traced_scope.

(** [tf.add result (tf.scalar_mul weight value)] *)
Definition add_scaled (result weight value : Q) : Q := result + weight * value.

Definition loss (self : t) : traced Q :=
  let result := 0 in
  result <-
    (if greater (mean_weight self) 0
     then v <- call Mean self ;; tret (add_scaled result (mean_weight self) v)
     else tret result) ;;
  result <-
    (if greater (variation_weight self) 0
     then v <- call Variation self ;;
          tret (add_scaled result (variation_weight self) v)
     else tret result) ;;
  result <-
    (if greater (ms_ssim_weight self) 0
     then v <- call MsSsim self ;; tret (add_scaled result (ms_ssim_weight self) v)
     else tret result) ;;
  result <-
    (if greater (masked_mean_weight self) 0
     then v <- call MaskedMean self ;;
          tret (add_scaled result (masked_mean_weight self) v)
     else tret result) ;;
  result <-
    (if greater (masked_variation_weight self) 0
     then v <- call MaskedVariation self ;;
          tret (add_scaled result (masked_variation_weight self) v)
     else tret result) ;;
  result <-
    (if greater (masked_ms_ssim_weight self) 0
     then v <- call MaskedMsSsim self ;;
          tret (add_scaled result (masked_ms_ssim_weight self) v)
     else tret result) ;;
  tret result.

(** *** The loss as the specification words it *)

Definition all_terms : list term :=
  [Mean; Variation; MsSsim; MaskedMean; MaskedVariation; MaskedMsSsim].

(** The terms whose weight is strictly positive, in the order of the sum. *)
Definition included (self : t) : list term :=
  filter (fun m => greater (weight self m) 0) all_terms.

(** The weighted sum of the given terms, each evaluated once, from
    [result] on. *)
Fixpoint weighted_sum (self : t) (terms : list term) (result : Q) : traced Q :=
  match terms with
  | [] => tret result
  | m :: rest =>
      v <- call m self ;;
      weighted_sum self rest (add_scaled result (weight self m) v)
  end.

(** *** TrainingFeature.initialize *)

Definition set_predicted_target (self : t) (p g : tensor) : t :=
  {| name := name self;
     mean_weight := mean_weight self;
     variation_weight := variation_weight self;
     ms_ssim_weight := ms_ssim_weight self;
     masked_mean_weight := masked_mean_weight self;
     masked_variation_weight := masked_variation_weight self;
     masked_ms_ssim_weight := masked_ms_ssim_weight self;
     predicted := Some p;
     target := Some g;
     mask := mask self;
     mask_sum := mask_sum self |}.

Definition set_mask (self : t) (m : tensor) (s : Q) : t :=
  {| name := name self;
     mean_weight := mean_weight self;
     variation_weight := variation_weight self;
     ms_ssim_weight := ms_ssim_weight self;
     masked_mean_weight := masked_mean_weight self;
     masked_variation_weight := masked_variation_weight self;
     masked_ms_ssim_weight := masked_ms_ssim_weight self;
     predicted := predicted self;
     target := target self;
     mask := Some m;
     mask_sum := Some s |}.

(** The names that [RenderPasses] derives, and its test for a direct or
    indirect pass. *)
Variable prediction_feature_name : string -> string.
Variable target_feature_name : string -> string.
Variable is_direct_or_indirect_render_pass : string -> bool.
Variable direct_or_indirect_to_color_render_pass : string -> string.

(** [Conv2dUtilities.non_zero_mask] *)
Variable non_zero_mask : tensor -> tensor.

Local Open Scope outcome_scope.

Definition initialize (self : t)
    (source_features predicted_features target_features : dict tensor) : outcome t :=
  p <- dict_get predicted_features (prediction_feature_name (name self)) ;;
  g <- dict_get target_features (target_feature_name (name self)) ;;
  let self := set_predicted_target self p g in
  if is_direct_or_indirect_render_pass (name self)
  then
    let corresponding_color_pass :=
      direct_or_indirect_to_color_render_pass (name self) in
    corresponding_target_feature <-
      dict_get target_features (target_feature_name corresponding_color_pass) ;;
    let m := non_zero_mask corresponding_target_feature in
    Returned (set_mask self m (tf_reduce_sum m))
  else Returned self.

Lemma greater_spec x y : greater x y = true <-> y < x.
Proof.
  unfold greater. rewrite negb_true_iff. split.
  - intros H. apply Qnot_le_lt. intros Hle. apply Qle_bool_iff in Hle. congruence.
  - intros H. destruct (Qle_bool x y) eqn:E; [|reflexivity].
    apply Qle_bool_iff in E. exfalso. exact (Qlt_not_le _ _ H E).
Qed.

Lemma greater_zero_false x : x == 0 -> greater x 0 = false.
Proof.
  intros H. destruct (greater x 0) eqn:E; [|reflexivity].
  apply greater_spec in E. rewrite H in E. exfalso. exact (Qlt_irrefl 0 E).
Qed.

Lemma included_spec self m : In m (included self) <-> 0 < weight self m.
Proof.
  unfold included. rewrite filter_In, greater_spec. split; [tauto|].
  intros H. split; [|exact H]. unfold all_terms. destruct m; simpl; tauto.
Qed.

(** The six conditionals of [loss] are the weighted sum over the included
    terms. *)
Lemma loss_refines self log : loss self log = weighted_sum self (included self) 0 log.
Proof.
  unfold loss, included, all_terms. cbn [filter weight].
  destruct (greater (mean_weight self) 0), (greater (variation_weight self) 0),
    (greater (ms_ssim_weight self) 0), (greater (masked_mean_weight self) 0),
    (greater (masked_variation_weight self) 0),
    (greater (masked_ms_ssim_weight self) 0);
    cbn [weighted_sum weight]; unfold tbind, call, tret;
    repeat match goal with
           | |- context [method ?m self] => destruct (method m self)
           end;
    reflexivity.
Qed.

(** What a weighted sum calls is a prefix of its terms, and all of them
    when it returns. *)
Lemma weighted_sum_log self terms : forall result log,
  exists called rest,
    snd (weighted_sum self terms result log) = log ++ called /\
    terms = called ++ rest /\
    (returns (fst (weighted_sum self terms result log)) -> rest = []).
Proof.
  induction terms as [|m terms IH]; intros result log; cbn [weighted_sum].
  - exists [], []. unfold tret. simpl. rewrite app_nil_r. auto.
  - unfold tbind, call. destruct (method m self) as [v|e].
    + destruct (IH (add_scaled result (weight self m) v) (log ++ [m]))
        as (called & rest & Hlog & Hterms & Hret).
      exists (m :: called), rest. rewrite Hlog, <- app_assoc. simpl.
      split; [reflexivity|]. split; [now rewrite Hterms|exact Hret].
    + exists [m], terms. simpl. split; [reflexivity|]. split; [reflexivity|].
      intros [a Ha]. discriminate.
Qed.

(** A weighted sum returns only when each of its terms does. *)
Lemma weighted_sum_returns self terms : forall result log,
  returns (fst (weighted_sum self terms result log)) ->
  forall m, In m terms -> returns (method m self).
Proof.
  induction terms as [|m terms IH]; intros result log Hret m' Hin; [now elim Hin|].
  cbn [weighted_sum] in Hret. unfold tbind, call in Hret.
  destruct (method m self) as [v|e] eqn:Hm.
  - destruct Hin as [<-|Hin]; [rewrite Hm; now exists v|].
    exact (IH _ _ Hret _ Hin).
  - destruct Hret as [a Ha]. discriminate.
Qed.

(** Its value when each of its terms returns. *)
Lemma weighted_sum_value self (value : term -> Q) terms : forall result log,
  (forall m, In m terms -> method m self = Returned (value m)) ->
  weighted_sum self terms result log
  = (Returned (fold_left (fun acc m => add_scaled acc (weight self m) (value m))
                 terms result),
     log ++ terms).
Proof.
  induction terms as [|m terms IH]; intros result log Hvalue; cbn [weighted_sum fold_left].
  - unfold tret. now rewrite app_nil_r.
  - unfold tbind, call. rewrite (Hvalue m) by now left.
    rewrite IH by (intros m' Hm'; apply Hvalue; now right).
    now rewrite <- app_assoc.
Qed.

(** C3: loss is the weighted sum of exactly the terms whose weight is
    strictly positive, in the order mean, variation, ms_ssim, masked mean,
    masked variation, masked ms_ssim; the term methods it calls are a
    prefix of those terms and never one of another term, all of them when
    it returns; when each included term returns a value the result is the
    sum, from 0.0, of weight times value; and with the six weights equal to
    zero it returns 0.0 having called no term method. *)
Theorem loss_weighted_sum (self : t) (log : list term) :
  loss self log = weighted_sum self (included self) 0 log /\
  (forall m, In m (included self) <-> 0 < weight self m) /\
  (exists called rest,
     snd (loss self log) = log ++ called /\
     included self = called ++ rest /\
     (returns (fst (loss self log)) -> rest = [])) /\
  (forall value : term -> Q,
     (forall m, 0 < weight self m -> method m self = Returned (value m)) ->
     loss self log
     = (Returned (fold_left (fun acc m => add_scaled acc (weight self m) (value m))
                    (included self) 0),
        log ++ included self)) /\
  ((forall m, weight self m == 0) -> loss self log = (Returned 0, log)).
Proof.
  split; [apply loss_refines|]. split; [apply included_spec|].
  rewrite loss_refines. split; [apply weighted_sum_log|]. split.
  - intros value Hvalue. apply weighted_sum_value.
    intros m Hm. apply Hvalue. now apply included_spec.
  - intros Hzero. assert (Hnone : included self = []).
    { unfold included, all_terms. cbn [filter].
      rewrite !greater_zero_false by apply Hzero. reflexivity. }
    rewrite Hnone. reflexivity.
Qed.

(** With a positive weight on the masked ms_ssim term the loss does not
    return. *)
Lemma loss_with_masked_ms_ssim_weight self log :
  0 < masked_ms_ssim_weight self -> ~ returns (fst (loss self log)).
Proof.
  intros Hw Hret. rewrite loss_refines in Hret.
  destruct (@weighted_sum_returns self _ _ _ Hret MaskedMsSsim) as [v Hv].
  - now apply included_spec.
  - discriminate.
Qed.

(** C9: a call of masked_ms_ssim raises the exception with the message Not
    implemented on every feature, so it returns no value, 0.0 or other; and
    a loss that includes the term, its weight being strictly positive, does
    not return either. *)
Theorem masked_ms_ssim_raises (self : t) :
  masked_ms_ssim self = Raised (Exception "Not implemented") /\
  raises (masked_ms_ssim self) /\
  ~ returns (masked_ms_ssim self) /\
  (forall log, 0 < masked_ms_ssim_weight self -> ~ returns (fst (loss self log))).
Proof.
  split; [reflexivity|]. split; [now exists (Exception "Not implemented")|].
  split.
  - intros [v Hv]. discriminate.
  - intros log Hw. now apply loss_with_masked_ms_ssim_weight.
Qed.

(** What [initialize] leaves on a direct or an indirect pass: the four
    attributes, with [mask_sum] the sum of [mask]. *)
Lemma initialize_mask self sources predictions targets initialized :
  initialize self sources predictions targets = Returned initialized ->
  is_direct_or_indirect_render_pass (name self) = true ->
  exists p g m,
    predicted initialized = Some p /\ target initialized = Some g /\
    mask initialized = Some m /\ mask_sum initialized = Some (tf_reduce_sum m).
Proof.
  unfold initialize. intros Hinit Hpass.
  destruct (dict_get predictions _) as [p|]; [|discriminate].
  destruct (dict_get targets (target_feature_name (name self))) as [g|]; [|discriminate].
  cbn [bind] in Hinit. cbn [name set_predicted_target] in Hinit. rewrite Hpass in Hinit.
  destruct (dict_get targets _) as [c|]; [|discriminate].
  cbn [bind] in Hinit. injection Hinit as <-.
  exists p, g, (non_zero_mask c). repeat split.
Qed.

Lemma reduce_sum_divide a c : ~ c == 0 ->
  tf_reduce_sum (tf_divide a c) == tf_reduce_sum a / c.
Proof.
  intros Hc. unfold tf_reduce_sum, tf_divide.
  induction a as [|x a IH]; simpl.
  - field. exact Hc.
  - rewrite IH. field. exact Hc.
Qed.

Lemma reduce_sum_zero m : Forall (fun x => x == 0) m -> tf_reduce_sum m == 0.
Proof.
  unfold tf_reduce_sum. induction 1 as [|x m Hx _ IH]; simpl; [reflexivity|].
  rewrite Hx, IH. reflexivity.
Qed.

(** C4: on a feature that has its four attributes, masked_mean returns
    exactly 0 when mask_sum is zero, and when mask_sum is strictly positive
    it returns the sum of the entries of difference times mask divided by
    mask_sum, which is the sum of difference times mask, divided by
    mask_sum; a mask of zeros, whose mask_sum initialize computes as its
    sum, is one with mask_sum zero. *)
Theorem masked_mean_guard (self : t) (p g m : tensor) (s : Q) :
  predicted self = Some p -> target self = Some g ->
  mask self = Some m -> mask_sum self = Some s ->
  (s == 0 -> masked_mean self = Returned 0) /\
  (0 < s ->
   masked_mean self
   = Returned (tf_reduce_sum
                 (tf_divide (tf_multiply (LossDifference_difference p g) m) s)) /\
   tf_reduce_sum (tf_divide (tf_multiply (LossDifference_difference p g) m) s)
   == tf_reduce_sum (tf_multiply (LossDifference_difference p g) m) / s) /\
  (Forall (fun x => x == 0) m -> s = tf_reduce_sum m ->
   masked_mean self = Returned 0).
Proof.
  intros Hp Hg Hm Hs.
  assert (Hcall : masked_mean self
                  = Returned (if greater s 0
                              then tf_reduce_sum
                                     (tf_divide
                                        (tf_multiply (LossDifference_difference p g) m) s)
                              else 0)).
  { unfold masked_mean, difference. rewrite Hs, Hp, Hg, Hm. reflexivity. }
  split; [|split].
  - intros Hzero. rewrite Hcall, (greater_zero_false Hzero). reflexivity.
  - intros Hpos. rewrite Hcall, (proj2 (greater_spec s 0) Hpos).
    split; [reflexivity|]. apply reduce_sum_divide.
    intros Hzero. rewrite Hzero in Hpos. exact (Qlt_irrefl 0 Hpos).
  - intros Hzeros ->. rewrite Hcall, (greater_zero_false (reduce_sum_zero Hzeros)).
    reflexivity.
Qed.

(** *** Further properties of the loss terms *)


(** The value of a term that needs no mask, on [predicted] and [target]. *)
Definition unmasked_value (p g : tensor) (m : term) : Q :=
  match m with
  | Mean => tf_reduce_mean (LossDifference_difference p g)
  | Variation => tf_reduce_mean (variation_differences p g)
  | MsSsim => 1 - ssim_multiscale_mean p g
  | MaskedMean | MaskedVariation | MaskedMsSsim => 0
  end.

(** What [initialize] returns: the feature with its prediction and its
    target, and on a direct or indirect pass with the mask of the color
    pass and its sum. *)
Lemma initialize_returned self sources predictions targets initialized :
  initialize self sources predictions targets = Returned initialized ->
  exists p g,
    dict_find predictions (prediction_feature_name (name self)) = Some p /\
    dict_find targets (target_feature_name (name self)) = Some g /\
    if is_direct_or_indirect_render_pass (name self)
    then exists c,
           dict_find targets
             (target_feature_name (direct_or_indirect_to_color_render_pass (name self)))
           = Some c /\
           initialized
           = set_mask (set_predicted_target self p g) (non_zero_mask c)
               (tf_reduce_sum (non_zero_mask c))
    else initialized = set_predicted_target self p g.
Proof.
  unfold initialize, dict_get. intros Hinit.
  destruct (dict_find predictions _) as [p|]; [|discriminate].
  destruct (dict_find targets (target_feature_name (name self))) as [g|];
    [|discriminate].
  cbn [bind] in Hinit. cbn [name set_predicted_target] in Hinit.
  exists p, g. split; [reflexivity|]. split; [reflexivity|].
  destruct (is_direct_or_indirect_render_pass (name self)).
  - destruct (dict_find targets _) as [c|]; [|discriminate].
    cbn [bind] in Hinit. injection Hinit as <-. now exists c.
  - now injection Hinit as <-.
Qed.

Lemma not_greater_zero x : x <= 0 -> greater x 0 = false.
Proof.
  intros H. unfold greater. now rewrite (proj2 (Qle_bool_iff _ _) H).
Qed.

(** X7: a feature whose three masked weights are not positive needs no
    mask: once initialize has returned, on any pass, loss returns; it
    calls the included ones of mean, variation and ms_ssim and no masked
    term, and its value is the sum, from 0.0, of weight times the value of
    the term on the prediction and the target that initialize has looked
    up. *)
Theorem loss_without_masked_weights (self initialized : t)
    (sources predictions targets : dict tensor) :
  initialize self sources predictions targets = Returned initialized ->
  masked_mean_weight self <= 0 -> masked_variation_weight self <= 0 ->
  masked_ms_ssim_weight self <= 0 ->
  exists p g,
    dict_find predictions (prediction_feature_name (name self)) = Some p /\
    dict_find targets (target_feature_name (name self)) = Some g /\
    incl (included self) [Mean; Variation; MsSsim] /\
    forall log,
      loss initialized log
      = (Returned (fold_left (fun acc m => add_scaled acc (weight self m)
                                             (unmasked_value p g m))
                     (included self) 0),
         log ++ included self).
Proof.
  intros Hinit Hmm Hmv Hms.
  destruct (initialize_returned _ _ _ _ Hinit) as (p & g & Hp & Hg & Hform).
  exists p, g. split; [exact Hp|]. split; [exact Hg|].
  assert (Hincl : incl (included self) [Mean; Variation; MsSsim]).
  { intros m Hm. apply included_spec in Hm. destruct m; cbn in *; auto;
      exfalso; eapply Qlt_not_le; eauto. }
  split; [exact Hincl|]. intros log. rewrite loss_refines.
  assert (Hsame : included initialized = included self
                  /\ forall m, weight initialized m = weight self m).
  { destruct (is_direct_or_indirect_render_pass (name self)).
    - destruct Hform as (c & _ & ->). split; [reflexivity|]. intros []; reflexivity.
    - subst initialized. split; [reflexivity|]. intros []; reflexivity. }
  destruct Hsame as [Hincluded Hweight]. rewrite Hincluded.
  rewrite (@weighted_sum_value initialized (unmasked_value p g)).
  - f_equal. f_equal. clear - Hweight. generalize 0. induction (included self) as [|m l IH];
      intros acc; cbn [fold_left]; [reflexivity|]. now rewrite IH, Hweight.
  - intros m Hm. apply Hincl in Hm.
    assert (Hpg : predicted initialized = Some p /\ target initialized = Some g).
    { destruct (is_direct_or_indirect_render_pass (name self)).
      - destruct Hform as (c & _ & ->). split; reflexivity.
      - subst initialized. split; reflexivity. }
    destruct Hpg as [Hpred Htarget].
    destruct Hm as [<-|[<-|[<-|[]]]]; cbn [method unmasked_value];
      unfold mean, variation, ms_ssim, difference, variation_difference;
      rewrite Hpred, Htarget; reflexivity.
Qed.

(** X8: a positive masked mean weight on a pass that is neither direct nor
    indirect is fatal: initialize gives such a feature no mask, and loss,
    after the terms without mask that it includes, stops on the missing
    attribute mask_sum. *)
Theorem loss_masked_mean_without_mask (self initialized : t)
    (sources predictions targets : dict tensor) (log : list term) :
  initialize self sources predictions targets = Returned initialized ->
  is_direct_or_indirect_render_pass (name self) = false ->
  mask_sum self = None ->
  0 < masked_mean_weight self ->
  fst (loss initialized log) = Raised (AttributeError "mask_sum").
Proof.
  intros Hinit Hpass Hnone Hweight.
  destruct (initialize_returned _ _ _ _ Hinit) as (p & g & _ & _ & Hform).
  rewrite Hpass in Hform. subst initialized.
  unfold loss. cbn [mean_weight variation_weight ms_ssim_weight masked_mean_weight
                    set_predicted_target].
  rewrite (proj2 (greater_spec _ _) Hweight).
  unfold tbind, call, tret.
  cbn [method mean variation ms_ssim masked_mean difference variation_difference
       attribute bind predicted target mask_sum set_predicted_target].
  assert (Hmasked : masked_mean (set_predicted_target self p g)
                    = Raised (AttributeError "mask_sum")).
  { unfold masked_mean. cbn [mask_sum set_predicted_target]. now rewrite Hnone. }
  rewrite Hmasked.
  destruct (greater (mean_weight self) 0), (greater (variation_weight self) 0),
    (greater (ms_ssim_weight self) 0); reflexivity.
Qed.

(** The loss of a feature that holds a prediction and a target and has no
    positive masked weight. *)
Lemma loss_unmasked (self : t) (p g : tensor) :
  predicted self = Some p -> target self = Some g ->
  masked_mean_weight self <= 0 -> masked_variation_weight self <= 0 ->
  masked_ms_ssim_weight self <= 0 ->
  incl (included self) [Mean; Variation; MsSsim] /\
  forall log,
    loss self log
    = (Returned (fold_left (fun acc m => add_scaled acc (weight self m)
                                           (unmasked_value p g m))
                   (included self) 0),
       log ++ included self).
Proof.
  intros Hp Hg Hmm Hmv Hms.
  assert (Hincl : incl (included self) [Mean; Variation; MsSsim]).
  { intros m Hm. apply included_spec in Hm. destruct m; cbn in *; auto;
      exfalso; eapply Qlt_not_le; eauto. }
  split; [exact Hincl|]. intros log. rewrite loss_refines.
  apply weighted_sum_value. intros m Hm. apply Hincl in Hm.
  destruct Hm as [<-|[<-|[<-|[]]]]; cbn [method unmasked_value];
    unfold mean, variation, ms_ssim, difference, variation_difference;
    rewrite Hp, Hg; reflexivity.
Qed.

End Methods.

(** C4 on the sample feature under a mask that selects two entries. *)
Lemma masked_mean_guard_witness :
  (tf_reduce_sum [1; 0; 1] == 0 ->
   masked_mean sample_difference (sample_feature [1; 0; 1]) = Returned 0) /\
  (0 < tf_reduce_sum [1; 0; 1] ->
   masked_mean sample_difference (sample_feature [1; 0; 1])
   = Returned (tf_reduce_sum
                 (tf_divide
                    (tf_multiply (sample_difference [1; 2; 4] [1; 1; 1]) [1; 0; 1])
                    (tf_reduce_sum [1; 0; 1]))) /\
   tf_reduce_sum
     (tf_divide (tf_multiply (sample_difference [1; 2; 4] [1; 1; 1]) [1; 0; 1])
        (tf_reduce_sum [1; 0; 1]))
   == tf_reduce_sum (tf_multiply (sample_difference [1; 2; 4] [1; 1; 1]) [1; 0; 1])
      / tf_reduce_sum [1; 0; 1]) /\
  (Forall (fun x => x == 0) [1; 0; 1] ->
   tf_reduce_sum [1; 0; 1] = tf_reduce_sum [1; 0; 1] ->
   masked_mean sample_difference (sample_feature [1; 0; 1]) = Returned 0).
Proof.
  apply (@masked_mean_guard sample_difference (sample_feature [1; 0; 1])
           [1; 2; 4] [1; 1; 1] [1; 0; 1] (tf_reduce_sum [1; 0; 1]));
    reflexivity.
Defined.

(** C3 on a feature with six zero weights and no tensors at all. *)
Lemma loss_weighted_sum_witness :
  loss sample_difference sample_mean (fun _ _ => []) (fun _ _ => 0) zero_weights []
  = (Returned 0, []).
Proof.
  apply (proj2 (proj2 (proj2 (proj2
           (loss_weighted_sum sample_difference sample_mean
              (fun _ _ => []) (fun _ _ => 0) zero_weights []))))).
  intros m. destruct m; reflexivity.
Defined.

(** C9 on a feature whose only positive weight is that of masked
    ms_ssim. *)
Lemma masked_ms_ssim_raises_witness :
  masked_ms_ssim masked_ms_ssim_weighted = Raised (Exception "Not implemented") /\
  ~ returns (fst (loss sample_difference sample_mean (fun _ _ => []) (fun _ _ => 0)
                    masked_ms_ssim_weighted [])).
Proof.
  split.
  - apply (proj1 (masked_ms_ssim_raises sample_difference sample_mean
                    (fun _ _ => []) (fun _ _ => 0) masked_ms_ssim_weighted)).
  - apply (proj2 (proj2 (proj2 (masked_ms_ssim_raises sample_difference sample_mean
                    (fun _ _ => []) (fun _ _ => 0) masked_ms_ssim_weighted)))).
    reflexivity.
Defined.

(** The loss of the sample feature under a mask that selects the first and
    the last entry: the mean 4/3 and half of the masked mean 3/2, in all
    25/12, after two calls. *)
Example sample_loss :
  loss sample_difference sample_mean (fun _ _ => []) (fun _ _ => 0)
    (sample_feature [1; 0; 1]) []
  = (Returned (100 # 48), [Mean; MaskedMean]).
Proof. vm_compute. reflexivity. Qed.

(** *** Sample objects for the features that need no mask *)

(** A feature of the pass Emission, which is neither direct nor indirect,
    with the mean and the variation weighted and no masked weight. *)
Definition unmasked_feature : t :=
  {| name := "Emission";
     mean_weight := 1;
     variation_weight := 1 # 2;
     ms_ssim_weight := 0;
     masked_mean_weight := 0;
     masked_variation_weight := 0;
     masked_ms_ssim_weight := 0;
     predicted := None;
     target := None;
     mask := None;
     mask_sum := None |}.

(** The same pass with a masked mean weight. *)
Definition masked_without_mask : t :=
  {| name := "Emission";
     mean_weight := 1;
     variation_weight := 0;
     ms_ssim_weight := 0;
     masked_mean_weight := 1;
     masked_variation_weight := 0;
     masked_ms_ssim_weight := 0;
     predicted := None;
     target := None;
     mask := None;
     mask_sum := None |}.

Definition sample_prediction_name (name : string) : string :=
  ("prediction/" ++ name)%string.

Definition sample_target_name (name : string) : string :=
  ("target/" ++ name)%string.

Definition sample_is_direct_or_indirect (name : string) : bool :=
  String.eqb name "DiffuseDirect" || String.eqb name "DiffuseIndirect".

Definition sample_to_color (name : string) : string :=
  if sample_is_direct_or_indirect name then "Diffuse" else name.

Definition sample_non_zero_mask (color : tensor) : tensor :=
  map (fun x => if Qeq_bool x 0 then 0 else 1) color.

Definition sample_predictions : dict tensor :=
  [("prediction/Emission", [1; 2; 4])].

Definition sample_targets : dict tensor :=
  [("target/Emission", [1; 1; 1])].


(** X7 on the feature of the pass Emission: the mean 4/3 and half of a
    variation that stands at the same differences. *)
Lemma loss_without_masked_weights_witness :
  exists p g : tensor,
    dict_find sample_predictions (sample_prediction_name (name unmasked_feature))
    = Some p /\
    dict_find sample_targets (sample_target_name (name unmasked_feature)) = Some g /\
    incl (included unmasked_feature) [Mean; Variation; MsSsim] /\
    forall log,
      loss sample_difference sample_mean sample_difference (fun _ _ => 0)
        (set_predicted_target unmasked_feature [1; 2; 4] [1; 1; 1]) log
      = (Returned
           (fold_left
              (fun acc m =>
                 add_scaled acc (weight unmasked_feature m)
                   (unmasked_value sample_difference sample_mean sample_difference
                      (fun _ _ => 0) p g m))
              (included unmasked_feature) 0),
         log ++ included unmasked_feature).
Proof.
  apply (@loss_without_masked_weights sample_difference sample_mean
           sample_difference (fun _ _ => 0) sample_prediction_name sample_target_name
           sample_is_direct_or_indirect sample_to_color sample_non_zero_mask
           unmasked_feature (set_predicted_target unmasked_feature [1; 2; 4] [1; 1; 1])
           [] sample_predictions sample_targets).
  - reflexivity.
  - vm_compute. discriminate.
  - vm_compute. discriminate.
  - vm_compute. discriminate.
Defined.

(** X8 on the pass Emission with a masked mean weight. *)
Lemma loss_masked_mean_without_mask_witness :
  fst (loss sample_difference sample_mean sample_difference (fun _ _ => 0)
         (set_predicted_target masked_without_mask [1; 2; 4] [1; 1; 1]) [])
  = Raised (AttributeError "mask_sum").
Proof.
  apply (@loss_masked_mean_without_mask sample_difference sample_mean
           sample_difference (fun _ _ => 0) sample_prediction_name sample_target_name
           sample_is_direct_or_indirect sample_to_color sample_non_zero_mask
           masked_without_mask
           (set_predicted_target masked_without_mask [1; 2; 4] [1; 1; 1])
           [] sample_predictions sample_targets []); reflexivity.
Defined.

End BaseTrainingFeature.

(** ** The training driver: source index tuples *)

Module SourceIndexTuples.

(** [index in l] *)
Definition in_list (index : nat) (l : list nat) : bool := existsb (Nat.eqb index) l.

(** [l.sort()] on integers. *)
Fixpoint insert (x : nat) (l : list nat) : list nat :=
  match l with
  | [] => [x]
  | y :: rest => if x <=? y then x :: l else y :: insert x rest
  end.

Fixpoint sort (l : list nat) : list nat :=
  match l with
  | [] => []
  | x :: rest => insert x (sort rest)
  end.

(** The [while] loop that fills one tuple.  Each [random.randint(0,
    number_of_sources_per_example - 1)] takes the next of [draws], the
    numbers still to come from the generator; the loop goes around once
    per draw, and [None] says that it asked for more than [draws] holds. *)
Fixpoint sample_tuple (number_of_sources_per_target : nat) (tuple : list nat)
    (draws : list nat) : option (list nat * list nat) :=
  match draws with
  | [] =>
      if length tuple <? number_of_sources_per_target then None else Some (tuple, [])
  | index :: rest =>
      if length tuple <? number_of_sources_per_target
      then if negb (in_list index tuple)
           then sample_tuple number_of_sources_per_target (tuple ++ [index]) rest
           else sample_tuple number_of_sources_per_target tuple rest
      else Some (tuple, draws)
  end.

(** The [for] loop around it, [count] tuples. *)
Fixpoint sample_tuples (count number_of_sources_per_target : nat) (draws : list nat)
  : option (list (list nat)) :=
  match count with
  | O => Some []
  | S count' =>
      match sample_tuple number_of_sources_per_target [] draws with
      | None => None
      | Some (tuple, draws) =>
          match sample_tuples count' number_of_sources_per_target draws with
          | None => None
          | Some index_tuples => Some (tuple :: index_tuples)
          end
      end
  end.

(** The complete cycles [index = 0 .. number_of_sources_per_example - 1]. *)
Definition complete_tuple_sets (number_of_sources_per_example sets : nat)
  : list (list nat) :=
  concat (repeat (map (fun index => [index]) (seq 0 number_of_sources_per_example)) sets).

(** The remaining tuples, one draw each. *)
Definition remaining_tuples (count : nat) (draws : list nat) : option (list (list nat)) :=
  if count <=? length draws
  then Some (map (fun index => [index]) (firstn count draws))
  else None.

(** The two nested loops that collect [required_indices], then the sort. *)
Definition add_required (required_indices : list nat) (index : nat) : list nat :=
  if negb (in_list index required_indices)
  then required_indices ++ [index]
  else required_indices.

Definition required_indices (index_tuples : list (list nat)) : list nat :=
  sort (fold_left (fun required tuple => fold_left add_required tuple required)
          index_tuples []).

Definition source_index_tuples
    (number_of_sources_per_example number_of_source_index_tuples
     number_of_sources_per_target : nat) (draws : list nat)
  : option (outcome (list (list nat) * list nat)) :=
  if number_of_sources_per_example <? number_of_sources_per_target
  then Some (Raised (Exception
    "The source index tuples contain unique indices. That is not possible if there are fewer source examples than indices per tuple."))
  else
    let index_tuples :=
      if number_of_sources_per_target =? 1
      then
        let number_of_complete_tuple_sets :=
          number_of_source_index_tuples / number_of_sources_per_example in
        let number_of_remaining_tuples :=
          number_of_source_index_tuples mod number_of_sources_per_example in
        match remaining_tuples number_of_remaining_tuples draws with
        | None => None
        | Some remaining =>
            Some (complete_tuple_sets number_of_sources_per_example
                    number_of_complete_tuple_sets ++ remaining)
        end
      else sample_tuples number_of_source_index_tuples number_of_sources_per_target draws
    in
    match index_tuples with
    | None => None
    | Some index_tuples =>
        Some (Returned (index_tuples, required_indices index_tuples))
    end.

(** The draws that [random.randint(0, n - 1)] can return. *)
Definition in_range (n : nat) (draws : list nat) : Prop := Forall (fun index => index < n) draws.

(** A tuple of [d] pairwise distinct indices below [n]. *)
Definition distinct_tuple (n d : nat) (tuple : list nat) : Prop :=
  length tuple = d /\ NoDup tuple /\ in_range n tuple.

(** Draws that offer every index below [n] in turn, [count] times over. *)
Definition fair_draws (n count : nat) : list nat := concat (repeat (seq 0 n) count).

Lemma in_list_spec index l : in_list index l = true <-> In index l.
Proof.
  unfold in_list. rewrite existsb_exists. split.
  - intros (x & Hx & Heq). apply Nat.eqb_eq in Heq. now subst.
  - intros H. exists index. split; [exact H|apply Nat.eqb_refl].
Qed.

Lemma in_list_false index l : in_list index l = false <-> ~ In index l.
Proof.
  rewrite <- in_list_spec. destruct (in_list index l); split; congruence.
Qed.

Lemma sample_tuple_spec n d draws : forall tuple sampled rest,
  in_range n draws -> in_range n tuple -> NoDup tuple -> length tuple <= d ->
  sample_tuple d tuple draws = Some (sampled, rest) ->
  distinct_tuple n d sampled /\ in_range n rest.
Proof.
  induction draws as [|index draws IH]; intros tuple sampled rest Hdraws Htuple Hnodup Hlen;
    cbn [sample_tuple]; destruct (length tuple <? d) eqn:Hlt; try discriminate.
  - intros H. injection H as <- <-. apply Nat.ltb_ge in Hlt.
    split; [|constructor]. repeat split; [lia|assumption|assumption].
  - inversion Hdraws as [|? ? Hindex Hdraws']; subst. apply Nat.ltb_lt in Hlt.
    destruct (in_list index tuple) eqn:Hin; cbn [negb].
    + now apply IH.
    + apply IH; try assumption.
      * apply Forall_app. split; [assumption|]. now constructor.
      * apply in_list_false in Hin. apply NoDup_app; [assumption|constructor;[auto|constructor]|].
        intros x Hx [<-|[]]. contradiction.
      * rewrite length_app. simpl. lia.
  - intros H. injection H as <- <-. apply Nat.ltb_ge in Hlt.
    split; [|assumption]. repeat split; [lia|assumption|assumption].
Qed.

Lemma sample_tuples_spec n d count : forall draws index_tuples,
  in_range n draws ->
  sample_tuples count d draws = Some index_tuples ->
  length index_tuples = count /\ Forall (distinct_tuple n d) index_tuples.
Proof.
  induction count as [|count IH]; intros draws index_tuples Hdraws; cbn [sample_tuples].
  - intros H. injection H as <-. split; [reflexivity|constructor].
  - destruct (sample_tuple d [] draws) as [[tuple rest]|] eqn:Htuple; [|discriminate].
    destruct (sample_tuples count d rest) as [more|] eqn:Hmore; [|discriminate].
    intros H. injection H as <-.
    destruct (@sample_tuple_spec n d draws [] tuple rest Hdraws
                (Forall_nil _) (NoDup_nil _) (Nat.le_0_l _) Htuple)
      as [Hdistinct Hrest].
    destruct (IH rest more Hrest Hmore) as [Hcount Hall].
    split; [simpl; now rewrite Hcount|now constructor].
Qed.

Lemma fair_draws_in_range n count : in_range n (fair_draws n count).
Proof.
  unfold fair_draws, in_range. apply Forall_concat, Forall_forall.
  intros l Hl. apply repeat_spec in Hl. subst l. apply Forall_forall.
  intros x Hx. apply in_seq in Hx. lia.
Qed.

Lemma nodup_snoc (tuple : list nat) index :
  NoDup tuple -> in_list index tuple = false -> NoDup (tuple ++ [index]).
Proof.
  intros Hnodup Hin. apply in_list_false in Hin.
  apply NoDup_app; [exact Hnodup|constructor; [auto|constructor]|].
  intros x Hx [<-|[]]. contradiction.
Qed.

(** Offered the indices [k .. n - 1] after it has seen those below [k],
    the loop stops before they run out: there are at least [d] of them. *)
Lemma sample_tuple_cycle n d j : forall k tuple post,
  d <= n -> k + j = n -> NoDup tuple -> (forall i, i < k -> In i tuple) ->
  exists sampled left,
    sample_tuple d tuple (seq k j ++ post) = Some (sampled, left ++ post).
Proof.
  induction j as [|j IH]; intros k tuple post Hd Hk Hnodup Hseen.
  - rewrite Nat.add_0_r in Hk. subst k. cbn [seq app].
    assert (Hincl : incl (seq 0 n) tuple).
    { intros i Hi. apply in_seq in Hi. apply Hseen. lia. }
    pose proof (NoDup_incl_length (seq_NoDup n 0) Hincl) as Hfull.
    rewrite length_seq in Hfull.
    exists tuple, [].
    destruct post as [|x post]; cbn [sample_tuple app];
      rewrite (proj2 (Nat.ltb_ge _ _)) by lia; reflexivity.
  - cbn [seq app sample_tuple]. destruct (length tuple <? d).
    + destruct (in_list k tuple) eqn:Hin; cbn [negb].
      * apply IH; try assumption; [lia|].
        intros i Hi. destruct (Nat.eq_dec i k) as [->|Hne].
        -- now apply in_list_spec.
        -- apply Hseen. lia.
      * apply IH; try assumption; [lia|now apply nodup_snoc|].
        intros i Hi. apply in_or_app. destruct (Nat.eq_dec i k) as [->|Hne].
        -- right. now left.
        -- left. apply Hseen. lia.
    + exists tuple, (k :: seq (S k) j). reflexivity.
Qed.

(** So it stops on any draws that go on with such a cycle. *)
Lemma sample_tuple_completes n d pre : forall tuple post,
  d <= n -> NoDup tuple ->
  exists sampled left,
    sample_tuple d tuple (pre ++ seq 0 n ++ post) = Some (sampled, left ++ post).
Proof.
  induction pre as [|index pre IH]; intros tuple post Hd Hnodup.
  - cbn [app]. apply (@sample_tuple_cycle n d n 0 tuple post Hd eq_refl Hnodup).
    intros i Hi. lia.
  - cbn [app sample_tuple]. destruct (length tuple <? d).
    + destruct (in_list index tuple) eqn:Hin; cbn [negb].
      * now apply IH.
      * apply IH; [exact Hd|now apply nodup_snoc].
    + exists tuple, (index :: pre ++ seq 0 n). cbn [app].
      now rewrite <- app_assoc.
Qed.

Lemma sample_tuples_complete n d count : forall pre,
  d <= n ->
  exists index_tuples,
    sample_tuples count d (pre ++ fair_draws n count) = Some index_tuples.
Proof.
  unfold fair_draws.
  induction count as [|count IH]; intros pre Hd; cbn [sample_tuples repeat concat].
  - now exists [].
  - destruct (@sample_tuple_completes n d pre [] (concat (repeat (seq 0 n) count))
                Hd (NoDup_nil _)) as (sampled & left & Hsampled).
    rewrite Hsampled. destruct (IH left Hd) as (more & Hmore). rewrite Hmore.
    now exists (sampled :: more).
Qed.

(** C5: for an arity d above one, source_index_tuples raises exactly when
    N is below d; whenever it returns, N is at least d and it returns M
    tuples, each of exactly d pairwise distinct indices below N; and when N
    is at least d the rejection loop can always come to its end: whatever
    the generator has drawn so far, there are further draws below N on
    which the call returns. *)
Theorem source_index_tuples_distinct (N M d : nat) (draws : list nat) :
  1 < d -> in_range N draws ->
  (N < d <-> exists e, source_index_tuples N M d draws = Some (Raised e)) /\
  (forall index_tuples required,
     source_index_tuples N M d draws = Some (Returned (index_tuples, required)) ->
     d <= N /\ length index_tuples = M /\
     Forall (distinct_tuple N d) index_tuples) /\
  (d <= N ->
   exists further index_tuples required,
     in_range N further /\
     source_index_tuples N M d (draws ++ further)
     = Some (Returned (index_tuples, required))).
Proof.
  intros Hd Hdraws. unfold source_index_tuples.
  assert (Harity : (d =? 1) = false) by (apply Nat.eqb_neq; lia).
  rewrite Harity. split; [|split].
  - destruct (N <? d) eqn:Hlt.
    + apply Nat.ltb_lt in Hlt. split; [intros _; eexists; reflexivity|auto].
    + apply Nat.ltb_ge in Hlt. split; [lia|].
      intros [e He]. destruct (sample_tuples M d draws); discriminate.
  - intros index_tuples required. destruct (N <? d) eqn:Hlt; [discriminate|].
    apply Nat.ltb_ge in Hlt.
    destruct (sample_tuples M d draws) as [sampled|] eqn:Hs; [|discriminate].
    intros H. injection H as <- _.
    destruct (@sample_tuples_spec N d M draws sampled Hdraws Hs). auto.
  - intros Hle. destruct (@sample_tuples_complete N d M draws Hle) as (sampled & Hs).
    exists (fair_draws N M), sampled, (required_indices sampled).
    split; [apply fair_draws_in_range|].
    rewrite (proj2 (Nat.ltb_ge N d) Hle), Hs. reflexivity.
Qed.

(** C5 on four sources, three tuples of arity two. *)
Lemma source_index_tuples_distinct_witness :
  (4 < 2 <-> exists e, source_index_tuples 4 3 2 [1; 1; 3; 0; 0; 2; 2; 1] = Some (Raised e)) /\
  (forall index_tuples required,
     source_index_tuples 4 3 2 [1; 1; 3; 0; 0; 2; 2; 1]
     = Some (Returned (index_tuples, required)) ->
     2 <= 4 /\ length index_tuples = 3 /\
     Forall (distinct_tuple 4 2) index_tuples) /\
  (2 <= 4 ->
   exists further index_tuples required,
     in_range 4 further /\
     source_index_tuples 4 3 2 ([1; 1; 3; 0; 0; 2; 2; 1] ++ further)
     = Some (Returned (index_tuples, required))).
Proof.
  apply (@source_index_tuples_distinct 4 3 2 [1; 1; 3; 0; 0; 2; 2; 1]).
  - lia.
  - unfold in_range. repeat constructor.
Defined.

(** The run behind the witness: the second draw repeats the first and is
    thrown away, as is the fifth. *)
Example source_index_tuples_rejects :
  source_index_tuples 4 3 2 [1; 1; 3; 0; 0; 2; 2; 1]
  = Some (Returned ([[1; 3]; [0; 2]; [2; 1]], [0; 1; 2; 3])).
Proof. reflexivity. Qed.

Example source_index_tuples_raises :
  source_index_tuples 1 3 2 [0; 0; 0]
  = Some (Raised (Exception
      "The source index tuples contain unique indices. That is not possible if there are fewer source examples than indices per tuple.")).
Proof. reflexivity. Qed.

(** *** The sort and the required indices *)

Lemma insert_perm x l : Permutation (insert x l) (x :: l).
Proof.
  induction l as [|y l IH]; simpl; [reflexivity|].
  destruct (x <=? y); [reflexivity|].
  rewrite IH. apply perm_swap.
Qed.

Lemma sort_perm l : Permutation (sort l) l.
Proof.
  induction l as [|x l IH]; simpl; [reflexivity|].
  rewrite insert_perm. now constructor.
Qed.

Lemma insert_sorted x l : StronglySorted le l -> StronglySorted le (insert x l).
Proof.
  induction 1 as [|y l Hsorted IH Hall]; simpl.
  - repeat constructor.
  - destruct (x <=? y) eqn:Hle.
    + apply Nat.leb_le in Hle. constructor; [now constructor|].
      constructor; [exact Hle|]. eapply Forall_impl; [|exact Hall].
      intros z Hz. lia.
    + apply Nat.leb_gt in Hle. constructor; [exact IH|].
      apply Forall_forall. intros z Hz.
      apply (Permutation_in _ (insert_perm x l)) in Hz.
      destruct Hz as [<-|Hz]; [lia|].
      rewrite Forall_forall in Hall. now apply Hall.
Qed.

Lemma sort_sorted l : StronglySorted le (sort l).
Proof.
  induction l as [|x l IH]; simpl; [constructor|now apply insert_sorted].
Qed.

Lemma sorted_nodup_strict l : StronglySorted le l -> NoDup l -> StronglySorted lt l.
Proof.
  induction 1 as [|x l Hsorted IH Hall]; intros Hnodup; [constructor|].
  inversion Hnodup as [|? ? Hx Hl]; subst. constructor; [now apply IH|].
  rewrite Forall_forall in Hall |- *. intros y Hy.
  specialize (Hall y Hy). assert (x <> y) by (intros ->; contradiction). lia.
Qed.

Lemma add_required_spec required index :
  NoDup required ->
  NoDup (add_required required index) /\
  (forall i, In i (add_required required index) <-> In i required \/ i = index).
Proof.
  intros Hnodup. unfold add_required.
  destruct (in_list index required) eqn:Hin; cbn [negb].
  - apply in_list_spec in Hin. split; [exact Hnodup|].
    intros i. split; [auto|]. intros [H| ->]; assumption.
  - apply in_list_false in Hin. split.
    + apply NoDup_app; [exact Hnodup|constructor; [auto|constructor]|].
      intros x Hx [<-|[]]. contradiction.
    + intros i. rewrite in_app_iff. simpl. split.
      * intros [H|[<-|[]]]; auto.
      * intros [H| ->]; auto.
Qed.

Lemma add_required_tuple tuple : forall required,
  NoDup required ->
  NoDup (fold_left add_required tuple required) /\
  (forall i, In i (fold_left add_required tuple required)
             <-> In i required \/ In i tuple).
Proof.
  induction tuple as [|index tuple IH]; intros required Hnodup; cbn [fold_left].
  - split; [exact Hnodup|]. intros i. simpl. tauto.
  - destruct (add_required_spec index Hnodup) as [Hn Hin].
    destruct (IH _ Hn) as [Hn' Hin']. split; [exact Hn'|].
    intros i. rewrite Hin', Hin. simpl. split; intros H; intuition auto.
Qed.

Lemma add_required_tuples index_tuples : forall required,
  NoDup required ->
  NoDup (fold_left (fun required tuple => fold_left add_required tuple required)
           index_tuples required) /\
  (forall i, In i (fold_left (fun required tuple => fold_left add_required tuple required)
                     index_tuples required)
             <-> In i required \/ exists tuple, In tuple index_tuples /\ In i tuple).
Proof.
  induction index_tuples as [|tuple index_tuples IH]; intros required Hnodup;
    cbn [fold_left].
  - split; [exact Hnodup|]. intros i. split; [auto|].
    intros [H|(tuple & [] & _)]. exact H.
  - destruct (add_required_tuple tuple Hnodup) as [Hn Hin].
    destruct (IH _ Hn) as [Hn' Hin']. split; [exact Hn'|].
    intros i. rewrite Hin', Hin. split.
    + intros [[H|H]|(t & Ht & Hi)]; auto.
      * right. exists tuple. split; [now left|exact H].
      * right. exists t. split; [now right|exact Hi].
    + intros [H|(t & [<-|Ht] & Hi)]; auto.
      right. now exists t.
Qed.

(** [required_indices] is strictly increasing, so sorted and free of
    duplicates, and holds the indices of the tuples and no other. *)
Lemma required_indices_spec index_tuples :
  StronglySorted lt (required_indices index_tuples) /\
  (forall i, In i (required_indices index_tuples)
             <-> exists tuple, In tuple index_tuples /\ In i tuple).
Proof.
  unfold required_indices.
  destruct (@add_required_tuples index_tuples [] (NoDup_nil _)) as [Hnodup Hin].
  split.
  - apply sorted_nodup_strict; [apply sort_sorted|].
    eapply Permutation_NoDup; [|exact Hnodup]. symmetry. apply sort_perm.
  - intros i. split.
    + intros H. apply (Permutation_in _ (sort_perm _)) in H.
      apply Hin in H. destruct H as [[]|H]. exact H.
    + intros H. apply (Permutation_in _ (Permutation_sym (sort_perm _))).
      apply Hin. now right.
Qed.

(** *** The complete cycles *)

Lemma concat_singletons (l : list nat) : concat (map (fun index => [index]) l) = l.
Proof. induction l as [|x l IH]; simpl; [reflexivity|now rewrite IH]. Qed.

Lemma complete_tuple_sets_concat n sets :
  concat (complete_tuple_sets n sets) = concat (repeat (seq 0 n) sets).
Proof.
  unfold complete_tuple_sets. induction sets as [|sets IH]; cbn [repeat concat].
  - reflexivity.
  - now rewrite concat_app, IH, concat_singletons.
Qed.

Lemma complete_tuple_sets_length n sets :
  length (complete_tuple_sets n sets) = sets * n.
Proof.
  unfold complete_tuple_sets. induction sets as [|sets IH]; cbn [repeat concat].
  - reflexivity.
  - rewrite length_app, IH, length_map, length_seq. simpl. lia.
Qed.

Lemma complete_tuple_sets_count n sets index :
  index < n ->
  count_occ Nat.eq_dec (concat (complete_tuple_sets n sets)) index = sets.
Proof.
  intros Hindex. rewrite complete_tuple_sets_concat.
  induction sets as [|sets IH]; cbn [repeat concat]; [reflexivity|].
  rewrite count_occ_app, IH.
  assert (Hone : count_occ Nat.eq_dec (seq 0 n) index = 1).
  { apply NoDup_count_occ'; [apply seq_NoDup|]. apply in_seq. lia. }
  rewrite Hone. reflexivity.
Qed.

Lemma complete_tuple_sets_distinct n sets :
  Forall (distinct_tuple n 1) (complete_tuple_sets n sets).
Proof.
  unfold complete_tuple_sets. apply Forall_concat, Forall_forall.
  intros l Hl. apply repeat_spec in Hl. subst l. apply Forall_forall.
  intros tuple Htuple. apply in_map_iff in Htuple. destruct Htuple as (i & <- & Hi).
  apply in_seq in Hi. repeat split.
  - repeat constructor. auto.
  - repeat constructor. lia.
Qed.

Lemma in_firstn {A : Type} (x : A) count : forall l, In x (firstn count l) -> In x l.
Proof.
  induction count as [|count IH]; intros [|y l]; simpl; try tauto.
  intros [H|H]; [now left|right; now apply IH].
Qed.

Lemma remaining_tuples_distinct n count draws :
  in_range n draws ->
  Forall (distinct_tuple n 1) (map (fun index => [index]) (firstn count draws)).
Proof.
  intros Hdraws. apply Forall_forall. intros tuple Htuple.
  apply in_map_iff in Htuple. destruct Htuple as (i & <- & Hi).
  apply in_firstn in Hi. unfold in_range in Hdraws. rewrite Forall_forall in Hdraws.
  repeat split.
  - repeat constructor. auto.
  - repeat constructor. now apply Hdraws.
Qed.

(** C6: with arity one and at least one source per example, on draws below
    N that cover the remainder, source_index_tuples returns the M / N
    complete cycles 0 .. N - 1 of singleton tuples followed by one
    singleton per remaining slot, filled with the next draws: M singleton
    tuples of indices below N in all.  When M is k times N there is no
    remainder, the tuples are the k cycles alone, and every index below N
    occurs exactly k times in them.  The required indices are strictly
    increasing, so sorted and free of duplicates, they are below N, and
    they are exactly the indices that occur in some tuple.  (That the draws
    are uniform is a matter of the generator and is not stated.) *)
Theorem source_index_tuples_round_robin (N M : nat) (draws : list nat) :
  0 < N -> in_range N draws -> M mod N <= length draws ->
  exists index_tuples required,
    source_index_tuples N M 1 draws = Some (Returned (index_tuples, required)) /\
    index_tuples
    = complete_tuple_sets N (M / N)
      ++ map (fun index => [index]) (firstn (M mod N) draws) /\
    length index_tuples = M /\
    Forall (distinct_tuple N 1) index_tuples /\
    (forall k, M = k * N ->
       index_tuples = complete_tuple_sets N k /\
       forall index, index < N ->
         count_occ Nat.eq_dec (concat index_tuples) index = k) /\
    StronglySorted lt required /\
    in_range N required /\
    (forall index, In index required
                   <-> exists tuple, In tuple index_tuples /\ In index tuple).
Proof.
  intros HN Hdraws Hsupply.
  set (index_tuples := complete_tuple_sets N (M / N)
                       ++ map (fun index => [index]) (firstn (M mod N) draws)).
  assert (Hall : Forall (distinct_tuple N 1) index_tuples).
  { apply Forall_app. split;
      [apply complete_tuple_sets_distinct|now apply remaining_tuples_distinct]. }
  destruct (required_indices_spec index_tuples) as [Hsorted Hin].
  exists index_tuples, (required_indices index_tuples).
  split; [|split; [reflexivity|split; [|split; [exact Hall|split; [|split; [exact Hsorted|split; [|exact Hin]]]]]]].
  - unfold source_index_tuples, remaining_tuples.
    rewrite (proj2 (Nat.ltb_ge N 1)) by lia. cbn [Nat.eqb].
    rewrite (proj2 (Nat.leb_le _ _) Hsupply). reflexivity.
  - unfold index_tuples.
    rewrite length_app, complete_tuple_sets_length, length_map, length_firstn.
    rewrite Nat.min_l by exact Hsupply.
    pose proof (Nat.div_mod_eq M N). lia.
  - intros k ->. unfold index_tuples.
    rewrite Nat.div_mul by lia. rewrite Nat.Div0.mod_mul. cbn [firstn map].
    rewrite app_nil_r. split; [reflexivity|].
    intros index Hindex. now apply complete_tuple_sets_count.
  - unfold in_range. apply Forall_forall. intros index Hindex.
    apply Hin in Hindex. destruct Hindex as (tuple & Htuple & Hi).
    rewrite Forall_forall in Hall. destruct (Hall tuple Htuple) as (_ & _ & Hrange).
    unfold in_range in Hrange. rewrite Forall_forall in Hrange. now apply Hrange.
Qed.

(** C6 on three sources and seven tuples: two cycles and one draw. *)
Lemma source_index_tuples_round_robin_witness :
  exists index_tuples required,
    source_index_tuples 3 7 1 [2; 0] = Some (Returned (index_tuples, required)) /\
    index_tuples
    = complete_tuple_sets 3 (7 / 3) ++ map (fun index => [index]) (firstn (7 mod 3) [2; 0]) /\
    length index_tuples = 7 /\
    Forall (distinct_tuple 3 1) index_tuples /\
    (forall k, 7 = k * 3 ->
       index_tuples = complete_tuple_sets 3 k /\
       forall index, index < 3 ->
         count_occ Nat.eq_dec (concat index_tuples) index = k) /\
    StronglySorted lt required /\
    in_range 3 required /\
    (forall index, In index required
                   <-> exists tuple, In tuple index_tuples /\ In index tuple).
Proof.
  apply (@source_index_tuples_round_robin 3 7 [2; 0]).
  - lia.
  - unfold in_range. repeat constructor.
  - simpl. lia.
Defined.

(** Two complete cycles over three sources, then one remaining tuple. *)
Example source_index_tuples_cycles :
  source_index_tuples 3 7 1 [2; 0]
  = Some (Returned ([[0]; [1]; [2]; [0]; [1]; [2]; [2]], [0; 1; 2])).
Proof. reflexivity. Qed.

(** Six tuples over three sources need no draw. *)
Example source_index_tuples_no_remainder :
  source_index_tuples 3 6 1 []
  = Some (Returned ([[0]; [1]; [2]; [0]; [1]; [2]], [0; 1; 2])).
Proof. reflexivity. Qed.

(** *** The required indices, for every arity *)

Lemma strict_sorted_nodup l : StronglySorted lt l -> NoDup l.
Proof.
  induction 1 as [|x l _ IH Hall]; constructor; [|exact IH].
  intros Hin. rewrite Forall_forall in Hall. specialize (Hall x Hin). lia.
Qed.



Lemma in_range_length n l : NoDup l -> in_range n l -> length l <= n.
Proof.
  intros Hnodup Hrange.
  assert (Hincl : incl l (seq 0 n)).
  { intros i Hi. unfold in_range in Hrange. rewrite Forall_forall in Hrange.
    apply in_seq. specialize (Hrange i Hi). lia. }
  pose proof (NoDup_incl_length Hnodup Hincl) as Hle.
  now rewrite length_seq in Hle.
Qed.

(** What a returned call holds, whatever the arity. *)
Lemma source_index_tuples_returned N M d draws index_tuples required :
  in_range N draws ->
  source_index_tuples N M d draws = Some (Returned (index_tuples, required)) ->
  d <= N /\ length index_tuples = M /\
  Forall (distinct_tuple N d) index_tuples /\
  required = required_indices index_tuples.
Proof.
  intros Hdraws. unfold source_index_tuples.
  destruct (N <? d) eqn:Hlt; [discriminate|]. apply Nat.ltb_ge in Hlt.
  destruct (d =? 1) eqn:Harity.
  - apply Nat.eqb_eq in Harity. subst d. unfold remaining_tuples.
    destruct (M mod N <=? length draws) eqn:Hsupply; [|discriminate].
    apply Nat.leb_le in Hsupply. intros H. injection H as <- <-.
    split; [exact Hlt|]. split; [|split; [|reflexivity]].
    + rewrite length_app, complete_tuple_sets_length, length_map, length_firstn.
      rewrite Nat.min_l by exact Hsupply. pose proof (Nat.div_mod_eq M N). lia.
    + apply Forall_app. split;
        [apply complete_tuple_sets_distinct|now apply remaining_tuples_distinct].
  - destruct (sample_tuples M d draws) as [sampled|] eqn:Hs; [|discriminate].
    intros H. injection H as <- <-.
    destruct (@sample_tuples_spec N d M draws sampled Hdraws Hs). auto.
Qed.

(** X4: for every arity, one included, whenever source_index_tuples
    returns, there are at least as many sources as the arity, the call
    returns M tuples of that many pairwise distinct indices below N, and
    required_indices is strictly increasing, holds at most N indices, all
    below N, and holds exactly the indices that occur in some tuple. *)
Theorem source_index_tuples_required (N M d : nat) (draws : list nat)
    (index_tuples : list (list nat)) (required : list nat) :
  in_range N draws ->
  source_index_tuples N M d draws = Some (Returned (index_tuples, required)) ->
  d <= N /\ length index_tuples = M /\
  Forall (distinct_tuple N d) index_tuples /\
  StronglySorted lt required /\ in_range N required /\ length required <= N /\
  (forall index, In index required
                 <-> exists tuple, In tuple index_tuples /\ In index tuple).
Proof.
  intros Hdraws Hcall.
  destruct (@source_index_tuples_returned _ _ _ _ _ _ Hdraws Hcall)
    as (Hd & Hlen & Hall & ->).
  destruct (required_indices_spec index_tuples) as [Hsorted Hin].
  assert (Hrange : in_range N (required_indices index_tuples)).
  { unfold in_range. apply Forall_forall. intros index Hindex.
    apply Hin in Hindex. destruct Hindex as (tuple & Htuple & Hi).
    rewrite Forall_forall in Hall. destruct (Hall tuple Htuple) as (_ & _ & Hr).
    unfold in_range in Hr. rewrite Forall_forall in Hr. now apply Hr. }
  repeat split; try assumption; try apply Hin.
  apply in_range_length; [now apply strict_sorted_nodup|exact Hrange].
Qed.

(** X4 on the run of four sources and three tuples of arity two. *)
Lemma source_index_tuples_required_witness :
  2 <= 4 /\ length [[1; 3]; [0; 2]; [2; 1]] = 3 /\
  Forall (distinct_tuple 4 2) [[1; 3]; [0; 2]; [2; 1]] /\
  StronglySorted lt [0; 1; 2; 3] /\ in_range 4 [0; 1; 2; 3] /\
  length [0; 1; 2; 3] <= 4 /\
  (forall index, In index [0; 1; 2; 3]
                 <-> exists tuple, In tuple [[1; 3]; [0; 2]; [2; 1]] /\ In index tuple).
Proof.
  apply (@source_index_tuples_required 4 3 2 [1; 1; 3; 0; 0; 2; 2; 1]).
  - unfold in_range. repeat constructor.
  - reflexivity.
Defined.



End SourceIndexTuples.

(** ** TrainingFeatureAugmentation: the RGB permutation *)

Module TrainingFeatureAugmentation.

Section Augmentation.

(** What an image holds at one place of one channel; nothing below looks
    inside. *)
Variable entry : Type.

(** An image, channel axis outermost. *)
Definition image : Type := list (list entry).

(** [source] holds the images at the keys [0 .. number_of_sources - 1], in
    that order. *)
Record t : Type := {
  number_of_sources : nat;
  is_target : bool;
  number_of_channels : nat;
  name : string;
  source : list image;
  target : option image
}.

(** [RenderPasses.is_rgb_color_render_pass] *)
Variable is_rgb_color_render_pass : string -> bool.

(** Modelled from the spec: [DataAugmentation.permute_rgb], which is not
    part of the sources at hand; the RGB-channel permutation puts at each
    place of the channel axis the channel that [rgb_permutation] names
    there. *)
Definition DataAugmentation_permute_rgb (inputs : image) (rgb_permutation : list nat)
  : image :=
  map (fun channel => nth channel inputs []) rgb_permutation.

Definition permute_rgb (self : t) (rgb_permutation : list nat) : t :=
  if is_rgb_color_render_pass (name self)
  then
    {| number_of_sources := number_of_sources self;
       is_target := is_target self;
       number_of_channels := number_of_channels self;
       name := name self;
       source :=
         map (fun s => DataAugmentation_permute_rgb s rgb_permutation) (source self);
       target :=
         if is_target self
         then option_map (fun g => DataAugmentation_permute_rgb g rgb_permutation)
                (target self)
         else target self |}
  else self.

(** The test of [data_augmentation] on the permutation of the epoch. *)
Definition permutation_test (rgb_permutation : list nat) : bool :=
  negb (nth 0 rgb_permutation 0 =? 0)
  && negb (nth 1 rgb_permutation 0 =? 1)
  && negb (nth 2 rgb_permutation 0 =? 2).

(** The last step of [data_augmentation] on one feature, after the flip
    and the rotation. *)
Definition data_augmentation (rgb_permutation : option (list nat)) (self : t) : t :=
  match rgb_permutation with
  | Some rgb_permutation =>
      if permutation_test rgb_permutation
      then permute_rgb self rgb_permutation
      else self
  | None => self
  end.

End Augmentation.

(** The orders that [rgb_color_permutation], a [random.sample] of all of
    [[0, 1, 2]], can return. *)
Definition rgb_color_permutations : list (list nat) :=
  [[0; 1; 2]; [0; 2; 1]; [1; 0; 2]; [1; 2; 0]; [2; 0; 1]; [2; 1; 0]].

(** An RGB feature with one source and a target, each of three channels of
    one entry. *)
Definition sample_color : t nat :=
  {| number_of_sources := 1;
     is_target := true;
     number_of_channels := 3;
     name := "DiffuseColor";
     source := [[[10]; [20]; [30]]];
     target := Some [[1]; [2]; [3]] |}.

(** The test lets a permutation through exactly when it moves all three
    channels. *)
Lemma permutation_test_spec rgb_permutation :
  In rgb_permutation rgb_color_permutations ->
  (permutation_test rgb_permutation = true
   <-> rgb_permutation = [1; 2; 0] \/ rgb_permutation = [2; 0; 1]).
Proof.
  unfold rgb_color_permutations. simpl.
  intros [<-|[<-|[<-|[<-|[<-|[<-|[]]]]]]]; cbn; split;
    try discriminate; try (intros [H|H]; discriminate); auto.
Qed.

(** C7, on the code: the permutation [0, 2, 1] is one that random.sample
    can return and is not the identity, yet the test of data_augmentation
    is false on it, so the RGB feature comes out as it went in, which is
    not how permute_rgb would leave it. *)
Theorem data_augmentation_skips_swap :
  In [0; 2; 1] rgb_color_permutations /\
  permutation_test [0; 2; 1] = false /\
  data_augmentation (fun _ => true) (Some [0; 2; 1]) sample_color = sample_color /\
  source (permute_rgb (fun _ => true) sample_color [0; 2; 1]) = [[[10]; [30]; [20]]] /\
  target (permute_rgb (fun _ => true) sample_color [0; 2; 1]) = Some [[1]; [3]; [2]].
Proof. repeat split. simpl. auto. Qed.

End TrainingFeatureAugmentation.

(** ** main: the combined training features *)

Module Main.

Import BaseTrainingFeature.
Local Open Scope outcome_scope.
Local Open Scope Q_scope.

(** The [loss_weights] object of the configuration. *)
Record LossWeights : Type := {
  mean : Q;
  variation : Q;
  ms_ssim : Q
}.

(** An entry of [combined_features], and [combined_image]; the statistics
    flags, which select summaries only, are left out. *)
Record CombinedFeature : Type := {
  loss_weights : LossWeights
}.

Record CombinedTrainingFeature : Type := {
  combined : BaseTrainingFeature.t;
  color_training_feature : BaseTrainingFeature.t;
  direct_training_feature : BaseTrainingFeature.t;
  indirect_training_feature : BaseTrainingFeature.t
}.

Record CombinedImageTrainingFeature : Type := {
  combined_image_feature : BaseTrainingFeature.t;
  diffuse_training_feature : CombinedTrainingFeature;
  glossy_training_feature : CombinedTrainingFeature;
  subsurface_training_feature : CombinedTrainingFeature;
  transmission_training_feature : CombinedTrainingFeature;
  emission_training_feature : BaseTrainingFeature.t;
  environment_training_feature : BaseTrainingFeature.t
}.

(** The constructor of [BaseTrainingFeature] as [main] calls it for the
    combined features: the three weights of the configuration, and 0.0 for
    the three masked weights. *)
Definition combined_base (name : string) (weights : LossWeights) : BaseTrainingFeature.t :=
  {| BaseTrainingFeature.name := name;
     mean_weight := mean weights;
     variation_weight := variation weights;
     ms_ssim_weight := ms_ssim weights;
     masked_mean_weight := 0;
     masked_variation_weight := 0;
     masked_ms_ssim_weight := 0;
     predicted := None;
     target := None;
     mask := None;
     mask_sum := None |}.

(** The condition under which [main] constructs a combined feature. *)
Definition constructs (weights : LossWeights) : bool :=
  greater (mean weights) 0 || greater (variation weights) 0.

(** *** Sample configuration *)

(** Stand-ins for the names that [RenderPasses] derives. *)
Definition sample_color_pass (name : string) : string := (name ++ "Color")%string.
Definition sample_direct_pass (name : string) : string := (name ++ "Direct")%string.
Definition sample_indirect_pass (name : string) : string := (name ++ "Indirect")%string.

Definition sample_weights (m v s : Q) : CombinedFeature :=
  {| loss_weights := {| mean := m; variation := v; ms_ssim := s |} |}.

(** Diffuse is trained on its mean; Glossy has an ms_ssim weight alone. *)
Definition sample_combined_features : dict CombinedFeature :=
  [("Diffuse", sample_weights 1 0 0); ("Glossy", sample_weights 0 0 (1 # 2))].

Definition sample_training_feature (name : string) : BaseTrainingFeature.t :=
  {| BaseTrainingFeature.name := name;
     mean_weight := 1;
     variation_weight := 0;
     ms_ssim_weight := 0;
     masked_mean_weight := 0;
     masked_variation_weight := 0;
     masked_ms_ssim_weight := 0;
     predicted := None;
     target := None;
     mask := None;
     mask_sum := None |}.

Definition sample_training_features : dict BaseTrainingFeature.t :=
  map (fun name => (name, sample_training_feature name))
    ["DiffuseColor"; "DiffuseDirect"; "DiffuseIndirect";
     "GlossyColor"; "GlossyDirect"; "GlossyIndirect"].

(** A stand-in for the loss of one combined object on a step: the sum of
    its three weights. *)
Definition sample_step_loss (f : CombinedTrainingFeature) : outcome Q :=
  Returned (mean_weight (combined f) + variation_weight (combined f)
            + ms_ssim_weight (combined f)).

(** The names of the objects that the loop constructs. *)
Definition constructed_names
    (constructed : outcome (list CombinedTrainingFeature * dict CombinedTrainingFeature))
  : option (list string) :=
  match constructed with
  | Returned c => Some (map (fun f => BaseTrainingFeature.name (combined f)) (fst c))
  | Raised _ => None
  end.

Section Construction.

(** The names that [RenderPasses] derives and holds. *)
Variable combined_to_color_render_pass : string -> string.
Variable combined_to_direct_render_pass : string -> string.
Variable combined_to_indirect_render_pass : string -> string.
Variable COMBINED : string.
Variable EMISSION : string.
Variable ENVIRONMENT : string.

(** The loop over [combined_feature_names], the keys of
    [combined_features] in their order, each with its entry. *)
Fixpoint combined_features_loop (combined_features : dict CombinedFeature)
    (feature_name_to_training_feature : dict BaseTrainingFeature.t)
    (combined_training_features : list CombinedTrainingFeature)
    (combined_feature_name_to_combined_training_feature : dict CombinedTrainingFeature)
  : outcome (list CombinedTrainingFeature * dict CombinedTrainingFeature) :=
  match combined_features with
  | [] =>
      Returned (combined_training_features,
                combined_feature_name_to_combined_training_feature)
  | (combined_feature_name, combined_feature) :: rest =>
      if constructs (loss_weights combined_feature)
      then
        color <- dict_get feature_name_to_training_feature
                   (combined_to_color_render_pass combined_feature_name) ;;
        direct <- dict_get feature_name_to_training_feature
                    (combined_to_direct_render_pass combined_feature_name) ;;
        indirect <- dict_get feature_name_to_training_feature
                      (combined_to_indirect_render_pass combined_feature_name) ;;
        let combined_training_feature :=
          {| combined := combined_base combined_feature_name (loss_weights combined_feature);
             color_training_feature := color;
             direct_training_feature := direct;
             indirect_training_feature := indirect |} in
        combined_features_loop rest feature_name_to_training_feature
          (combined_training_features ++ [combined_training_feature])
          ((combined_feature_name, combined_training_feature)
             :: combined_feature_name_to_combined_training_feature)
      else
        combined_features_loop rest feature_name_to_training_feature
          combined_training_features
          combined_feature_name_to_combined_training_feature
  end.

(** [len(combined_training_features) == 0] turns the list into [None]. *)
Definition none_if_empty {A : Type} (l : list A) : option (list A) :=
  match l with
  | [] => None
  | _ => Some l
  end.

Definition combined_image_training_feature (combined_image : CombinedFeature)
    (feature_name_to_training_feature : dict BaseTrainingFeature.t)
    (combined_feature_name_to_combined_training_feature : dict CombinedTrainingFeature)
  : outcome (option CombinedImageTrainingFeature) :=
  if constructs (loss_weights combined_image)
  then
    diffuse <- dict_get combined_feature_name_to_combined_training_feature "Diffuse" ;;
    glossy <- dict_get combined_feature_name_to_combined_training_feature "Glossy" ;;
    subsurface <-
      dict_get combined_feature_name_to_combined_training_feature "Subsurface" ;;
    transmission <-
      dict_get combined_feature_name_to_combined_training_feature "Transmission" ;;
    emission <- dict_get feature_name_to_training_feature EMISSION ;;
    environment <- dict_get feature_name_to_training_feature ENVIRONMENT ;;
    Returned (Some
      {| combined_image_feature := combined_base COMBINED (loss_weights combined_image);
         diffuse_training_feature := diffuse;
         glossy_training_feature := glossy;
         subsurface_training_feature := subsurface;
         transmission_training_feature := transmission;
         emission_training_feature := emission;
         environment_training_feature := environment |})
  else Returned None.

(** What [main] hands to the estimator as [combined_training_features] and
    [combined_image_training_feature]. *)
Definition main (combined_features : dict CombinedFeature)
    (combined_image : CombinedFeature)
    (feature_name_to_training_feature : dict BaseTrainingFeature.t)
  : outcome (option (list CombinedTrainingFeature)
             * option CombinedImageTrainingFeature) :=
  constructed <-
    combined_features_loop combined_features feature_name_to_training_feature [] [] ;;
  image <-
    combined_image_training_feature combined_image feature_name_to_training_feature
      (snd constructed) ;;
  Returned (none_if_empty (fst constructed), image).

(** The entry under [name] with another ms_ssim weight. *)
Definition with_ms_ssim (weight : Q) (combined_feature : CombinedFeature)
  : CombinedFeature :=
  {| loss_weights :=
       {| mean := mean (loss_weights combined_feature);
          variation := variation (loss_weights combined_feature);
          ms_ssim := weight |} |}.

Definition set_ms_ssim (name : string) (weight : Q)
    (combined_features : dict CombinedFeature) : dict CombinedFeature :=
  map (fun entry =>
         if String.eqb (fst entry) name
         then (fst entry, with_ms_ssim weight (snd entry))
         else entry)
    combined_features.

(** *** model_fn: the loss of a step *)

(** [initialize] and [loss] of the combined objects on the tensors of a
    step; [loss] is that of [BaseTrainingFeature], on a [predicted] and a
    [target] that [initialize] combines from the objects held. *)
Variable combined_initialize : CombinedTrainingFeature -> outcome CombinedTrainingFeature.
Variable combined_loss : CombinedTrainingFeature -> outcome Q.
Variable combined_image_initialize :
  CombinedImageTrainingFeature -> outcome CombinedImageTrainingFeature.
Variable combined_image_loss : CombinedImageTrainingFeature -> outcome Q.

(** [tf.add_n] *)
Definition tf_add_n (values : list Q) : outcome Q :=
  match values with
  | [] => Raised ValueError
  | first :: rest => Returned (fold_left Qplus rest first)
  end.

(** A loop that calls [f] on each element and collects what it returns. *)
Fixpoint each {A B : Type} (f : A -> outcome B) (l : list A) : outcome (list B) :=
  match l with
  | [] => Returned []
  | a :: rest =>
      b <- f a ;;
      bs <- each f rest ;;
      Returned (b :: bs)
  end.

Definition combined_feature_loss
    (combined_training_features : option (list CombinedTrainingFeature)) : outcome Q :=
  match combined_training_features with
  | Some combined_training_features =>
      combined_training_features <- each combined_initialize combined_training_features ;;
      combined_feature_losses <- each combined_loss combined_training_features ;;
      match combined_feature_losses with
      | [] => Raised (UnboundLocalError "combined_feature_loss")
      | _ => tf_add_n combined_feature_losses
      end
  | None => Returned 0
  end.

Definition combined_image_feature_loss
    (combined_image_training_feature : option CombinedImageTrainingFeature)
  : outcome Q :=
  match combined_image_training_feature with
  | Some combined_image_training_feature =>
      combined_image_training_feature <-
        combined_image_initialize combined_image_training_feature ;;
      combined_image_loss combined_image_training_feature
  | None => Returned 0
  end.

(** The loss of [model_fn], given the loss of the training features and
    the two parameters that [main] has constructed. *)
Definition model_fn_loss (feature_loss : outcome Q)
    (params : option (list CombinedTrainingFeature)
              * option CombinedImageTrainingFeature) : outcome Q :=
  feature_loss <- feature_loss ;;
  combined_feature_loss <- combined_feature_loss (fst params) ;;
  combined_image_feature_loss <- combined_image_feature_loss (snd params) ;;
  tf_add_n [feature_loss; combined_feature_loss; combined_image_feature_loss].

(** The loss of a step under a configuration. *)
Definition configured_loss (combined_features : dict CombinedFeature)
    (combined_image : CombinedFeature)
    (feature_name_to_training_feature : dict BaseTrainingFeature.t)
    (feature_loss : outcome Q) : outcome Q :=
  params <- main combined_features combined_image feature_name_to_training_feature ;;
  model_fn_loss feature_loss params.

Lemma constructs_false weights :
  mean weights <= 0 -> variation weights <= 0 -> constructs weights = false.
Proof.
  intros Hm Hv. unfold constructs, greater.
  rewrite (proj2 (Qle_bool_iff _ _) Hm), (proj2 (Qle_bool_iff _ _) Hv). reflexivity.
Qed.

Lemma constructs_with_ms_ssim weight combined_feature :
  constructs (loss_weights (with_ms_ssim weight combined_feature))
  = constructs (loss_weights combined_feature).
Proof. reflexivity. Qed.

(** The keys of a dictionary are distinct, so a key has one entry. *)
Lemma unique_entry {A : Type} (d : dict A) key (a b : A) :
  NoDup (map fst d) -> In (key, a) d -> In (key, b) d -> a = b.
Proof.
  induction d as [|[k c] d IH]; simpl; intros Hnodup Ha Hb; [now elim Ha|].
  inversion Hnodup as [|? ? Hk Hd]; subst.
  destruct Ha as [Ha|Ha], Hb as [Hb|Hb].
  - congruence.
  - injection Ha as -> ->. elim Hk. apply in_map_iff. now exists (key, b).
  - injection Hb as -> ->. elim Hk. apply in_map_iff. now exists (key, a).
  - now apply IH.
Qed.

(** Whatever the loop adds comes from an entry that passes the test. *)
Lemma combined_features_loop_constructed combined_features ftf :
  forall features by_name constructed,
  combined_features_loop combined_features ftf features by_name = Returned constructed ->
  (forall f, In f (fst constructed) ->
     In f features \/
     exists cf, In (BaseTrainingFeature.name (combined f), cf) combined_features /\
                constructs (loss_weights cf) = true) /\
  (forall key f, dict_find (snd constructed) key = Some f ->
     dict_find by_name key = Some f \/
     exists cf, In (key, cf) combined_features /\ constructs (loss_weights cf) = true).
Proof.
  induction combined_features as [|[name cf] rest IH]; intros features by_name constructed;
    cbn [combined_features_loop].
  - intros H. injection H as <-. simpl. split; auto.
  - destruct (constructs (loss_weights cf)) eqn:Hc.
    + destruct (dict_get ftf (combined_to_color_render_pass name)) as [color|];
        [|discriminate].
      destruct (dict_get ftf (combined_to_direct_render_pass name)) as [direct|];
        [|discriminate].
      destruct (dict_get ftf (combined_to_indirect_render_pass name)) as [indirect|];
        [|discriminate].
      cbn [bind]. intros H. apply IH in H. destruct H as [Hf Hk]. split.
      * intros f Hin. destruct (Hf f Hin) as [Hacc|(cf' & Hcf' & Hc')].
        -- apply in_app_or in Hacc. destruct Hacc as [Hacc|[<-|[]]]; [now left|].
           right. exists cf. split; [now left|exact Hc].
        -- right. exists cf'. split; [now right|exact Hc'].
      * intros key f Hfind. destruct (Hk key f Hfind) as [Hacc|(cf' & Hcf' & Hc')].
        -- cbn [dict_find] in Hacc. destruct (String.eqb name key) eqn:Heq.
           ++ apply String.eqb_eq in Heq. subst key.
              right. exists cf. split; [now left|exact Hc].
           ++ now left.
        -- right. exists cf'. split; [now right|exact Hc'].
    + intros H. apply IH in H. destruct H as [Hf Hk]. split.
      * intros f Hin. destruct (Hf f Hin) as [Hacc|(cf' & Hcf' & Hc')]; [now left|].
        right. exists cf'. split; [now right|exact Hc'].
      * intros key f Hfind. destruct (Hk key f Hfind) as [Hacc|(cf' & Hcf' & Hc')];
          [now left|].
        right. exists cf'. split; [now right|exact Hc'].
Qed.

(** The loop does not read the ms_ssim weight of an entry that fails the
    test. *)
Lemma combined_features_loop_set_ms_ssim name weight combined_features ftf :
  forall features by_name,
  (forall cf, In (name, cf) combined_features -> constructs (loss_weights cf) = false) ->
  combined_features_loop (set_ms_ssim name weight combined_features) ftf features by_name
  = combined_features_loop combined_features ftf features by_name.
Proof.
  induction combined_features as [|[key cf] rest IH]; intros features by_name Hgate;
    cbn [set_ms_ssim map combined_features_loop fst snd]; [reflexivity|].
  fold (set_ms_ssim name weight rest).
  assert (Hrest : forall cf', In (name, cf') rest -> constructs (loss_weights cf') = false).
  { intros cf' Hin. apply Hgate. now right. }
  destruct (String.eqb key name) eqn:Heq.
  - apply String.eqb_eq in Heq. subst key.
    rewrite constructs_with_ms_ssim, (Hgate cf) by now left.
    now apply IH.
  - destruct (constructs (loss_weights cf)); [|now apply IH].
    destruct (dict_get ftf (combined_to_color_render_pass key)); [|reflexivity].
    destruct (dict_get ftf (combined_to_direct_render_pass key)); [|reflexivity].
    destruct (dict_get ftf (combined_to_indirect_render_pass key)); [|reflexivity].
    cbn [bind]. now apply IH.
Qed.

(** C10: when the mean weight and the variation weight of an entry of
    combined_features are both non-positive, the loop of main constructs no
    CombinedTrainingFeature of its name, neither in the list nor in the
    dictionary by name, and what main hands to the estimator, and with it
    the loss of every step, is the same whatever the ms_ssim weight of the
    entry; likewise, when the two weights of combined_image are
    non-positive, no CombinedImageTrainingFeature is constructed and the
    loss of every step is the same whatever its ms_ssim weight. *)
Theorem ms_ssim_alone_constructs_nothing :
  (forall (combined_features : dict CombinedFeature) (combined_image : CombinedFeature)
          (ftf : dict BaseTrainingFeature.t) (name : string) (cf : CombinedFeature),
     NoDup (map fst combined_features) ->
     In (name, cf) combined_features ->
     mean (loss_weights cf) <= 0 -> variation (loss_weights cf) <= 0 ->
     (forall constructed,
        combined_features_loop combined_features ftf [] [] = Returned constructed ->
        (forall f, In f (fst constructed) ->
           BaseTrainingFeature.name (combined f) <> name) /\
        dict_find (snd constructed) name = None) /\
     (forall weight,
        main (set_ms_ssim name weight combined_features) combined_image ftf
        = main combined_features combined_image ftf) /\
     (forall weight feature_loss,
        configured_loss (set_ms_ssim name weight combined_features) combined_image ftf
          feature_loss
        = configured_loss combined_features combined_image ftf feature_loss)) /\
  (forall (combined_features : dict CombinedFeature) (combined_image : CombinedFeature)
          (ftf : dict BaseTrainingFeature.t),
     mean (loss_weights combined_image) <= 0 ->
     variation (loss_weights combined_image) <= 0 ->
     (forall by_name,
        combined_image_training_feature combined_image ftf by_name = Returned None) /\
     (forall weight,
        main combined_features (with_ms_ssim weight combined_image) ftf
        = main combined_features combined_image ftf) /\
     (forall weight feature_loss,
        configured_loss combined_features (with_ms_ssim weight combined_image) ftf
          feature_loss
        = configured_loss combined_features combined_image ftf feature_loss)).
Proof.
  split.
  - intros combined_features combined_image ftf name cf Hnodup Hin Hm Hv.
    assert (Hgate : forall cf', In (name, cf') combined_features ->
                                constructs (loss_weights cf') = false).
    { intros cf' Hin'. rewrite (@unique_entry _ _ _ _ _ Hnodup Hin' Hin).
      now apply constructs_false. }
    assert (Hmain : forall weight,
      main (set_ms_ssim name weight combined_features) combined_image ftf
      = main combined_features combined_image ftf).
    { intros weight. unfold main. now rewrite combined_features_loop_set_ms_ssim. }
    split; [|split; [exact Hmain|]].
    + intros constructed Hloop.
      destruct (combined_features_loop_constructed _ _ _ _ Hloop) as [Hf Hk]. split.
      * intros f Hfin Hname. destruct (Hf f Hfin) as [[]|(cf' & Hcf' & Hc')].
        rewrite Hname in Hcf'. rewrite (Hgate cf' Hcf') in Hc'. discriminate.
      * destruct (dict_find (snd constructed) name) as [f|] eqn:Hfind; [|reflexivity].
        destruct (Hk name f Hfind) as [Hacc|(cf' & Hcf' & Hc')]; [discriminate|].
        rewrite (Hgate cf' Hcf') in Hc'. discriminate.
    + intros weight feature_loss. unfold configured_loss. now rewrite Hmain.
  - intros combined_features combined_image ftf Hm Hv.
    assert (Hmain : forall weight,
      main combined_features (with_ms_ssim weight combined_image) ftf
      = main combined_features combined_image ftf).
    { intros weight. unfold main, combined_image_training_feature.
      rewrite constructs_with_ms_ssim, constructs_false by assumption.
      reflexivity. }
    split; [|split; [exact Hmain|]].
    + intros by_name. unfold combined_image_training_feature.
      now rewrite constructs_false.
    + intros weight feature_loss. unfold configured_loss. now rewrite Hmain.
Qed.

(** *** What the loop constructs *)

Definition combined_name (f : CombinedTrainingFeature) : string :=
  BaseTrainingFeature.name (combined f).

(** The test of the loop on an entry of [combined_features]. *)
Definition passes (entry : string * CombinedFeature) : bool :=
  constructs (loss_weights (snd entry)).

(** The names of the entries that pass the test, in the order of the
    keys. *)
Definition passing_names (combined_features : dict CombinedFeature) : list string :=
  map fst (filter passes combined_features).

(** [f] is the object that the body of the loop constructs for an entry of
    its name. *)
Definition built (combined_features : dict CombinedFeature)
    (feature_name_to_training_feature : dict BaseTrainingFeature.t)
    (f : CombinedTrainingFeature) : Prop :=
  exists cf,
    In (combined_name f, cf) combined_features /\
    constructs (loss_weights cf) = true /\
    combined f = combined_base (combined_name f) (loss_weights cf) /\
    dict_find feature_name_to_training_feature
      (combined_to_color_render_pass (combined_name f))
    = Some (color_training_feature f) /\
    dict_find feature_name_to_training_feature
      (combined_to_direct_render_pass (combined_name f))
    = Some (direct_training_feature f) /\
    dict_find feature_name_to_training_feature
      (combined_to_indirect_render_pass (combined_name f))
    = Some (indirect_training_feature f).

(** The dictionary by name of the objects [added], the latest first. *)
Definition by_name_of (added : list CombinedTrainingFeature)
  : dict CombinedTrainingFeature :=
  map (fun f => (combined_name f, f)) (rev added).

Lemma built_later entry combined_features ftf f :
  built combined_features ftf f -> built (entry :: combined_features) ftf f.
Proof.
  intros (cf & Hin & H). exists cf. split; [now right|exact H].
Qed.

Lemma combined_features_loop_added combined_features ftf :
  forall features by_name constructed,
  combined_features_loop combined_features ftf features by_name = Returned constructed ->
  exists added,
    fst constructed = features ++ added /\
    snd constructed = by_name_of added ++ by_name /\
    map combined_name added = passing_names combined_features /\
    Forall (built combined_features ftf) added.
Proof.
  induction combined_features as [|[name cf] rest IH]; intros features by_name constructed;
    cbn [combined_features_loop].
  - intros H. injection H as <-. exists []. cbn. rewrite app_nil_r. auto.
  - unfold passing_names. cbn [filter]. unfold passes at 1. cbn [snd].
    destruct (constructs (loss_weights cf)) eqn:Hc.
    + unfold dict_get.
      destruct (dict_find ftf (combined_to_color_render_pass name)) as [color|] eqn:Hcolor;
        [|discriminate].
      destruct (dict_find ftf (combined_to_direct_render_pass name)) as [direct|] eqn:Hdirect;
        [|discriminate].
      destruct (dict_find ftf (combined_to_indirect_render_pass name))
        as [indirect|] eqn:Hindirect; [|discriminate].
      cbn [bind]. intros H. apply IH in H.
      destruct H as (added & Hfst & Hsnd & Hnames & Hbuilt).
      eexists (_ :: added). split; [rewrite Hfst, <- app_assoc; reflexivity|].
      split; [|split].
      * rewrite Hsnd. unfold by_name_of. cbn [rev]. rewrite map_app, <- app_assoc.
        reflexivity.
      * cbn [map fst]. now rewrite Hnames.
      * constructor.
        -- exists cf. cbn. repeat split; auto.
        -- eapply Forall_impl; [|exact Hbuilt]. intros f. apply built_later.
    + intros H. apply IH in H. destruct H as (added & Hfst & Hsnd & Hnames & Hbuilt).
      exists added. repeat split; try assumption.
      eapply Forall_impl; [|exact Hbuilt]. intros f. apply built_later.
Qed.

Lemma dict_find_by_name (l : list CombinedTrainingFeature) key f :
  dict_find (map (fun f => (combined_name f, f)) l) key = Some f ->
  combined_name f = key /\ In f l.
Proof.
  induction l as [|g l IH]; cbn [map dict_find]; [discriminate|].
  destruct (String.eqb (combined_name g) key) eqn:Heq.
  - intros H. injection H as <-. apply String.eqb_eq in Heq. split; [exact Heq|now left].
  - intros H. destruct (IH H). split; [assumption|now right].
Qed.

Lemma dict_find_by_name_key (l : list CombinedTrainingFeature) key :
  In key (map combined_name l)
  <-> exists f, dict_find (map (fun f => (combined_name f, f)) l) key = Some f.
Proof.
  induction l as [|g l IH]; cbn [map dict_find In].
  - split; [intros []|intros [f H]; discriminate].
  - destruct (String.eqb (combined_name g) key) eqn:Heq.
    + apply String.eqb_eq in Heq. split; [intros _; now exists g|intros _; now left].
    + apply String.eqb_neq in Heq. rewrite <- IH. split; [intros [H|H]|intros H]; auto.
      contradiction.
Qed.

(** What the loop of [main] returns from the two empty containers. *)
Lemma combined_features_loop_returned combined_features ftf constructed :
  combined_features_loop combined_features ftf [] [] = Returned constructed ->
  map combined_name (fst constructed) = passing_names combined_features /\
  Forall (built combined_features ftf) (fst constructed) /\
  (forall key, In key (passing_names combined_features)
               <-> exists f, dict_find (snd constructed) key = Some f) /\
  (forall key f, dict_find (snd constructed) key = Some f ->
                 combined_name f = key /\ In f (fst constructed)).
Proof.
  intros Hloop. apply combined_features_loop_added in Hloop.
  destruct Hloop as (added & Hfst & Hsnd & Hnames & Hbuilt).
  cbn [app] in Hfst. rewrite app_nil_r in Hsnd. rewrite Hfst, Hsnd.
  split; [exact Hnames|]. split; [exact Hbuilt|]. unfold by_name_of. split.
  - intros key. rewrite <- dict_find_by_name_key, <- Hnames, map_rev, <- in_rev.
    reflexivity.
  - intros key f Hfind. apply dict_find_by_name in Hfind. rewrite <- in_rev in Hfind.
    exact Hfind.
Qed.

(** X9: when the loop of main over combined_features returns, the objects
    it has constructed are, in the order of the keys, those of the entries
    whose mean or variation weight is positive, each with the three
    weights of its entry, no masked weight, and the color, direct and
    indirect training features of its name; the dictionary by name holds
    each of them under its name and nothing else; and the list is replaced
    by None exactly when no entry passes the test. *)
Theorem combined_features_loop_passing (combined_features : dict CombinedFeature)
    (ftf : dict BaseTrainingFeature.t)
    (constructed : list CombinedTrainingFeature * dict CombinedTrainingFeature) :
  combined_features_loop combined_features ftf [] [] = Returned constructed ->
  map combined_name (fst constructed) = passing_names combined_features /\
  Forall (built combined_features ftf) (fst constructed) /\
  (forall key, In key (passing_names combined_features)
               <-> exists f, dict_find (snd constructed) key = Some f) /\
  (forall key f, dict_find (snd constructed) key = Some f ->
                 combined_name f = key /\ In f (fst constructed)) /\
  (none_if_empty (fst constructed) = None
   <-> forall entry, In entry combined_features -> passes entry = false).
Proof.
  intros Hloop.
  destruct (combined_features_loop_returned _ _ Hloop) as (Hnames & Hbuilt & Hkeys & Hfind).
  split; [exact Hnames|]. split; [exact Hbuilt|]. split; [exact Hkeys|].
  split; [exact Hfind|]. split.
  - intros Hnone entry Hin. destruct (passes entry) eqn:Hp; [|reflexivity].
    assert (Hentry : In (fst entry) (passing_names combined_features)).
    { unfold passing_names. apply in_map. apply filter_In. now split. }
    rewrite <- Hnames in Hentry. destruct (fst constructed); [elim Hentry|discriminate].
  - intros Hall. destruct (fst constructed) as [|f fs] eqn:Hfs; [reflexivity|].
    assert (Hentry : In (combined_name f) (passing_names combined_features)).
    { rewrite <- Hnames. now left. }
    unfold passing_names in Hentry. apply in_map_iff in Hentry.
    destruct Hentry as (entry & _ & Hentry). apply filter_In in Hentry.
    destruct Hentry as [Hin Hp]. rewrite (Hall entry Hin) in Hp. discriminate.
Qed.

(** *** The combined image feature *)

(** The four names that [main] looks up for the combined image, in the
    order of the arguments of the constructor. *)
Definition image_components : list string :=
  ["Diffuse"; "Glossy"; "Subsurface"; "Transmission"].

Lemma dict_get_passing combined_features ftf constructed key :
  combined_features_loop combined_features ftf [] [] = Returned constructed ->
  In key (passing_names combined_features) ->
  exists f, dict_get (snd constructed) key = Returned f /\
            combined_name f = key /\ In f (fst constructed).
Proof.
  intros Hloop Hkey.
  destruct (combined_features_loop_returned _ _ Hloop) as (_ & _ & Hkeys & Hfind).
  apply Hkeys in Hkey. destruct Hkey as [f Hf]. exists f. unfold dict_get.
  rewrite Hf. split; [reflexivity|]. now apply Hfind.
Qed.

Lemma dict_get_not_passing combined_features ftf constructed key :
  combined_features_loop combined_features ftf [] [] = Returned constructed ->
  ~ In key (passing_names combined_features) ->
  dict_get (snd constructed) key = Raised (KeyError key).
Proof.
  intros Hloop Hkey.
  destruct (combined_features_loop_returned _ _ Hloop) as (_ & _ & Hkeys & _).
  unfold dict_get. destruct (dict_find (snd constructed) key) as [f|] eqn:Hf;
    [|reflexivity].
  elim Hkey. apply Hkeys. now exists f.
Qed.

(** X10: with a positive mean or variation weight for the combined image,
    main needs a constructed combined feature for each of Diffuse, Glossy,
    Subsurface and Transmission.  It stops with the KeyError of the first
    of the four names, in this order, whose entry of combined_features is
    missing or fails the test of the loop; and when it returns, the four
    entries pass the test, the combined image feature holds the four
    objects of the list under these names, the training features of
    Emission and Environment, the three weights of combined_image and no
    masked weight. *)
Theorem combined_image_components (combined_features : dict CombinedFeature)
    (combined_image : CombinedFeature) (ftf : dict BaseTrainingFeature.t)
    (constructed : list CombinedTrainingFeature * dict CombinedTrainingFeature) :
  combined_features_loop combined_features ftf [] [] = Returned constructed ->
  constructs (loss_weights combined_image) = true ->
  (forall before name after,
     image_components = before ++ name :: after ->
     incl before (passing_names combined_features) ->
     ~ In name (passing_names combined_features) ->
     main combined_features combined_image ftf = Raised (KeyError name)) /\
  (forall params,
     main combined_features combined_image ftf = Returned params ->
     incl image_components (passing_names combined_features) /\
     exists image,
       snd params = Some image /\
       map combined_name
         [diffuse_training_feature image; glossy_training_feature image;
          subsurface_training_feature image; transmission_training_feature image]
       = image_components /\
       incl [diffuse_training_feature image; glossy_training_feature image;
             subsurface_training_feature image; transmission_training_feature image]
         (fst constructed) /\
       dict_find ftf EMISSION = Some (emission_training_feature image) /\
       dict_find ftf ENVIRONMENT = Some (environment_training_feature image) /\
       combined_image_feature image = combined_base COMBINED (loss_weights combined_image)).
Proof.
  intros Hloop Hc.
  assert (Hfound : forall key, In key (passing_names combined_features) ->
            exists f, dict_get (snd constructed) key = Returned f /\
                      combined_name f = key /\ In f (fst constructed))
    by (intros key; now apply dict_get_passing with (ftf := ftf)).
  assert (Hmissing : forall key, ~ In key (passing_names combined_features) ->
            dict_get (snd constructed) key = Raised (KeyError key))
    by (intros key; now apply dict_get_not_passing with (ftf := ftf)).
  assert (Hdecide : forall key, In key (passing_names combined_features)
                                \/ ~ In key (passing_names combined_features)).
  { intros key. destruct (in_dec string_dec key (passing_names combined_features)); auto. }
  unfold main, combined_image_training_feature. rewrite Hloop, Hc. cbn [bind].
  split.
  - intros before name after Hsplit Hbefore Hname. unfold image_components in Hsplit.
    destruct before as [|b1 [|b2 [|b3 [|b4 before]]]]; cbn [app] in Hsplit.
    + injection Hsplit as <- _. now rewrite (Hmissing _ Hname).
    + injection Hsplit as <- <- _.
      destruct (Hfound "Diffuse") as (d & -> & _); [apply Hbefore; cbn; auto|].
      cbn [bind]. now rewrite (Hmissing _ Hname).
    + injection Hsplit as <- <- <- _.
      destruct (Hfound "Diffuse") as (d & -> & _); [apply Hbefore; cbn; auto|].
      destruct (Hfound "Glossy") as (g & -> & _); [apply Hbefore; cbn; auto|].
      cbn [bind]. now rewrite (Hmissing _ Hname).
    + injection Hsplit as <- <- <- <- _.
      destruct (Hfound "Diffuse") as (d & -> & _); [apply Hbefore; cbn; auto|].
      destruct (Hfound "Glossy") as (g & -> & _); [apply Hbefore; cbn; auto|].
      destruct (Hfound "Subsurface") as (s & -> & _); [apply Hbefore; cbn; auto|].
      cbn [bind]. now rewrite (Hmissing _ Hname).
    + exfalso. injection Hsplit as _ _ _ _ Hrest. destruct before; discriminate.
  - intros params.
    destruct (Hdecide "Diffuse") as [Hd|Hd]; [|rewrite (Hmissing _ Hd); discriminate].
    destruct (Hfound _ Hd) as (d & -> & Hdn & Hdi).
    destruct (Hdecide "Glossy") as [Hg|Hg]; [|rewrite (Hmissing _ Hg); discriminate].
    destruct (Hfound _ Hg) as (g & -> & Hgn & Hgi).
    destruct (Hdecide "Subsurface") as [Hs|Hs]; [|rewrite (Hmissing _ Hs); discriminate].
    destruct (Hfound _ Hs) as (s & -> & Hsn & Hsi).
    destruct (Hdecide "Transmission") as [Ht|Ht]; [|rewrite (Hmissing _ Ht); discriminate].
    destruct (Hfound _ Ht) as (t & -> & Htn & Hti).
    cbn [bind]. unfold dict_get.
    destruct (dict_find ftf EMISSION) as [emission|]; [|discriminate].
    destruct (dict_find ftf ENVIRONMENT) as [environment|]; [|discriminate].
    cbn [bind]. intros H. injection H as <-. split.
    + intros key [<-|[<-|[<-|[<-|[]]]]]; assumption.
    + eexists. split; [reflexivity|]. cbn. rewrite Hdn, Hgn, Hsn, Htn.
      split; [reflexivity|]. split; [|auto].
      intros f [<-|[<-|[<-|[<-|[]]]]]; assumption.
Qed.

(** *** model_fn on what main has constructed *)




End Construction.

(** The loop on the sample configuration: one object, for Diffuse. *)
Example sample_combined_training_features :
  constructed_names
    (combined_features_loop sample_color_pass sample_direct_pass sample_indirect_pass
       sample_combined_features sample_training_features [] [])
  = Some ["Diffuse"].
Proof. reflexivity. Qed.

(** C10 on the sample configuration: nothing is constructed for Glossy,
    whose only positive weight is that of ms_ssim. *)
Lemma ms_ssim_alone_constructs_nothing_witness :
  (forall constructed,
     combined_features_loop sample_color_pass sample_direct_pass sample_indirect_pass
       sample_combined_features sample_training_features [] [] = Returned constructed ->
     (forall f, In f (fst constructed) ->
        BaseTrainingFeature.name (combined f) <> "Glossy") /\
     dict_find (snd constructed) "Glossy" = None) /\
  (forall weight,
     main sample_color_pass sample_direct_pass sample_indirect_pass
       "Combined" "Emission" "Environment"
       (set_ms_ssim "Glossy" weight sample_combined_features)
       (sample_weights 0 0 1) sample_training_features
     = main sample_color_pass sample_direct_pass sample_indirect_pass
         "Combined" "Emission" "Environment"
         sample_combined_features (sample_weights 0 0 1) sample_training_features) /\
  (forall weight feature_loss,
     configured_loss sample_color_pass sample_direct_pass sample_indirect_pass
       "Combined" "Emission" "Environment"
       (fun f => Returned f) sample_step_loss (fun f => Returned f) (fun _ => Returned 0)
       (set_ms_ssim "Glossy" weight sample_combined_features)
       (sample_weights 0 0 1) sample_training_features feature_loss
     = configured_loss sample_color_pass sample_direct_pass sample_indirect_pass
         "Combined" "Emission" "Environment"
         (fun f => Returned f) sample_step_loss (fun f => Returned f) (fun _ => Returned 0)
         sample_combined_features (sample_weights 0 0 1) sample_training_features
         feature_loss).
Proof.
  apply (proj1 (ms_ssim_alone_constructs_nothing
                  sample_color_pass sample_direct_pass sample_indirect_pass
                  "Combined" "Emission" "Environment"
                  (fun f => Returned f) sample_step_loss
                  (fun f => Returned f) (fun _ => Returned 0))
           sample_combined_features (sample_weights 0 0 1) sample_training_features
           "Glossy" (sample_weights 0 0 (1 # 2))).
  - repeat constructor; simpl; intuition discriminate.
  - simpl. auto.
  - discriminate.
  - discriminate.
Defined.

(** The object that the loop constructs for Diffuse on the sample
    configuration. *)
Definition sample_diffuse : CombinedTrainingFeature :=
  {| combined := combined_base "Diffuse" {| mean := 1; variation := 0; ms_ssim := 0 |};
     color_training_feature := sample_training_feature "DiffuseColor";
     direct_training_feature := sample_training_feature "DiffuseDirect";
     indirect_training_feature := sample_training_feature "DiffuseIndirect" |}.

(** X9 on the sample configuration: Diffuse alone is constructed. *)
Lemma combined_features_loop_passing_witness :
  map combined_name [sample_diffuse] = passing_names sample_combined_features /\
  Forall (built sample_color_pass sample_direct_pass sample_indirect_pass
            sample_combined_features sample_training_features) [sample_diffuse] /\
  (forall key, In key (passing_names sample_combined_features)
               <-> exists f, dict_find [("Diffuse", sample_diffuse)] key = Some f) /\
  (forall key f, dict_find [("Diffuse", sample_diffuse)] key = Some f ->
                 combined_name f = key /\ In f [sample_diffuse]) /\
  (none_if_empty [sample_diffuse] = None
   <-> forall entry, In entry sample_combined_features -> passes entry = false).
Proof.
  apply (@combined_features_loop_passing sample_color_pass sample_direct_pass
           sample_indirect_pass sample_combined_features sample_training_features
           ([sample_diffuse], [("Diffuse", sample_diffuse)])).
  reflexivity.
Defined.

(** X10 on the sample configuration with a mean weight for the combined
    image: Diffuse is constructed and Glossy is not. *)
Lemma combined_image_components_witness :
  main sample_color_pass sample_direct_pass sample_indirect_pass
    "Combined" "Emission" "Environment"
    sample_combined_features (sample_weights 1 0 0) sample_training_features
  = Raised (KeyError "Glossy").
Proof.
  apply (proj1 (@combined_image_components sample_color_pass sample_direct_pass
                  sample_indirect_pass "Combined" "Emission" "Environment"
                  sample_combined_features (sample_weights 1 0 0)
                  sample_training_features
                  ([sample_diffuse], [("Diffuse", sample_diffuse)])
                  eq_refl eq_refl)
           ["Diffuse"] "Glossy" ["Subsurface"; "Transmission"] eq_refl).
  - intros key [<-|[]]. now left.
  - intros [H|[]]. discriminate.
Defined.


End Main.

(** ** main: the loop over the epochs *)

Module EpochLoop.

Local Open Scope Z_scope.

(** What a pass through the loop does with the estimator: a call of
    [train], which trains one epoch, or a call of [evaluate].  The calls,
    and [source_index_tuples] before each of them, are taken to return. *)
Inductive event : Type :=
| Train
| Evaluate.

(** [number_of_training_epochs] of one pass. *)
Definition number_of_training_epochs (remaining_number_of_epochs validation_interval : Z)
  : Z :=
  if remaining_number_of_epochs <? validation_interval
  then remaining_number_of_epochs
  else validation_interval.

(** The [while] loop, for at most [passes] passes through its body: the
    calls made, in order, and whether the loop has ended.  [range] of a
    number that is not positive is empty. *)
Fixpoint epoch_loop (passes : nat) (remaining_number_of_epochs validation_interval : Z)
  : list event * bool :=
  match passes with
  | O => ([], negb (0 <? remaining_number_of_epochs))
  | S passes' =>
      if 0 <? remaining_number_of_epochs
      then
        let number_of_training_epochs :=
          number_of_training_epochs remaining_number_of_epochs validation_interval in
        let (events, ended) :=
          epoch_loop passes'
            (remaining_number_of_epochs - number_of_training_epochs)
            validation_interval in
        (repeat Train (Z.to_nat number_of_training_epochs) ++ Evaluate :: events, ended)
      else ([], true)
  end.

(** The calls of a run of [train_epochs] epochs that is validated every
    [validation_interval] epochs: full blocks, and a shorter last block
    when the interval does not divide the number of epochs. *)
Definition block (epochs : Z) : list event :=
  repeat Train (Z.to_nat epochs) ++ [Evaluate].

Definition schedule (train_epochs validation_interval : Z) : list event :=
  concat (repeat (block validation_interval)
            (Z.to_nat (train_epochs / validation_interval)))
  ++ (if train_epochs mod validation_interval =? 0
      then []
      else block (train_epochs mod validation_interval)).

Definition is_train (e : event) : bool :=
  match e with
  | Train => true
  | Evaluate => false
  end.

Definition trainings (events : list event) : nat :=
  length (filter is_train events).

Definition evaluations (events : list event) : nat :=
  length (filter (fun e => negb (is_train e)) events).

Lemma epoch_loop_ended passes validation_interval :
  epoch_loop passes 0 validation_interval = ([], true).
Proof. destruct passes; reflexivity. Qed.

Lemma epoch_loop_blocks (validation_interval rest : Z) :
  1 <= validation_interval -> 0 <= rest < validation_interval ->
  forall (blocks passes : nat),
    (S blocks <= passes)%nat ->
    epoch_loop passes (Z.of_nat blocks * validation_interval + rest) validation_interval
    = (concat (repeat (block validation_interval) blocks)
       ++ (if rest =? 0 then [] else block rest), true).
Proof.
  intros Hinterval Hrest. induction blocks as [|blocks IH]; intros passes Hpasses.
  - destruct passes as [|passes]; [lia|]. cbn [repeat concat app Z.of_nat].
    replace (0 * validation_interval + rest) with rest by lia.
    destruct (rest =? 0) eqn:Hzero.
    + apply Z.eqb_eq in Hzero. subst rest. reflexivity.
    + apply Z.eqb_neq in Hzero. cbn [epoch_loop].
      rewrite (proj2 (Z.ltb_lt 0 rest)) by lia.
      unfold number_of_training_epochs.
      rewrite (proj2 (Z.ltb_lt rest validation_interval)) by lia.
      rewrite Z.sub_diag, epoch_loop_ended. reflexivity.
  - destruct passes as [|passes]; [lia|]. cbn [epoch_loop].
    rewrite (proj2 (Z.ltb_lt 0 _)) by nia.
    unfold number_of_training_epochs.
    rewrite (proj2 (Z.ltb_ge _ validation_interval)) by nia.
    replace (Z.of_nat (S blocks) * validation_interval + rest - validation_interval)
      with (Z.of_nat blocks * validation_interval + rest) by lia.
    rewrite IH by lia. cbn [repeat concat]. unfold block at 3.
    now rewrite <- !app_assoc.
Qed.

Lemma trainings_app a b : trainings (a ++ b) = (trainings a + trainings b)%nat.
Proof. unfold trainings. now rewrite filter_app, length_app. Qed.

Lemma evaluations_app a b : evaluations (a ++ b) = (evaluations a + evaluations b)%nat.
Proof. unfold evaluations. now rewrite filter_app, length_app. Qed.

Lemma trainings_block epochs : trainings (block epochs) = Z.to_nat epochs.
Proof.
  unfold block. rewrite trainings_app. unfold trainings. cbn [filter is_train length].
  induction (Z.to_nat epochs) as [|n IH]; [reflexivity|].
  cbn [repeat filter is_train length]. lia.
Qed.

Lemma evaluations_block epochs : evaluations (block epochs) = 1%nat.
Proof.
  unfold block. rewrite evaluations_app. unfold evaluations.
  cbn [filter is_train negb length].
  induction (Z.to_nat epochs) as [|n IH]; [reflexivity|].
  cbn [repeat filter is_train negb]. exact IH.
Qed.

Lemma trainings_blocks epochs blocks :
  trainings (concat (repeat (block epochs) blocks)) = (blocks * Z.to_nat epochs)%nat.
Proof.
  induction blocks as [|blocks IH]; [reflexivity|].
  cbn [repeat concat]. rewrite trainings_app, trainings_block, IH. lia.
Qed.

Lemma evaluations_blocks epochs blocks :
  evaluations (concat (repeat (block epochs) blocks)) = blocks.
Proof.
  induction blocks as [|blocks IH]; [reflexivity|].
  cbn [repeat concat]. rewrite evaluations_app, evaluations_block, IH. lia.
Qed.

(** X12: with a validation interval of at least one epoch the loop ends,
    after one pass per block: it trains validation_interval epochs and
    evaluates, as often as the interval goes into train_epochs, then
    trains the epochs that are left, if any, and evaluates once more.  In
    all it trains train_epochs epochs, one epoch per call of train. *)
Theorem epoch_loop_schedule (train_epochs validation_interval : Z) (passes : nat) :
  1 <= validation_interval -> 0 <= train_epochs ->
  (Z.to_nat (train_epochs / validation_interval) < passes)%nat ->
  epoch_loop passes train_epochs validation_interval
  = (schedule train_epochs validation_interval, true) /\
  trainings (schedule train_epochs validation_interval) = Z.to_nat train_epochs /\
  evaluations (schedule train_epochs validation_interval)
  = (Z.to_nat (train_epochs / validation_interval)
     + (if (train_epochs mod validation_interval =? 0)%Z then 0 else 1))%nat.
Proof.
  intros Hinterval Hepochs Hpasses.
  pose proof (Z.mod_pos_bound train_epochs validation_interval) as Hrest.
  pose proof (Z.div_pos train_epochs validation_interval) as Hblocks.
  pose proof (Z.div_mod train_epochs validation_interval) as Hsplit.
  split; [|split].
  - unfold schedule.
    assert (Hq : Z.of_nat (Z.to_nat (train_epochs / validation_interval))
                 = train_epochs / validation_interval) by lia.
    remember (Z.to_nat (train_epochs / validation_interval)) as blocks eqn:Hb.
    remember (train_epochs mod validation_interval) as rest eqn:Hr.
    assert (Heq : train_epochs = Z.of_nat blocks * validation_interval + rest)
      by (rewrite Hq; lia).
    rewrite Heq at 1. apply epoch_loop_blocks; lia.
  - unfold schedule. rewrite trainings_app, trainings_blocks.
    destruct (train_epochs mod validation_interval =? 0) eqn:Hzero.
    + apply Z.eqb_eq in Hzero. cbn. nia.
    + rewrite trainings_block. nia.
  - unfold schedule. rewrite evaluations_app, evaluations_blocks.
    destruct (train_epochs mod validation_interval =? 0); [reflexivity|].
    now rewrite evaluations_block.
Qed.

(** X13: with a validation interval that is not positive and at least one
    epoch to train, the loop never ends and never trains: the number of
    epochs that remain does not go down, and pass after pass it only
    evaluates. *)
Theorem epoch_loop_never_ends (train_epochs validation_interval : Z) (passes : nat) :
  validation_interval <= 0 -> 0 < train_epochs ->
  epoch_loop passes train_epochs validation_interval = (repeat Evaluate passes, false).
Proof.
  intros Hinterval. revert train_epochs.
  induction passes as [|passes IH]; intros train_epochs Hepochs; cbn [epoch_loop repeat].
  - now rewrite (proj2 (Z.ltb_lt 0 train_epochs)).
  - rewrite (proj2 (Z.ltb_lt 0 train_epochs)) by lia.
    unfold number_of_training_epochs.
    rewrite (proj2 (Z.ltb_ge train_epochs validation_interval)) by lia.
    rewrite IH by lia.
    replace (Z.to_nat validation_interval) with 0%nat by lia. reflexivity.
Qed.

(** X12 on seven epochs that are validated every three. *)
Lemma epoch_loop_schedule_witness :
  epoch_loop 3 7 3
  = ([Train; Train; Train; Evaluate; Train; Train; Train; Evaluate; Train; Evaluate],
     true) /\
  trainings (schedule 7 3) = 7%nat /\
  evaluations (schedule 7 3) = 3%nat.
Proof.
  apply (@epoch_loop_schedule 7 3 3); [lia|lia|].
  vm_compute. lia.
Defined.

(** X13 on one epoch and the interval 0. *)
Lemma epoch_loop_never_ends_witness :
  epoch_loop 4 1 0 = ([Evaluate; Evaluate; Evaluate; Evaluate], false).
Proof.
  apply (@epoch_loop_never_ends 1 0 4); lia.
Defined.

End EpochLoop.

(** ** TrainingFeatureLoader: from the parsed record to the examples *)

From Stdlib Require Import DecimalString.

Module TrainingFeatureLoader.

Import Tensor.
Local Open Scope outcome_scope.

(** A dictionary keyed by integers, latest binding first. *)
Definition int_dict (A : Type) : Type := list (nat * A).

Fixpoint int_find {A : Type} (d : int_dict A) (key : nat) : option A :=
  match d with
  | [] => None
  | (k, a) :: rest => if k =? key then Some a else int_find rest key
  end.

(** An integer key as the [KeyError] shows it, in decimal. *)
Definition int_key (index : nat) : string :=
  NilEmpty.string_of_uint (Nat.to_uint index).

(** [d[key]] *)
Definition int_get {A : Type} (d : int_dict A) (key : nat) : outcome A :=
  match int_find d key with
  | Some a => Returned a
  | None => Raised (KeyError (int_key key))
  end.

(** [source] and [target] exist once [deserialize] has set them. *)
Record t : Type := {
  is_target : bool;
  number_of_channels : nat;
  name : string;
  source : option (int_dict tensor);
  target : option tensor
}.

Definition set_source (self : t) (v : int_dict tensor) : t :=
  {| is_target := is_target self;
     number_of_channels := number_of_channels self;
     name := name self;
     source := Some v;
     target := target self |}.

Definition set_target (self : t) (v : tensor) : t :=
  {| is_target := is_target self;
     number_of_channels := number_of_channels self;
     name := name self;
     source := source self;
     target := Some v |}.

(** *** Sample objects *)

(** A loader of the feature Normal, which is no target. *)
Definition sample_loader : t :=
  {| is_target := false;
     number_of_channels := 1;
     name := "Normal";
     source := None;
     target := None |}.

(** The record of an example with four sources of Normal; a serialized
    image stands for itself. *)
Definition sample_parsed : dict tensor :=
  [("Normal0", [[Finite 10%R]]); ("Normal1", [[Finite 11%R]]);
   ("Normal2", [[Finite 12%R]]); ("Normal3", [[Finite 13%R]])].

Definition sample_decode (serialized : tensor) (height width channels : nat) : tensor :=
  serialized.

Definition sample_target_name (name : string) : string := (name ++ "Target")%string.

(** The loader once it has deserialized the four sources. *)
Definition sample_loaded : t :=
  set_source sample_loader
    [(3, [[Finite 13%R]]); (2, [[Finite 12%R]]);
     (1, [[Finite 11%R]]); (0, [[Finite 10%R]])].

Section Methods.

(** What [parsed_features] holds under a name: a serialized image. *)
Variable serialized : Type.

(** [RenderPasses.source_feature_name_indexed] and
    [RenderPasses.target_feature_name] *)
Variable source_feature_name_indexed : string -> nat -> string.
Variable target_feature_name : string -> string.

(** [tf.reshape(tf.decode_raw(serialized, tf.float32),
    [height, width, number_of_channels])] *)
Variable decode : serialized -> nat -> nat -> nat -> tensor.

(** The loop of [deserialize] over [required_indices]. *)
Fixpoint deserialize_sources (self : t) (parsed_features : dict serialized)
    (required_indices : list nat) (height width : nat) : outcome t :=
  match required_indices with
  | [] => Returned self
  | index :: rest =>
      parsed <- dict_get parsed_features
                  (source_feature_name_indexed (name self) index) ;;
      sources <- attribute "source" (source self) ;;
      let self :=
        set_source self
          ((index, decode parsed height width (number_of_channels self)) :: sources) in
      deserialize_sources self parsed_features rest height width
  end.

Definition deserialize (self : t) (parsed_features : dict serialized)
    (required_indices : list nat) (height width : nat) : outcome t :=
  let self := set_source self [] in
  self <- deserialize_sources self parsed_features required_indices height width ;;
  if is_target self
  then
    parsed <- dict_get parsed_features (target_feature_name (name self)) ;;
    Returned (set_target self (decode parsed height width (number_of_channels self)))
  else Returned self.

(** The loop of [add_to_sources_dictionary] over [range(len(index_tuple))],
    from position [i]. *)
Fixpoint add_sources (self : t) (sources : dict tensor) (index_tuple : list nat)
    (i : nat) : outcome (dict tensor) :=
  match index_tuple with
  | [] => Returned sources
  | index :: rest =>
      held <- attribute "source" (source self) ;;
      source_at_index <- int_get held index ;;
      add_sources self
        ((source_feature_name_indexed (name self) i, source_at_index) :: sources)
        rest (S i)
  end.

Definition add_to_sources_dictionary (self : t) (sources : dict tensor)
    (index_tuple : list nat) : outcome (dict tensor) :=
  add_sources self sources index_tuple 0.

Definition add_to_targets_dictionary (self : t) (targets : dict tensor)
  : outcome (dict tensor) :=
  if is_target self
  then
    held <- attribute "target" (target self) ;;
    Returned ((target_feature_name (name self), held) :: targets)
  else Returned targets.

(** What [deserialize] holds under a required index. *)
Definition decoded (self : t) (parsed_features : dict serialized) (height width : nat)
    (index : nat) : option tensor :=
  option_map (fun parsed => decode parsed height width (number_of_channels self))
    (dict_find parsed_features (source_feature_name_indexed (name self) index)).

Lemma deserialize_sources_spec parsed_features height width required_indices :
  forall self held loaded,
  source self = Some held ->
  deserialize_sources self parsed_features required_indices height width
  = Returned loaded ->
  is_target loaded = is_target self /\
  number_of_channels loaded = number_of_channels self /\
  name loaded = name self /\
  target loaded = target self /\
  exists held',
    source loaded = Some held' /\
    (forall index, In index required_indices ->
       decoded self parsed_features height width index <> None /\
       int_find held' index = decoded self parsed_features height width index) /\
    (forall index, ~ In index required_indices ->
       int_find held' index = int_find held index).
Proof.
  induction required_indices as [|index rest IH]; intros self held loaded Hheld;
    cbn [deserialize_sources].
  - intros H. injection H as <-. repeat split. exists held. split; [exact Hheld|].
    split; [intros index []|reflexivity].
  - unfold dict_get.
    destruct (dict_find parsed_features
                (source_feature_name_indexed (name self) index)) as [parsed|] eqn:Hparsed;
      [|discriminate].
    rewrite Hheld. cbn [attribute bind]. intros Hloaded.
    apply IH with (held := (index, decode parsed height width (number_of_channels self))
                           :: held) in Hloaded; [|reflexivity].
    cbn [is_target number_of_channels name target set_source] in Hloaded.
    destruct Hloaded as (Ht & Hc & Hn & Hg & held' & Hsource & Hin & Hout).
    repeat split; try assumption. exists held'. split; [exact Hsource|].
    assert (Hsame : forall i, decoded (set_source self
                      ((index, decode parsed height width (number_of_channels self))
                         :: held)) parsed_features height width i
                    = decoded self parsed_features height width i) by reflexivity.
    split.
    + intros i Hi. destruct (in_dec Nat.eq_dec i rest) as [Hrest|Hrest].
      * rewrite <- Hsame. now apply Hin.
      * destruct Hi as [<-|Hi]; [|contradiction].
        rewrite (Hout index Hrest). cbn [int_find]. rewrite Nat.eqb_refl.
        unfold decoded. rewrite Hparsed. split; [discriminate|reflexivity].
    + intros i Hi. rewrite Hout by (intros Hrest; apply Hi; now right).
      cbn [int_find]. destruct (index =? i) eqn:Heq; [|reflexivity].
      apply Nat.eqb_eq in Heq. elim Hi. now left.
Qed.

(** What a loader holds once [deserialize] has returned. *)
Lemma deserialize_returned self parsed_features required_indices height width loaded :
  deserialize self parsed_features required_indices height width = Returned loaded ->
  name loaded = name self /\
  exists held,
    source loaded = Some held /\
    (forall index, In index required_indices ->
       decoded self parsed_features height width index <> None /\
       int_find held index = decoded self parsed_features height width index) /\
    (forall index, ~ In index required_indices -> int_find held index = None).
Proof.
  unfold deserialize.
  destruct (deserialize_sources (set_source self []) parsed_features required_indices
              height width) as [sourced|] eqn:Hsources; [|discriminate].
  apply deserialize_sources_spec with (held := []) in Hsources; [|reflexivity].
  cbn [is_target number_of_channels name target set_source] in Hsources.
  destruct Hsources as (Ht & Hc & Hn & Hg & held & Hsource & Hin & Hout).
  cbn [bind]. intros Hloaded.
  assert (Hkept : name loaded = name sourced /\ source loaded = source sourced).
  { destruct (is_target sourced).
    - destruct (dict_get parsed_features (target_feature_name (name sourced)));
        [|discriminate].
      cbn [bind] in Hloaded. injection Hloaded as <-. split; reflexivity.
    - injection Hloaded as <-. split; reflexivity. }
  destruct Hkept as [Hname Hheld]. split; [now rewrite Hname|].
  exists held. rewrite Hheld. split; [exact Hsource|]. split; [exact Hin|exact Hout].
Qed.

(** The loop of [add_to_sources_dictionary] on a loader that holds
    [held]. *)
Lemma add_sources_spec self held index_tuple :
  source self = Some held ->
  forall sources i,
  (forall p q, p < length index_tuple -> q < length index_tuple ->
     source_feature_name_indexed (name self) (i + p)
     = source_feature_name_indexed (name self) (i + q) -> p = q) ->
  Forall (fun index => int_find held index <> None) index_tuple ->
  exists sources',
    add_sources self sources index_tuple i = Returned sources' /\
    (forall p index, nth_error index_tuple p = Some index ->
       dict_find sources' (source_feature_name_indexed (name self) (i + p))
       = int_find held index) /\
    (forall key,
       (forall p, p < length index_tuple ->
          key <> source_feature_name_indexed (name self) (i + p)) ->
       dict_find sources' key = dict_find sources key).
Proof.
  intros Hheld. induction index_tuple as [|index rest IH]; intros sources i Hinj Hfound;
    cbn [add_sources].
  - exists sources. split; [reflexivity|]. split; [|reflexivity].
    intros [|p] index' H; discriminate.
  - rewrite Hheld. cbn [attribute bind]. unfold int_get.
    inversion Hfound as [|? ? Hindex Hrest]; subst.
    destruct (int_find held index) as [s|] eqn:Hs; [|now elim Hindex]. cbn [bind].
    destruct (IH ((source_feature_name_indexed (name self) i, s) :: sources) (S i))
      as (sources' & Hadd & Hat & Hframe).
    { intros p q Hp Hq Heq. cbn [length] in Hinj.
      assert (S p = S q); [|lia].
      apply Hinj; try lia. now rewrite <- !Nat.add_succ_comm. }
    { exact Hrest. }
    exists sources'. split; [exact Hadd|]. split.
    + intros [|p] index' Hnth.
      * cbn [nth_error] in Hnth. injection Hnth as <-.
        rewrite Hframe.
        -- cbn [dict_find]. rewrite Nat.add_0_r, String.eqb_refl. now rewrite Hs.
        -- intros p Hp Heq. cbn [length] in Hinj.
           assert (0 = S p); [|lia].
           apply Hinj; try lia. now rewrite <- Nat.add_succ_comm.
      * cbn [nth_error] in Hnth. rewrite <- Nat.add_succ_comm. now apply Hat.
    + intros key Hkey. rewrite Hframe.
      * cbn [dict_find].
        destruct (String.eqb (source_feature_name_indexed (name self) i) key) eqn:Heq;
          [|reflexivity].
        apply String.eqb_eq in Heq. elim (Hkey 0); [cbn; lia|].
        now rewrite Nat.add_0_r.
      * intros p Hp. rewrite Nat.add_succ_comm. apply Hkey. cbn [length]. lia.
Qed.

(** The loop stops at the first index that the loader does not hold. *)
Lemma add_sources_missing self held before index after :
  source self = Some held ->
  Forall (fun index => int_find held index <> None) before ->
  int_find held index = None ->
  forall sources i,
  add_sources self sources (before ++ index :: after) i
  = Raised (KeyError (int_key index)).
Proof.
  intros Hheld Hbefore Hmissing.
  induction Hbefore as [|b before Hb _ IH]; intros sources i; cbn [app add_sources];
    rewrite Hheld; cbn [attribute bind]; unfold int_get.
  - now rewrite Hmissing.
  - destruct (int_find held b); [|now elim Hb]. cbn [bind]. apply IH.
Qed.

(** On a loader that has deserialized [required_indices], a tuple of
    required indices is added in full. *)
Lemma add_to_sources_dictionary_required (self loaded : t)
    (parsed_features : dict serialized) (required_indices : list nat)
    (height width : nat) (sources : dict tensor) (index_tuple : list nat) :
  deserialize self parsed_features required_indices height width = Returned loaded ->
  (forall p q, p < length index_tuple -> q < length index_tuple ->
     source_feature_name_indexed (name self) p
     = source_feature_name_indexed (name self) q -> p = q) ->
  Forall (fun index => In index required_indices) index_tuple ->
  exists sources',
    add_to_sources_dictionary loaded sources index_tuple = Returned sources' /\
    (forall p index, nth_error index_tuple p = Some index ->
       decoded self parsed_features height width index <> None /\
       dict_find sources' (source_feature_name_indexed (name self) p)
       = decoded self parsed_features height width index) /\
    (forall key,
       (forall p, p < length index_tuple ->
          key <> source_feature_name_indexed (name self) p) ->
       dict_find sources' key = dict_find sources key).
Proof.
  intros Hloaded Hinj Hrequired.
  destruct (deserialize_returned _ _ _ _ _ Hloaded) as (Hname & held & Hheld & Hin & Hout).
  unfold add_to_sources_dictionary.
  destruct (@add_sources_spec loaded held index_tuple Hheld sources 0)
    as (sources' & Hadd & Hat & Hframe).
  { rewrite Hname. exact Hinj. }
  { eapply Forall_impl; [|exact Hrequired]. intros index Hindex.
    destruct (Hin index Hindex) as [Hsome Hfind]. now rewrite Hfind. }
  rewrite Hname in Hat, Hframe. cbn [Nat.add] in Hat, Hframe.
  exists sources'. split; [exact Hadd|]. split; [|exact Hframe].
  intros p index Hnth. rewrite (Hat p index Hnth).
  apply Hin. apply nth_error_In in Hnth.
  exact (proj1 (Forall_forall _ _) Hrequired index Hnth).
Qed.

(** X15: once deserialize has returned for required_indices,
    add_to_sources_dictionary returns for an index tuple all of whose
    indices are required, and leaves under the indexed name of each
    position of the tuple the image decoded from the record under the
    indexed name of the index at that position, and every other name of
    the dictionary as it was; for a tuple with an index that is not
    required it stops with the KeyError of the first such index. *)
Theorem add_to_sources_dictionary_deserialized (self loaded : t)
    (parsed_features : dict serialized) (required_indices : list nat)
    (height width : nat) (sources : dict tensor) (index_tuple : list nat) :
  deserialize self parsed_features required_indices height width = Returned loaded ->
  (forall p q, p < length index_tuple -> q < length index_tuple ->
     source_feature_name_indexed (name self) p
     = source_feature_name_indexed (name self) q -> p = q) ->
  (Forall (fun index => In index required_indices) index_tuple ->
   exists sources',
     add_to_sources_dictionary loaded sources index_tuple = Returned sources' /\
     (forall p index, nth_error index_tuple p = Some index ->
        decoded self parsed_features height width index <> None /\
        dict_find sources' (source_feature_name_indexed (name self) p)
        = decoded self parsed_features height width index) /\
     (forall key,
        (forall p, p < length index_tuple ->
           key <> source_feature_name_indexed (name self) p) ->
        dict_find sources' key = dict_find sources key)) /\
  (forall before index after,
     index_tuple = before ++ index :: after ->
     Forall (fun index => In index required_indices) before ->
     ~ In index required_indices ->
     add_to_sources_dictionary loaded sources index_tuple
     = Raised (KeyError (int_key index))).
Proof.
  intros Hloaded Hinj. split.
  - now apply add_to_sources_dictionary_required.
  - destruct (deserialize_returned _ _ _ _ _ Hloaded)
      as (Hname & held & Hheld & Hin & Hout).
    intros before index after -> Hbefore Hindex. unfold add_to_sources_dictionary.
    apply add_sources_missing with (held := held); [exact Hheld| |now apply Hout].
    eapply Forall_impl; [|exact Hbefore]. intros b Hb.
    destruct (Hin b Hb) as [Hsome Hfind]. now rewrite Hfind.
Qed.

Lemma found_all {A B : Type} (value : A -> option B) (l : list A) :
  Forall (fun a => value a <> None) l ->
  exists values, Forall2 (fun a b => value a = Some b) l values.
Proof.
  induction 1 as [|a l Ha _ [values IH]]; [now exists []|].
  destruct (value a) as [b|] eqn:Hb; [|now elim Ha].
  exists (b :: values). now constructor.
Qed.

Lemma Forall2_positions {A B : Type} (P : A -> B -> Prop) (Q : nat -> B -> Prop)
    (l : list A) (values : list B) :
  Forall2 P l values ->
  forall i,
  (forall p a b, nth_error l p = Some a -> P a b -> Q (i + p) b) ->
  Forall2 Q (seq i (length l)) values.
Proof.
  induction 1 as [|a b l values Hab _ IH]; intros i Hat; cbn [length seq];
    constructor.
  - rewrite <- (Nat.add_0_r i). now apply (Hat 0 a b).
  - apply IH. intros p a' b' Hnth Hp. rewrite Nat.add_succ_comm.
    now apply (Hat (S p) a' b').
Qed.

(** X16: the index tuples and the required indices that
    source_index_tuples returns fit the loader and the prediction feature
    of the same name and the same number of sources per target.  On a
    loader that has deserialized these required indices,
    add_to_sources_dictionary returns for each of the tuples, and
    initialize_sources_from_dictionary then finds every source of the
    feature: source i of the feature is the image decoded from the record
    under the index at position i of the tuple. *)
Theorem index_tuple_sources_read_back (N M d : nat) (draws : list nat)
    (index_tuples : list (list nat)) (required_indices : list nat)
    (self loaded : t) (parsed_features : dict serialized) (height width : nat)
    (feature : PredictionFeature.t) (sources : dict tensor) (index_tuple : list nat) :
  SourceIndexTuples.in_range N draws ->
  SourceIndexTuples.source_index_tuples N M d draws
  = Some (Returned (index_tuples, required_indices)) ->
  deserialize self parsed_features required_indices height width = Returned loaded ->
  PredictionFeature.name feature = name self ->
  PredictionFeature.number_of_sources feature = d ->
  (forall p q, p < d -> q < d ->
     source_feature_name_indexed (name self) p
     = source_feature_name_indexed (name self) q -> p = q) ->
  In index_tuple index_tuples ->
  exists sources' raw,
    add_to_sources_dictionary loaded sources index_tuple = Returned sources' /\
    PredictionFeature.initialize_sources_from_dictionary source_feature_name_indexed
      feature sources'
    = Returned (PredictionFeature.set_source
                  (PredictionFeature.set_variance
                     (PredictionFeature.set_source feature []) []) raw) /\
    length raw = d /\
    Forall2 (fun index s => decoded self parsed_features height width index = Some s)
      index_tuple raw.
Proof.
  intros Hdraws Hcall Hloaded Hname Hnumber Hinj Htuple.
  destruct (@SourceIndexTuples.source_index_tuples_returned _ _ _ _ _ _ Hdraws Hcall)
    as (_ & _ & Hall & ->).
  destruct (SourceIndexTuples.required_indices_spec index_tuples) as [_ Hrequired].
  destruct (proj1 (Forall_forall _ _) Hall index_tuple Htuple) as (Hlength & _ & _).
  assert (Hin : Forall (fun index =>
                          In index (SourceIndexTuples.required_indices index_tuples))
                  index_tuple).
  { apply Forall_forall. intros index Hindex. apply Hrequired. now exists index_tuple. }
  destruct (@add_to_sources_dictionary_required self loaded parsed_features _
              height width sources index_tuple Hloaded)
    as (sources' & Hadd & Hat & _); [now rewrite Hlength|exact Hin|].
  destruct (@found_all _ _ (decoded self parsed_features height width) index_tuple)
    as [raw Hraw].
  { apply Forall_forall. intros index Hindex. apply In_nth_error in Hindex.
    destruct Hindex as [p Hp]. now apply (Hat p). }
  exists sources', raw. split; [exact Hadd|]. split; [|split; [|exact Hraw]].
  - unfold PredictionFeature.initialize_sources_from_dictionary.
    cbn [PredictionFeature.number_of_sources PredictionFeature.set_source
         PredictionFeature.set_variance].
    rewrite (@PredictionFeature.load_sources_lookup_all source_feature_name_indexed
               _ sources' _ []) by reflexivity.
    cbn [PredictionFeature.name PredictionFeature.set_source
         PredictionFeature.set_variance].
    rewrite (@PredictionFeature.lookup_all_found sources'
               (source_feature_name_indexed (PredictionFeature.name feature))
               (seq 0 (PredictionFeature.number_of_sources feature)) raw);
      [reflexivity|].
    rewrite Hnumber, <- Hlength, Hname.
    apply (@Forall2_positions _ _ _ _ _ _ Hraw 0). cbn [Nat.add].
    intros p index s Hnth Hs. rewrite <- Hs. now apply Hat.
  - apply Forall2_length in Hraw. now rewrite <- Hraw.
Qed.

End Methods.

(** X15 on the sample loader, which has deserialized the indices 0 to 3:
    the tuple (1, 3) is added, and the tuple (1, 5) stops at the index
    5. *)
Lemma add_to_sources_dictionary_deserialized_witness :
  (exists sources',
     add_to_sources_dictionary PredictionFeature.sample_name_indexed sample_loaded
       [] [1; 3]
     = Returned sources' /\
     (forall p index, nth_error [1; 3] p = Some index ->
        decoded PredictionFeature.sample_name_indexed sample_decode sample_loader
          sample_parsed 8 8 index <> None /\
        dict_find sources' (PredictionFeature.sample_name_indexed "Normal" p)
        = decoded PredictionFeature.sample_name_indexed sample_decode sample_loader
            sample_parsed 8 8 index) /\
     (forall key,
        (forall p, p < 2 -> key <> PredictionFeature.sample_name_indexed "Normal" p) ->
        dict_find sources' key = dict_find [] key)) /\
  add_to_sources_dictionary PredictionFeature.sample_name_indexed sample_loaded
    [] [1; 5]
  = Raised (KeyError "5").
Proof.
  split.
  - apply (proj1 (@add_to_sources_dictionary_deserialized _
                    PredictionFeature.sample_name_indexed sample_target_name
                    sample_decode sample_loader sample_loaded sample_parsed
                    [0; 1; 2; 3] 8 8 [] [1; 3] eq_refl
                    ltac:(intros [|[|p]] [|[|q]]; cbn; intros; try lia; discriminate))).
    apply Forall_forall. cbn. intros index [<-|[<-|[]]]; auto.
  - apply (proj2 (@add_to_sources_dictionary_deserialized _
                    PredictionFeature.sample_name_indexed sample_target_name
                    sample_decode sample_loader sample_loaded sample_parsed
                    [0; 1; 2; 3] 8 8 [] [1; 5] eq_refl
                    ltac:(intros [|[|p]] [|[|q]]; cbn; intros; try lia; discriminate))
             [1] 5 []).
    + reflexivity.
    + apply Forall_forall. cbn. intros index [<-|[]]; auto.
    + cbn. intros [H|[H|[H|[H|[]]]]]; discriminate.
Defined.

(** X16 on four sources, three tuples of two indices, and the feature
    Normal with two sources per target: the tuple (1, 3). *)
Lemma index_tuple_sources_read_back_witness :
  exists sources' raw,
    add_to_sources_dictionary PredictionFeature.sample_name_indexed sample_loaded
      [] [1; 3]
    = Returned sources' /\
    PredictionFeature.initialize_sources_from_dictionary
      PredictionFeature.sample_name_indexed PredictionFeature.two_sources sources'
    = Returned (PredictionFeature.set_source
                  (PredictionFeature.set_variance
                     (PredictionFeature.set_source PredictionFeature.two_sources []) [])
                  raw) /\
    length raw = 2 /\
    Forall2 (fun index s =>
               decoded PredictionFeature.sample_name_indexed sample_decode sample_loader
                 sample_parsed 8 8 index = Some s)
      [1; 3] raw.
Proof.
  apply (@index_tuple_sources_read_back _ PredictionFeature.sample_name_indexed
           sample_target_name sample_decode 4 3 2 [1; 1; 3; 0; 0; 2; 2; 1]
           [[1; 3]; [0; 2]; [2; 1]] [0; 1; 2; 3] sample_loader sample_loaded
           sample_parsed 8 8 PredictionFeature.two_sources [] [1; 3]).
  - unfold SourceIndexTuples.in_range. repeat constructor.
  - reflexivity.
  - reflexivity.
  - reflexivity.
  - reflexivity.
  - intros [|[|p]] [|[|q]]; cbn; intros; try lia; discriminate.
  - now left.
Defined.

End TrainingFeatureLoader.

(** ** CombinedTrainingFeature: the loss of a combined feature *)

Module CombinedTrainingFeature.

Import BaseTrainingFeature.
Local Open Scope outcome_scope.
Local Open Scope Q_scope.

(** [tf.add] of two tensors of one shape. *)
Definition tf_add (a b : tensor) : tensor :=
  map (fun xy => fst xy + snd xy) (combine a b).

(** [CombinedTrainingFeature.initialize].  The three training features
    are objects that the combined feature shares with the list of
    training features; they are passed as they are when the method runs.
    The attributes are read in the order of the two statements. *)
Definition initialize (self color_training_feature direct_training_feature
    indirect_training_feature : t) : outcome t :=
  color_predicted <- attribute "predicted" (predicted color_training_feature) ;;
  direct_predicted <- attribute "predicted" (predicted direct_training_feature) ;;
  indirect_predicted <- attribute "predicted" (predicted indirect_training_feature) ;;
  color_target <- attribute "target" (target color_training_feature) ;;
  direct_target <- attribute "target" (target direct_training_feature) ;;
  indirect_target <- attribute "target" (target indirect_training_feature) ;;
  Returned
    (set_predicted_target self
       (tf_multiply color_predicted (tf_add direct_predicted indirect_predicted))
       (tf_multiply color_target (tf_add direct_target indirect_target))).

(** *** Sample objects *)

(** The three training features of Diffuse as main constructs them, and
    the dictionaries of a step. *)
Definition sample_training_feature (name : string) : t :=
  {| name := name;
     mean_weight := 1;
     variation_weight := 0;
     ms_ssim_weight := 0;
     masked_mean_weight := 0;
     masked_variation_weight := 0;
     masked_ms_ssim_weight := 0;
     predicted := None;
     target := None;
     mask := None;
     mask_sum := None |}.

Definition sample_step_predictions : dict tensor :=
  [("prediction/DiffuseColor", [1; 2]); ("prediction/DiffuseDirect", [3; 4]);
   ("prediction/DiffuseIndirect", [5; 6])].

Definition sample_step_targets : dict tensor :=
  [("target/DiffuseColor", [1; 1]); ("target/DiffuseDirect", [2; 2]);
   ("target/DiffuseIndirect", [3; 3])].

Section Methods.

Variable LossDifference_difference : tensor -> tensor -> tensor.
Variable tf_reduce_mean : tensor -> Q.
Variable variation_differences : tensor -> tensor -> tensor.
Variable ssim_multiscale_mean : tensor -> tensor -> Q.
Variable prediction_feature_name : string -> string.
Variable target_feature_name : string -> string.
Variable is_direct_or_indirect_render_pass : string -> bool.
Variable direct_or_indirect_to_color_render_pass : string -> string.
Variable non_zero_mask : tensor -> tensor.

(** [TrainingFeature.initialize] of one of the three objects on the
    dictionaries of a step. *)
Definition initialized (feature : t) (sources predictions targets : dict tensor)
  : outcome t :=
  BaseTrainingFeature.initialize prediction_feature_name target_feature_name
    is_direct_or_indirect_render_pass direct_or_indirect_to_color_render_pass
    non_zero_mask feature sources predictions targets.

Lemma initialized_tensors feature sources predictions targets feature' :
  initialized feature sources predictions targets = Returned feature' ->
  exists p g,
    dict_find predictions (prediction_feature_name (name feature)) = Some p /\
    dict_find targets (target_feature_name (name feature)) = Some g /\
    predicted feature' = Some p /\ target feature' = Some g.
Proof.
  intros Hinit. apply initialize_returned in Hinit.
  destruct Hinit as (p & g & Hp & Hg & Hform). exists p, g.
  split; [exact Hp|]. split; [exact Hg|].
  destruct (is_direct_or_indirect_render_pass (name feature)).
  - destruct Hform as (c & _ & ->). split; reflexivity.
  - subst feature'. split; reflexivity.
Qed.

(** X20: model_fn initializes the training features before the combined
    ones, and a combined feature shares its three training features with
    that list.  Once initialize has returned for the three, initialize of
    the combined feature returns: its prediction is the color prediction
    times the sum of the direct and the indirect prediction, as the
    dictionary of predictions holds them, and likewise its target, from
    the dictionary of targets, not the target of the combined pass.  With
    the zero masked weights that main gives it, its loss then returns: the
    included ones of mean, variation and ms_ssim on that prediction and
    that target.  On a training feature that was never initialized it
    stops on the missing attribute predicted. *)
Theorem initialize_after_training_features (self color direct indirect : t)
    (color' direct' indirect' : t) (sources predictions targets : dict tensor) :
  initialized color sources predictions targets = Returned color' ->
  initialized direct sources predictions targets = Returned direct' ->
  initialized indirect sources predictions targets = Returned indirect' ->
  masked_mean_weight self <= 0 -> masked_variation_weight self <= 0 ->
  masked_ms_ssim_weight self <= 0 ->
  (exists pc pd pi gc gd gi,
     dict_find predictions (prediction_feature_name (name color)) = Some pc /\
     dict_find predictions (prediction_feature_name (name direct)) = Some pd /\
     dict_find predictions (prediction_feature_name (name indirect)) = Some pi /\
     dict_find targets (target_feature_name (name color)) = Some gc /\
     dict_find targets (target_feature_name (name direct)) = Some gd /\
     dict_find targets (target_feature_name (name indirect)) = Some gi /\
     initialize self color' direct' indirect'
     = Returned (set_predicted_target self
                   (tf_multiply pc (tf_add pd pi)) (tf_multiply gc (tf_add gd gi))) /\
     incl (included self) [Mean; Variation; MsSsim] /\
     forall log,
       loss LossDifference_difference tf_reduce_mean variation_differences
         ssim_multiscale_mean
         (set_predicted_target self
            (tf_multiply pc (tf_add pd pi)) (tf_multiply gc (tf_add gd gi))) log
       = (Returned
            (fold_left
               (fun acc m =>
                  add_scaled acc (weight self m)
                    (unmasked_value LossDifference_difference tf_reduce_mean
                       variation_differences ssim_multiscale_mean
                       (tf_multiply pc (tf_add pd pi))
                       (tf_multiply gc (tf_add gd gi)) m))
               (included self) 0),
          log ++ included self)) /\
  (predicted color = None ->
   initialize self color direct indirect = Raised (AttributeError "predicted")).
Proof.
  intros Hcolor Hdirect Hindirect Hmm Hmv Hms. split.
  - destruct (initialized_tensors _ _ _ _ Hcolor) as (pc & gc & Hpc & Hgc & Hpc' & Hgc').
    destruct (initialized_tensors _ _ _ _ Hdirect) as (pd & gd & Hpd & Hgd & Hpd' & Hgd').
    destruct (initialized_tensors _ _ _ _ Hindirect)
      as (pi & gi & Hpi & Hgi & Hpi' & Hgi').
    exists pc, pd, pi, gc, gd, gi. repeat (split; [assumption|]).
    split.
    + unfold initialize. rewrite Hpc', Hpd', Hpi', Hgc', Hgd', Hgi'. reflexivity.
    + apply (@loss_unmasked LossDifference_difference tf_reduce_mean
               variation_differences ssim_multiscale_mean
               (set_predicted_target self
                  (tf_multiply pc (tf_add pd pi)) (tf_multiply gc (tf_add gd gi))));
        try reflexivity; assumption.
  - intros Hnone. unfold initialize. now rewrite Hnone.
Qed.

End Methods.

(** Stand-ins for the names and the mask of [RenderPasses] and
    [Conv2dUtilities]. *)
Definition sample_prediction_name (name : string) : string :=
  ("prediction/" ++ name)%string.

Definition sample_target_name (name : string) : string := ("target/" ++ name)%string.

Definition sample_is_direct_or_indirect (name : string) : bool :=
  String.eqb name "DiffuseDirect" || String.eqb name "DiffuseIndirect".

Definition sample_to_color (name : string) : string := "DiffuseColor".

Definition sample_non_zero_mask (color : tensor) : tensor :=
  map (fun x => if Qeq_bool x 0 then 0 else 1) color.

(** The combined feature Diffuse with the weights of the sample
    configuration. *)
Definition sample_combined : t := sample_training_feature "Diffuse".

(** The three training features once model_fn has initialized them. *)
Definition sample_color_initialized : t :=
  set_predicted_target (sample_training_feature "DiffuseColor") [1; 2] [1; 1].

Definition sample_direct_initialized : t :=
  set_mask (set_predicted_target (sample_training_feature "DiffuseDirect") [3; 4] [2; 2])
    (sample_non_zero_mask [1; 1]) (tf_reduce_sum (sample_non_zero_mask [1; 1])).

Definition sample_indirect_initialized : t :=
  set_mask
    (set_predicted_target (sample_training_feature "DiffuseIndirect") [5; 6] [3; 3])
    (sample_non_zero_mask [1; 1]) (tf_reduce_sum (sample_non_zero_mask [1; 1])).

(** X20 on the combined feature Diffuse: the prediction (1, 2) times
    ((3, 4) plus (5, 6)), and the target (1, 1) times ((2, 2) plus
    (3, 3)). *)
Lemma initialize_after_training_features_witness :
  (exists pc pd pi gc gd gi,
     dict_find sample_step_predictions (sample_prediction_name "DiffuseColor") = Some pc /\
     dict_find sample_step_predictions (sample_prediction_name "DiffuseDirect") = Some pd /\
     dict_find sample_step_predictions (sample_prediction_name "DiffuseIndirect")
     = Some pi /\
     dict_find sample_step_targets (sample_target_name "DiffuseColor") = Some gc /\
     dict_find sample_step_targets (sample_target_name "DiffuseDirect") = Some gd /\
     dict_find sample_step_targets (sample_target_name "DiffuseIndirect") = Some gi /\
     initialize sample_combined sample_color_initialized sample_direct_initialized
       sample_indirect_initialized
     = Returned (set_predicted_target sample_combined
                   (tf_multiply pc (tf_add pd pi)) (tf_multiply gc (tf_add gd gi))) /\
     incl (included sample_combined) [Mean; Variation; MsSsim] /\
     forall log,
       loss sample_difference sample_mean sample_difference (fun _ _ => 0)
         (set_predicted_target sample_combined
            (tf_multiply pc (tf_add pd pi)) (tf_multiply gc (tf_add gd gi))) log
       = (Returned
            (fold_left
               (fun acc m =>
                  add_scaled acc (weight sample_combined m)
                    (unmasked_value sample_difference sample_mean sample_difference
                       (fun _ _ => 0)
                       (tf_multiply pc (tf_add pd pi))
                       (tf_multiply gc (tf_add gd gi)) m))
               (included sample_combined) 0),
          log ++ included sample_combined)) /\
  (predicted (sample_training_feature "DiffuseColor") = None ->
   initialize sample_combined (sample_training_feature "DiffuseColor")
     (sample_training_feature "DiffuseDirect")
     (sample_training_feature "DiffuseIndirect")
   = Raised (AttributeError "predicted")).
Proof.
  apply (@initialize_after_training_features sample_difference sample_mean
           sample_difference (fun _ _ => 0) sample_prediction_name sample_target_name
           sample_is_direct_or_indirect sample_to_color sample_non_zero_mask
           sample_combined (sample_training_feature "DiffuseColor")
           (sample_training_feature "DiffuseDirect")
           (sample_training_feature "DiffuseIndirect")
           sample_color_initialized sample_direct_initialized
           sample_indirect_initialized [] sample_step_predictions sample_step_targets);
    try reflexivity; discriminate.
Defined.

End CombinedTrainingFeature.
